(** * skywalking-infra-e2e: setup and readiness orchestration

    A shallow embedding of [internal/components/setup/compose.go] and
    [internal/components/setup/kind.go], with the properties of the
    setup engine stated and proved over it.

    Go values are modelled as follows: [int] is [Z] (a 64-bit range is
    written out where the code can leave it), [string] is [string] (a
    sequence of bytes), an [error] is a structured value that keeps the
    format string and its arguments, and every call that leaves the
    process (container runtime, cluster API, sockets, environment) is
    answered by an explicit oracle and recorded in a trace. *)

From Stdlib Require Import ZArith List String Ascii Bool Lia Arith.
Import ListNotations.

Set Warnings "-register-all".
Open Scope string_scope.

(** ** Values and errors *)

(** What the YAML decoder puts behind an [interface{}]: the dynamic
    types a port entry of a compose file can have. *)
Inductive GoValue :=
| VNil
| VBool (b : bool)
| VInt (n : Z)
| VFloat64 (bits : Z)
| VString (s : string)
| VSlice (l : list GoValue)
| VMap (m : list (GoValue * GoValue)).

Inductive NumErrKind := ErrSyntax | ErrRange.

(** A Go [error].  [Errorf] keeps the format string and the arguments
    of [fmt.Errorf]; [NumError] is [*strconv.NumError]; [ErrExternal]
    is an error made outside this package (runtime, cluster, OS). *)
Inductive error :=
| Errorf (format : string) (args : list fmt_arg)
| NumError (func num : string) (kind : NumErrKind)
| ErrExternal (origin : string)
with fmt_arg :=
| ArgStr (s : string)
| ArgInt (n : Z)
| ArgErr (e : option error)
| ArgVal (v : GoValue).

(** ** Go's [strings] and [strconv], as far as the setup code uses them *)

Module GoStrings.

(** [strings.Contains(s, substr)]. *)
Fixpoint Contains (s substr : string) : bool :=
  if prefix substr s then true
  else match s with
       | EmptyString => false
       | String _ s' => Contains s' substr
       end.

(** [strings.Split(s, sep)] for a non-empty [sep] (the code splits on
    [":"] and [","]): the pieces between the non-overlapping
    occurrences of [sep], scanned from the left.  [skip] counts the
    bytes of an occurrence of [sep] that are still to be passed. *)
Fixpoint split_from (sep : string) (skip : nat) (s : string) : string * list string :=
  match s with
  | EmptyString => (EmptyString, [])
  | String c s' =>
      match skip with
      | S k => split_from sep k s'
      | O =>
          if prefix sep s
          then (EmptyString,
                let r := split_from sep (String.length sep - 1) s' in fst r :: snd r)
          else let r := split_from sep 0 s' in (String c (fst r), snd r)
      end
  end.

Definition Split (s sep : string) : list string :=
  let r := split_from sep 0 s in fst r :: snd r.

(** [strings.ReplaceAll(s, old, new)] for a non-empty [old]. *)
Fixpoint replace_from (old new : string) (skip : nat) (s : string) : string :=
  match s with
  | EmptyString => EmptyString
  | String c s' =>
      match skip with
      | S k => replace_from old new k s'
      | O =>
          if prefix old s
          then new ++ replace_from old new (String.length old - 1) s'
          else String c (replace_from old new 0 s')
      end
  end.

Definition ReplaceAll (s old new : string) : string := replace_from old new 0 s.

(** [strconv]: a decimal digit and its value. *)
Definition is_digit (c : ascii) : bool :=
  (48 <=? nat_of_ascii c)%nat && (nat_of_ascii c <=? 57)%nat.

Definition digit_val (c : ascii) : Z := Z.of_nat (nat_of_ascii c) - 48.

Fixpoint parse_digits (s : string) (acc : Z) : option Z :=
  match s with
  | EmptyString => Some acc
  | String c s' =>
      if is_digit c then parse_digits s' (10 * acc + digit_val c) else None
  end.

Definition maxInt : Z := 2 ^ 63 - 1.
Definition minInt : Z := - 2 ^ 63.

(** [strconv.ParseInt(s, 10, bitSize)]: an optional sign, then one or
    more decimal digits; the pair is Go's [(int64, error)].  A syntax
    error gives [0], a value out of range the nearest bound.  [fn] is
    the function name the error carries. *)
Definition ParseInt10 (fn s : string) (bitSize : Z) : Z * option error :=
  match s with
  | EmptyString => (0%Z, Some (NumError fn s ErrSyntax))
  | String c s' =>
      let neg := Ascii.eqb c "-" in
      let body := if Ascii.eqb c "-" || Ascii.eqb c "+" then s' else s in
      let cutoff := (2 ^ (bitSize - 1))%Z in
      match body with
      | EmptyString => (0%Z, Some (NumError fn s ErrSyntax))
      | _ =>
          match parse_digits body 0 with
          | None => (0%Z, Some (NumError fn s ErrSyntax))
          | Some n =>
              if neg
              then (if (n <=? cutoff)%Z then ((- n)%Z, None)
                    else ((- cutoff)%Z, Some (NumError fn s ErrRange)))
              else (if (n <? cutoff)%Z then (n, None)
                    else ((cutoff - 1)%Z, Some (NumError fn s ErrRange)))
          end
      end
  end.

(** [strconv.Atoi(s)] where [int] has 64 bits. *)
Definition Atoi (s : string) : Z * option error := ParseInt10 "Atoi" s 64.

(** [fmt.Sprintf("%d", n)] for an [int]. *)
Fixpoint digits_of_pos (fuel : nat) (n : Z) (acc : string) : string :=
  match fuel with
  | O => acc
  | S k =>
      let acc' := String (ascii_of_nat (Z.to_nat (48 + n mod 10))) acc in
      if (n <? 10)%Z then acc' else digits_of_pos k (n / 10) acc'
  end.

Definition Itoa (n : Z) : string :=
  if (n <? 0)%Z
  then String "-" (digits_of_pos (S (Z.to_nat (Z.log2 (- n)))) (- n) EmptyString)
  else digits_of_pos (S (Z.to_nat (Z.log2 n))) n EmptyString.

End GoStrings.

Import GoStrings.

(** ** Go's [regexp], as far as the setup code uses it *)

Module GoRegexp.

(** The syntax tree of a pattern.  [Dot] is [.], which does not match
    a newline (no [s] flag); [AnyByte] is only used for the unanchored
    search that [MatchString] performs. *)
Inductive regex :=
| Void
| Eps
| Chr (c : ascii)
| Dot
| AnyByte
| Range (lo hi : ascii)
| Cat (r1 r2 : regex)
| Alt (r1 r2 : regex)
| Star (r : regex).

Definition Plus (r : regex) : regex := Cat r (Star r).

Definition in_range (lo hi c : ascii) : bool :=
  (nat_of_ascii lo <=? nat_of_ascii c)%nat && (nat_of_ascii c <=? nat_of_ascii hi)%nat.

Definition newline : ascii := ascii_of_nat 10.

Fixpoint nullable (r : regex) : bool :=
  match r with
  | Void | Chr _ | Dot | AnyByte | Range _ _ => false
  | Eps | Star _ => true
  | Cat r1 r2 => nullable r1 && nullable r2
  | Alt r1 r2 => nullable r1 || nullable r2
  end.

(** Brzozowski derivative: what remains to be matched after [c]. *)
Fixpoint deriv (c : ascii) (r : regex) : regex :=
  match r with
  | Void | Eps => Void
  | Chr d => if Ascii.eqb c d then Eps else Void
  | Dot => if Ascii.eqb c newline then Void else Eps
  | AnyByte => Eps
  | Range lo hi => if in_range lo hi c then Eps else Void
  | Cat r1 r2 =>
      if nullable r1
      then Alt (Cat (deriv c r1) r2) (deriv c r2)
      else Cat (deriv c r1) r2
  | Alt r1 r2 => Alt (deriv c r1) (deriv c r2)
  | Star r1 => Cat (deriv c r1) (Star r1)
  end.

Fixpoint match_whole (r : regex) (s : string) : bool :=
  match s with
  | EmptyString => nullable r
  | String c s' => match_whole (deriv c r) s'
  end.

(** [regexp.MatchString] of a compiled pattern: true when some
    substring of [s] matches (the pattern is not anchored).  A pattern
    that compiles gives a nil error. *)
Definition MatchString (pattern : regex) (s : string) : bool * option error :=
  (match_whole (Cat (Star AnyByte) (Cat pattern (Star AnyByte))) s, None).

End GoRegexp.

Import GoRegexp.

(** ** compose.go: port specifications and instance names *)

(** compose.go, [getExpectPort]: the type switch on the decoded port
    entry. *)
Definition getExpectPort (portConfig : GoValue) : Z * option error :=
  match portConfig with
  | VInt conf => (conf, None)
  | VString conf =>
      let portInfo := Split conf ":" in
      if (1 <? List.length portInfo)%nat
      then Atoi (nth 1 portInfo EmptyString)
      else Atoi (nth 0 portInfo EmptyString)
  | _ => (0%Z, Some (Errorf "unknown port information: %v" [ArgVal portConfig]))
  end.

(** The pattern [".*_[0-9]+"] of [getInstanceName], compiled. *)
Definition instance_pattern : regex :=
  Cat (Star Dot) (Cat (Chr "_") (Plus (Range "0" "9"))).

(** compose.go, [getInstanceName]. *)
Definition getInstanceName (serviceName : string) : string :=
  let '(matched, err) := MatchString instance_pattern serviceName in
  match err with
  | Some _ => serviceName
  | None => if negb matched then serviceName ++ "_1" else serviceName
  end.

(** ** kind.go: the environment key of an exposed resource *)

(** kind.go, [exposePerKindService]: the local [resourceName], made
    from [port.Resource] by the two [strings.ReplaceAll] calls. *)
Definition resourceName (portResource : string) : string :=
  let resourceName := portResource in
  let resourceName := ReplaceAll resourceName "/" "_" in
  let resourceName := ReplaceAll resourceName "-" "_" in
  resourceName.

(** ** Effects: the trace of a run and the answers of the outside world *)

Inductive level := Info | Debug | LError.

(** Every operation that leaves the package: container runtime,
    compose, sockets, the environment, the kind and kubectl libraries,
    goroutines and the clock. *)
Inductive op :=
| NewClientWithOpts
| Stat (path : string)
| NetworkList
| NetworkCreate (name : string)
| NetworkInspect (name : string)
| NewLocalDockerCompose (files : list string) (identifier : string)
| ComposeInvoke (args : list string)
| ContainerList (name : string)
| ContainerInspect (id : string)
| DialContext (network address : string)
| ConnClose
| ContainerExecCreate (id : string) (cmd : list string)
| ContainerExecStart (execID : string)
| ContainerExecInspect (execID : string)
| Setenv (key value : string)
| RunStepsAndWait (timeout : Z) (withCluster : bool)
| ExportEnvVars (path : string)
| KindRun (args : list string)
| ExpandEnv (s : string)
| ConnectToK8sCluster (path : string)
| ReadFile (path : string)
| ToRESTConfig
| RoundTripperFor
| RESTClientFor
| ResourceLookup (namespace resource : string)
| AttachablePodForObject
| PortforwardNew (ports : list string)
| GoForwardPorts (resource : string)
| SelectReadyOrError (resource : string)
| GetPorts
| CancelFunc
| OpenDevNull
| WaitFlagsToOptions (args : list string)
| Sleep (millis : Z).

Inductive event :=
| Log (l : level) (format : string)
| Do (o : op).

(** kind.go, [kindPortForwardContext]: the two channels are kept by
    their capacity. *)
Record kindPortForwardContext := {
  stopChannel : nat;
  resourceCount : nat;
  resourceFinishedChannel : nat
}.

(** The trace (newest event first) and the package variables of
    kind.go. *)
Record state := {
  trace : list event;
  kindConfigPath : string;
  kubeConfigPath : string;
  portForwardContext : option kindPortForwardContext
}.

Definition initial : state :=
  {| trace := []; kindConfigPath := ""; kubeConfigPath := ""; portForwardContext := None |}.

Definition record (e : event) (st : state) : state :=
  {| trace := e :: trace st;
     kindConfigPath := kindConfigPath st;
     kubeConfigPath := kubeConfigPath st;
     portForwardContext := portForwardContext st |}.

(** How a call ends: it returns, or it is still inside a loop when the
    fuel given to it is used up, or it panics (a failed type
    assertion). *)
Inductive outcome (A : Type) :=
| Returned (a : A)
| Unfinished
| Panicked (msg : string).

Arguments Returned {A} a.
Arguments Unfinished {A}.
Arguments Panicked {A} msg.

Definition M (A : Type) : Type := state -> outcome A * state.

Definition ret {A} (a : A) : M A := fun st => (Returned a, st).

Definition bind {A B} (m : M A) (k : A -> M B) : M B :=
  fun st => match m st with
            | (Returned a, st') => k a st'
            | (Unfinished, st') => (Unfinished, st')
            | (Panicked msg, st') => (Panicked msg, st')
            end.

Definition unfinished {A} : M A := fun st => (Unfinished, st).

Definition panic {A} (msg : string) : M A := fun st => (Panicked msg, st).

Definition emit (e : event) : M unit := fun st => (Returned tt, record e st).

Definition log (l : level) (format : string) : M unit := emit (Log l format).

(** An external call: the world answers, knowing how many events came
    before, and the call is recorded. *)
Definition call {A} (o : op) (answer : nat -> A) : M A :=
  fun st => (Returned (answer (List.length (trace st))), record (Do o) st).

Definition get {A} (f : state -> A) : M A := fun st => (Returned (f st), st).

Definition set_kindConfigPath (v : string) : M unit :=
  fun st => (Returned tt, {| trace := trace st; kindConfigPath := v;
                         kubeConfigPath := kubeConfigPath st;
                         portForwardContext := portForwardContext st |}).

Definition set_kubeConfigPath (v : string) : M unit :=
  fun st => (Returned tt, {| trace := trace st; kindConfigPath := kindConfigPath st;
                         kubeConfigPath := v;
                         portForwardContext := portForwardContext st |}).

Definition set_portForwardContext (v : option kindPortForwardContext) : M unit :=
  fun st => (Returned tt, {| trace := trace st; kindConfigPath := kindConfigPath st;
                         kubeConfigPath := kubeConfigPath st;
                         portForwardContext := v |}).

Declare Scope go_scope.
Delimit Scope go_scope with go.
Notation "x <- m ;; k" := (bind m (fun x => k))
  (at level 61, m at next level, right associativity) : go_scope.
Notation "m ;; k" := (bind m (fun _ => k))
  (at level 61, right associativity) : go_scope.
Notation "' pat <- m ;; k" := (bind m (fun x => match x with pat => k end))
  (at level 61, pat pattern, m at next level, right associativity) : go_scope.
(** [if err != nil { return err }] *)
Notation "'check' e ;; k" :=
  (match e with Some err => ret (Some err) | None => k end)
  (at level 61, e at next level, right associativity) : go_scope.

Definition is_external (e : event) : bool :=
  match e with
  | Log _ _ => false
  | Do _ => true
  end.

(** ** The configuration ([internal/config], declarations only) *)

Record Wait := {
  wNamespace : string;
  wResource : string;
  wFor : string;
  wLabelSelector : string
}.

Record Step := {
  stepPath : string;
  stepCommand : string;
  stepWaits : list Wait
}.

Record KindExposePort := {
  Namespace : string;
  Resource : string;
  Port : string
}.

Record KindSetupConfig := {
  ImportImages : list string;
  ExposePorts : list KindExposePort
}.

(** [Steps] is a slice: [None] is the nil slice. *)
Record Setup := {
  File : string;
  InitSystemEnvironment : string;
  Steps : option (list Step);
  Timeout : Z;
  Kind : KindSetupConfig
}.

Record E2EConfig := { e2eSetup : Setup }.

(** ** The outside world *)

Inductive RuntimeObject :=
| ObjService (service : string)
| ObjOther (kind name : string).

Record Pod := { podNamespace : string; podName : string }.

Record ForwardedPort := { Local : Z; Remote : Z }.

(** docker [types.Port], [types.Container], [nat.PortBinding],
    [types.ContainerJSON], [network.IPAMConfig] and
    [types.NetworkResource], with the fields the code reads.  A Go map
    is kept as the list of its entries in the order [range] visits
    them. *)
Record DockerPort := { PrivatePort : Z; PublicPort : Z }.

Record Container := { ID : string; Ports : list DockerPort }.

Record PortBinding := { HostIP : string; HostPort : string }.

Record ContainerJSON := {
  NetworkMode : string;
  NetworkSettingsPorts : list (string * list PortBinding)
}.

Record IPAMConfig := { Gateway : string }.

Record NetworkResource := { Name : string; IPAM : list IPAMConfig }.

Record ExecInspect := { Running : bool; ExitCode : Z }.

(** What the two files take from the rest of the repository and from
    their libraries (constants and pure helpers), and the answer of
    every external call.  An answer may depend on the number of events
    that came before it, so the world can change while setup runs.
    [rangeOrder] is the order in which [range] visits the entries of
    a map, some permutation of them. *)
Record World := {
  (* declarations of the repository outside the two files *)
  GetFile : Setup -> string;
  ResolveAbs : string -> string;
  GetIdentity : string;
  K8sClusterConfigFilePath : string;
  DefaultWaitTimeout : Z;
  SingleDefaultWaitTimeout : Z;
  (* libraries and the runtime *)
  rangeOrder : forall A : Type, list (string * A) -> list (string * A);
  ReaperDefault : string;
  NewPort : string -> string -> string * option error;
  LookupContainerPortNumberByName : Pod -> string -> Z * option error;
  LookupServicePortNumberByName : string -> string -> Z * option error;
  LookupContainerPortNumberByServicePort : string -> Pod -> Z -> Z * option error;
  (* answers *)
  on_NewClientWithOpts : nat -> option error;
  on_Stat : nat -> string -> option error;
  on_NetworkList : nat -> list NetworkResource * option error;
  on_NetworkCreate : nat -> string -> option error;
  on_NetworkInspect : nat -> string -> NetworkResource * option error;
  on_NewLocalDockerCompose : nat -> list string -> list (string * GoValue);
  on_ComposeInvoke : nat -> list string -> option error;
  on_ContainerList : nat -> string -> list Container * option error;
  on_ContainerInspect : nat -> string -> ContainerJSON * option error;
  on_DialContext : nat -> string -> option error;
  on_ContainerExecCreate : nat -> string -> list string -> string * option error;
  on_ContainerExecStart : nat -> string -> option error;
  on_ContainerExecInspect : nat -> string -> ExecInspect * option error;
  on_Setenv : nat -> string -> string -> option error;
  on_RunStepsAndWait : nat -> option (list Step) -> Z -> bool -> option error;
  on_KindRun : nat -> list string -> option error;
  on_ExpandEnv : nat -> string -> string;
  on_ConnectToK8sCluster : nat -> string -> option error;
  on_ReadFile : nat -> string -> string * option error;
  on_ToRESTConfig : nat -> option error;
  on_RoundTripperFor : nat -> option error;
  on_RESTClientFor : nat -> option error;
  on_ResourceLookup : nat -> string -> string -> RuntimeObject * option error;
  on_AttachablePodForObject : nat -> RuntimeObject -> Z -> Pod * option error;
  on_PortforwardNew : nat -> list string -> option error;
  on_SelectReadyOrError : nat -> string -> string * option error;
  on_GetPorts : nat -> list ForwardedPort * option error;
  on_WaitFlagsToOptions : nat -> list string -> option error
}.

(** [time.Duration] is an [int64] of nanoseconds. *)
Definition wrap64 (z : Z) : Z := ((z + 2 ^ 63) mod 2 ^ 64 - 2 ^ 63)%Z.
Definition Second : Z := 1000000000.

Open Scope go_scope.

Section WithWorld.

Variable W : World.

(** ** kind.go *)

Record kindPort := {
  inputPort : string;
  realPort : Z;
  waitExpose : string
}.

(** kind.go, [exportKindEnv]. *)
Definition exportKindEnv (key value res : string) : M (option error) :=
  err <- call (Setenv key value) (fun t => on_Setenv W t key value) ;;
  match err with
  | Some e => ret (Some (Errorf "could not set env for %s, %v" [ArgStr res; ArgErr (Some e)]))
  | None => log Info "export %s=%s" ;; ret None
  end.

(** kind.go, [createKindCluster]. *)
Definition createKindCluster (kindConfigPath : string) : M (option error) :=
  set_kubeConfigPath (K8sClusterConfigFilePath W) ;;
  kubeConfigPath <- get kubeConfigPath ;;
  let args := ["create"; "cluster"; "--config"; kindConfigPath;
               "--kubeconfig"; kubeConfigPath] in
  log Info "creating kind cluster..." ;;
  log Debug "cluster create commands: %s %s" ;;
  err <- call (KindRun args) (fun t => on_KindRun W t args) ;;
  check err ;;
  log Info "create kind cluster succeeded" ;;
  err <- call (Setenv "KUBECONFIG" kubeConfigPath)
              (fun t => on_Setenv W t "KUBECONFIG" kubeConfigPath) ;;
  match err with
  | Some e => ret (Some (Errorf "could not export kubeconfig file path, %v" [ArgErr (Some e)]))
  | None => log Info "export KUBECONFIG=%s" ;; ret None
  end.

(** kind.go, [KindSetup]: the loop over [ImportImages]. *)
Fixpoint importImages (images : list string) : M (option error) :=
  match images with
  | [] => ret None
  | image :: rest =>
      image <- call (ExpandEnv image) (fun t => on_ExpandEnv W t image) ;;
      let args := ["load"; "docker-image"; image] in
      log Info "import docker images: %s" ;;
      err <- call (KindRun args) (fun t => on_KindRun W t args) ;;
      check err ;;
      importImages rest
  end.

(** kind.go, [buildKindPort]. *)
Definition buildKindPort (port : string) (ro : RuntimeObject) (pod : Pod)
  : option kindPort * option error :=
  let '(needExpose, remotePort) :=
    if Contains port ":"
    then (port, nth 1 (Split port ":") "")
    else (":" ++ port, port) in
  match ro with
  | ObjOther _ _ =>
      let '(remotePortInt, err) := Atoi remotePort in
      match err with
      | Some _ =>
          let '(containerPort, err) := LookupContainerPortNumberByName W pod remotePort in
          match err with
          | Some e => (None, Some e)
          | None =>
              (Some {| inputPort := remotePort; realPort := containerPort;
                       waitExpose := needExpose |}, None)
          end
      | None =>
          (Some {| inputPort := remotePort; realPort := remotePortInt;
                   waitExpose := needExpose |}, None)
      end
  | ObjService service =>
      let '(portnum64, err) := ParseInt10 "ParseInt" remotePort 32 in
      let resolved :=
        match err with
        | Some _ => LookupServicePortNumberByName W service remotePort
        | None => (portnum64, None)
        end in
      match resolved with
      | (_, Some err1) => (None, Some err1)
      | (portnum, None) =>
          let '(containerPort, err) :=
            LookupContainerPortNumberByServicePort W service pod portnum in
          match err with
          | Some e => (None, Some e)
          | None =>
              let realPort := containerPort in
              let needExpose :=
                if String.eqb (Itoa realPort) remotePort then needExpose
                else
                  let localPort :=
                    if Contains port ":" then nth 0 (Split port ":") "" else "" in
                  localPort ++ ":" ++ Itoa realPort in
              (Some {| inputPort := remotePort; realPort := realPort;
                       waitExpose := needExpose |}, None)
          end
      end
  end.

(** kind.go, [exposePerKindService]: the loop that fills
    [convertedPorts]. *)
Fixpoint buildKindPorts (ports : list string) (ro : RuntimeObject) (pod : Pod)
  : list kindPort * option error :=
  match ports with
  | [] => ([], None)
  | p :: rest =>
      match buildKindPort p ro pod with
      | (Some kp, None) =>
          let '(kps, err) := buildKindPorts rest ro pod in (kp :: kps, err)
      | (_, err) => ([], err)
      end
  end.

(** kind.go, [exposePerKindService]: the inner and the outer loop that
    publish [<resource>_<port>]. *)
Fixpoint exportMatching (resourceName res : string) (p : ForwardedPort)
  (convertedPorts : list kindPort) : M (option error) :=
  match convertedPorts with
  | [] => ret None
  | kp :: rest =>
      if (Remote p =? realPort kp)%Z
      then err1 <- exportKindEnv (resourceName ++ "_" ++ inputPort kp) (Itoa (Local p)) res ;;
           check err1 ;;
           exportMatching resourceName res p rest
      else exportMatching resourceName res p rest
  end.

Fixpoint exportForwarded (resourceName res : string) (exportedPorts : list ForwardedPort)
  (convertedPorts : list kindPort) : M (option error) :=
  match exportedPorts with
  | [] => ret None
  | p :: rest =>
      err1 <- exportMatching resourceName res p convertedPorts ;;
      check err1 ;;
      exportForwarded resourceName res rest convertedPorts
  end.

(** kind.go, [exposePerKindService].  [GoForwardPorts] is the [go]
    statement that starts the tunnel worker; [SelectReadyOrError] is
    the [select] on the ready channel and the error channel, and its
    answer says which of the two fired. *)
Definition exposePerKindService (port : KindExposePort) (timeout : Z)
  (forward : kindPortForwardContext) : M (option error) :=
  '(obj, err) <- call (ResourceLookup (Namespace port) (Resource port))
                      (fun t => on_ResourceLookup W t (Namespace port) (Resource port)) ;;
  check err ;;
  '(forwardablePod, err) <- call AttachablePodForObject
                                 (fun t => on_AttachablePodForObject W t obj timeout) ;;
  check err ;;
  let ports := Split (Port port) "," in
  let '(convertedPorts, err) := buildKindPorts ports obj forwardablePod in
  check err ;;
  let exposePorts := map waitExpose convertedPorts in
  err <- call (PortforwardNew exposePorts) (fun t => on_PortforwardNew W t exposePorts) ;;
  check err ;;
  call (GoForwardPorts (Resource port)) (fun _ => tt) ;;
  '(stderr, failed) <- call (SelectReadyOrError (Resource port))
                            (fun t => on_SelectReadyOrError W t (Resource port)) ;;
  match failed with
  | None =>
      '(exportedPorts, err1) <- call GetPorts (fun t => on_GetPorts W t) ;;
      check err1 ;;
      let resourceName := resourceName (Resource port) in
      err1 <- exportKindEnv (resourceName ++ "_host") "localhost" (Resource port) ;;
      check err1 ;;
      err1 <- exportForwarded resourceName (Resource port) exportedPorts convertedPorts ;;
      check err1 ;;
      ret None
  | Some err =>
      ret (Some (Errorf "create forward error, %s : %v" [ArgStr stderr; ArgErr (Some err)]))
  end.

(** kind.go, [exposeKindService]: the loop over [exports]. *)
Fixpoint exposeEach (exports : list KindExposePort) (waitTimeout : Z)
  (forwardContext : kindPortForwardContext) : M (option error) :=
  match exports with
  | [] => ret None
  | p :: rest =>
      err <- exposePerKindService p waitTimeout forwardContext ;;
      match err with
      | Some e => call CancelFunc (fun _ => tt) ;; ret (Some e)
      | None => exposeEach rest waitTimeout forwardContext
      end
  end.

(** kind.go, [exposeKindService]. *)
Definition exposeKindService (exports : list KindExposePort) (timeout : Z)
  (kubeConfig : string) : M (option error) :=
  '(kubeConfigYaml, err) <- call (ReadFile kubeConfig) (fun t => on_ReadFile W t kubeConfig) ;;
  check err ;;
  err <- call ToRESTConfig (on_ToRESTConfig W) ;;
  check err ;;
  err <- call RoundTripperFor (on_RoundTripperFor W) ;;
  check err ;;
  err <- call RESTClientFor (on_RESTClientFor W) ;;
  check err ;;
  let waitTimeout :=
    if (timeout <=? 0)%Z then DefaultWaitTimeout W else wrap64 (timeout * Second) in
  let forwardContext :=
    {| stopChannel := 1;
       resourceFinishedChannel := List.length exports;
       resourceCount := List.length exports |} in
  err <- exposeEach exports waitTimeout forwardContext ;;
  check err ;;
  set_portForwardContext (Some forwardContext) ;;
  ret None.

(** kind.go, [KindSetup]. *)
Definition KindSetup (e2eConfig : E2EConfig) : M (option error) :=
  set_kindConfigPath (GetFile W (e2eSetup e2eConfig)) ;;
  kindConfigPath <- get kindConfigPath ;;
  if String.eqb kindConfigPath ""
  then ret (Some (Errorf "no kind config file was provided" []))
  else
    let steps := Steps (e2eSetup e2eConfig) in
    match steps with
    | None => log Info "no steps is provided" ;; ret None
    | Some _ =>
        (if negb (String.eqb (InitSystemEnvironment (e2eSetup e2eConfig)) "")
         then let profilePath := ResolveAbs W (InitSystemEnvironment (e2eSetup e2eConfig)) in
              call (ExportEnvVars profilePath) (fun _ => tt)
         else ret tt) ;;
        err <- createKindCluster kindConfigPath ;;
        check err ;;
        err <- importImages (ImportImages (Kind (e2eSetup e2eConfig))) ;;
        check err ;;
        kubeConfigPath <- get kubeConfigPath ;;
        err <- call (ConnectToK8sCluster kubeConfigPath)
                    (fun t => on_ConnectToK8sCluster W t kubeConfigPath) ;;
        match err with
        | Some e =>
            log LError "connect to k8s cluster failed according to config file: %s" ;;
            ret (Some e)
        | None =>
            err <- call (RunStepsAndWait (Timeout (e2eSetup e2eConfig)) true)
                        (fun t => on_RunStepsAndWait W t (Steps (e2eSetup e2eConfig))
                                    (Timeout (e2eSetup e2eConfig)) true) ;;
            match err with
            | Some e => log LError "execute steps error: %v" ;; ret (Some e)
            | None =>
                err <- exposeKindService (ExposePorts (Kind (e2eSetup e2eConfig)))
                                         (Timeout (e2eSetup e2eConfig)) kubeConfigPath ;;
                match err with
                | Some e => log LError "export ports error: %v" ;; ret (Some e)
                | None => ret None
                end
            end
        end
    end.

(** kind.go, [KindShouldWaitSignal]. *)
Definition KindShouldWaitSignal (st : state) : bool :=
  match portForwardContext st with
  | Some c => (0 <? resourceCount c)%nat
  | None => false
  end.

(** [*ctlwait.WaitFlags] as [getWaitOptions] fills it. *)
Record WaitFlags := {
  flagTimeout : Z;
  flagForCondition : string;
  flagLabelSelector : option string;
  flagAll : option bool
}.

(** kind.go, [getWaitOptions]. *)
Definition getWaitOptions (kubeConfigYaml : string) (wait : Wait)
  : M (option WaitFlags * option error) :=
  if Contains (wResource wait) "/" && negb (String.eqb (wLabelSelector wait) "")
  then ret (None, Some (Errorf "when passing resource.group/resource.name in Resource, the labelSelector can not be set at the same time" []))
  else
    call OpenDevNull (fun _ => tt) ;;
    if negb (String.eqb (wResource wait) "")
    then
      let args := [wResource wait] in
      let waitFlags :=
        {| flagTimeout := SingleDefaultWaitTimeout W;
           flagForCondition := wFor wait;
           flagLabelSelector :=
             if negb (String.eqb (wLabelSelector wait) "")
             then Some (wLabelSelector wait) else None;
           flagAll :=
             if negb (String.eqb (wLabelSelector wait) "") then None
             else if negb (Contains (wResource wait) "/") then Some true else None |} in
      err <- call (WaitFlagsToOptions args) (fun t => on_WaitFlagsToOptions W t args) ;;
      match err with
      | Some e => ret (None, Some e)
      | None => ret (Some waitFlags, None)
      end
    else ret (None, Some (Errorf "resource must be provided in wait block" [])).

End WithWorld.

(** ** compose.go *)

(** [fmt.Sprintf("%04x", n)]. *)
Definition hex_digit (d : Z) : ascii :=
  if (d <? 10)%Z then ascii_of_nat (Z.to_nat (48 + d)) else ascii_of_nat (Z.to_nat (87 + d)).

Fixpoint hex_of_pos (fuel : nat) (n : Z) (acc : string) : string :=
  match fuel with
  | O => acc
  | S k =>
      let acc' := String (hex_digit (n mod 16)) acc in
      if (n <? 16)%Z then acc' else hex_of_pos k (n / 16) acc'
  end.

Fixpoint zeros (n : nat) : string :=
  match n with
  | O => EmptyString
  | S k => String "0" (zeros k)
  end.

Definition Hex04 (n : Z) : string :=
  if (n <? 0)%Z
  then let d := hex_of_pos (S (Z.to_nat (Z.log2 (- n)))) (- n) EmptyString in
       String "-" (zeros (3 - String.length d) ++ d)
  else let d := hex_of_pos (S (Z.to_nat (Z.log2 n))) n EmptyString in
       zeros (4 - String.length d) ++ d.

(** [net.JoinHostPort]. *)
Definition JoinHostPort (host port : string) : string :=
  if Contains host ":" then "[" ++ host ++ "]:" ++ port else host ++ ":" ++ port.

(** go-connections, [nat.SplitProtoPort], [Port.Proto], [Port.Port]. *)
Definition SplitProtoPort (rawPort : string) : string * string :=
  let parts := Split rawPort "/" in
  let l := List.length parts in
  if (String.length rawPort =? 0)%nat || (l =? 0)%nat
     || (String.length (nth 0 parts "") =? 0)%nat
  then ("", "")
  else if (l =? 1)%nat then ("tcp", rawPort)
  else if (String.length (nth 1 parts "") =? 0)%nat then ("tcp", nth 0 parts "")
  else (nth 1 parts "", nth 0 parts "").

Definition Proto (p : string) : string := fst (SplitProtoPort p).
Definition PortOf (p : string) : string := snd (SplitProtoPort p).

(** compose.go, [buildInternalCheckCommand]. *)
Definition buildInternalCheckCommand (internalPort : Z) : string :=
  "true && " ++ "(
					cat /proc/net/tcp* | awk '{print $2}' | grep -i :" ++ Hex04 internalPort ++ " ||
					nc -vz -w 1 localhost " ++ Itoa internalPort
  ++ " ||
					/bin/sh -c '</dev/tcp/localhost/" ++ Itoa internalPort ++ "'
				)
				".

(** compose.go, [hostPortCachedStrategy]: the expected port and the
    startup timeout of the embedded strategy. *)
Record hostPortCachedStrategy := {
  expectPort : Z;
  startupTimeout : Z
}.

(** Reading a key of a decoded YAML map; a missing key reads as nil. *)
Fixpoint map_index (m : list (GoValue * GoValue)) (key : string) : GoValue :=
  match m with
  | [] => VNil
  | (VString k, v) :: rest => if String.eqb k key then v else map_index rest key
  | _ :: rest => map_index rest key
  end.

(** compose.go, [bindWaitPort]: the loop over the port list of one
    service. *)
Fixpoint bindPortList (portList : list GoValue) (waitTimeout : Z)
  : list hostPortCachedStrategy * option error :=
  match portList with
  | [] => ([], None)
  | entry :: rest =>
      let '(exportPort, err) := getExpectPort entry in
      match err with
      | Some e => ([], Some e)
      | None =>
          let strategy := {| expectPort := exportPort; startupTimeout := waitTimeout |} in
          let '(more, err) := bindPortList rest waitTimeout in
          (strategy :: more, err)
      end
  end.

(** compose.go, [bindWaitPort]: the loop over [compose.Services].  The
    result map is the list of its entries; the services of a compose
    file are distinct keys. *)
Fixpoint bindServices (services : list (string * GoValue)) (waitTimeout : Z)
  : M (list (string * list hostPortCachedStrategy) * option error) :=
  match services with
  | [] => ret ([], None)
  | (service, content) :: rest =>
      match content with
      | VMap serviceConfig =>
          let ports := map_index serviceConfig "ports" in
          match ports with
          | VNil => bindServices rest waitTimeout
          | VSlice portList =>
              let '(strategies, err) := bindPortList portList waitTimeout in
              match err with
              | Some e => ret ([], Some e)
              | None =>
                  '(more, err) <- bindServices rest waitTimeout ;;
                  match err with
                  | Some e => ret ([], Some e)
                  | None => ret ((service, strategies) :: more, None)
                  end
              end
          | _ => panic "interface conversion: interface {} is not []interface {}"
          end
      | _ => panic "interface conversion: interface {} is not map[interface {}]interface {}"
      end
  end.

Section ComposeWithWorld.

Variable W : World.

(** compose.go, [exportComposeEnv]. *)
Definition exportComposeEnv (key value service : string) : M (option error) :=
  err <- call (Setenv key value) (fun t => on_Setenv W t key value) ;;
  match err with
  | Some e => ret (Some (Errorf "could not set env for %s, %v" [ArgStr service; ArgErr (Some e)]))
  | None => log Info "expose env : %s : %s" ;; ret None
  end.

(** compose.go, [bindWaitPort]; [services] is [compose.Services]. *)
Definition bindWaitPort (e2eConfig : E2EConfig) (services : list (string * GoValue))
  : M (list (string * list hostPortCachedStrategy) * option error) :=
  let timeout := Timeout (e2eSetup e2eConfig) in
  let waitTimeout :=
    if (timeout <=? 0)%Z then DefaultWaitTimeout W else wrap64 (timeout * Second) in
  bindServices services waitTimeout.

(** compose.go, [findContainer]. *)
Definition findContainer (instanceName : string) : M (option Container * option error) :=
  '(containers, err) <- call (ContainerList instanceName)
                             (fun t => on_ContainerList W t instanceName) ;;
  match err with
  | Some e => ret (None, Some e)
  | None =>
      match containers with
      | [] => ret (None, Some (Errorf "could not found container: %s" [ArgStr instanceName]))
      | c :: _ => ret (Some c, None)
      end
  end.

(** compose.go, [inAContainer]. *)
Definition inAContainer : M bool :=
  err <- call (Stat "/.dockerenv") (fun t => on_Stat W t "/.dockerenv") ;;
  match err with
  | None => ret true
  | Some _ => ret false
  end.

(** compose.go, [getDefaultNetwork]: the loop over the networks;
    [None] is the early return of ["bridge"]. *)
Fixpoint scanNetworks (networkResources : list NetworkResource) (reaperNetwork : string)
  (reaperNetworkExists : bool) : option bool :=
  match networkResources with
  | [] => Some reaperNetworkExists
  | net :: rest =>
      if String.eqb (Name net) "bridge" then None
      else if String.eqb (Name net) reaperNetwork
           then scanNetworks rest reaperNetwork true
           else scanNetworks rest reaperNetwork reaperNetworkExists
  end.

(** compose.go, [getDefaultNetwork]. *)
Definition getDefaultNetwork : M (string * option error) :=
  '(networkResources, err) <- call NetworkList (on_NetworkList W) ;;
  match err with
  | Some e => ret ("", Some e)
  | None =>
      let reaperNetwork := ReaperDefault W in
      match scanNetworks networkResources reaperNetwork false with
      | None => ret ("bridge", None)
      | Some reaperNetworkExists =>
          if negb reaperNetworkExists
          then err <- call (NetworkCreate reaperNetwork)
                           (fun t => on_NetworkCreate W t reaperNetwork) ;;
               match err with
               | Some e => ret ("", Some e)
               | None => ret (reaperNetwork, None)
               end
          else ret (reaperNetwork, None)
      end
  end.

(** compose.go, [GetNetwork]. *)
Definition GetNetwork (name : string) : M (NetworkResource * option error) :=
  '(networkResource, err) <- call (NetworkInspect name) (fun t => on_NetworkInspect W t name) ;;
  match err with
  | Some e => ret ({| Name := ""; IPAM := [] |}, Some e)
  | None => ret (networkResource, None)
  end.

(** compose.go, [getGatewayIP]: the loop over [nw.IPAM.Config]. *)
Fixpoint firstGateway (configs : list IPAMConfig) : string :=
  match configs with
  | [] => ""
  | config :: rest =>
      if negb (String.eqb (Gateway config) "") then Gateway config else firstGateway rest
  end.

(** compose.go, [getGatewayIP].  The error of [getDefaultNetwork] is
    overwritten by the next assignment. *)
Definition getGatewayIP : M (string * option error) :=
  '(network, _) <- getDefaultNetwork ;;
  '(nw, err) <- GetNetwork network ;;
  match err with
  | Some e => ret ("", Some e)
  | None =>
      let ip := firstGateway (IPAM nw) in
      if String.eqb ip ""
      then ret ("", Some (Errorf "Failed to get gateway IP from network settings" []))
      else ret (ip, None)
  end.

(** compose.go, [inspectContainer]. *)
Definition inspectContainer (container : Container) : M (option ContainerJSON * option error) :=
  '(inspect, err) <- call (ContainerInspect (ID container))
                          (fun t => on_ContainerInspect W t (ID container)) ;;
  match err with
  | Some e => ret (None, Some e)
  | None => ret (Some inspect, None)
  end.

(** compose.go, [Ports]; a nil map is the empty list. *)
Definition PortsOf (container : Container) : M (list (string * list PortBinding) * option error) :=
  '(inspect, err) <- inspectContainer container ;;
  match inspect, err with
  | Some i, None => ret (NetworkSettingsPorts i, None)
  | _, _ => ret ([], err)
  end.

(** compose.go, [MappedPort]: the loop over the port map. *)
Fixpoint findMapped (ports : list (string * list PortBinding)) (port : string)
  : option (string * option error) :=
  match ports with
  | [] => None
  | (k, p) :: rest =>
      if negb (String.eqb (PortOf k) (PortOf port)) then findMapped rest port
      else if negb (String.eqb (Proto port) "") && negb (String.eqb (Proto k) (Proto port))
           then findMapped rest port
           else match p with
                | [] => findMapped rest port
                | p0 :: _ => Some (NewPort W (Proto k) (HostPort p0))
                end
  end.

(** compose.go, [MappedPort]: the port, the network mode, the error. *)
Definition MappedPort (container : Container) (port : string)
  : M (string * string * option error) :=
  '(inspect, err) <- inspectContainer container ;;
  match inspect, err with
  | Some inspect, None =>
      if String.eqb (NetworkMode inspect) "host"
      then ret (port, NetworkMode inspect, None)
      else
        '(ports, err) <- PortsOf container ;;
        match err with
        | Some e => ret ("", NetworkMode inspect, Some e)
        | None =>
            match findMapped ports port with
            | Some (newPort, err) => ret (newPort, NetworkMode inspect, err)
            | None => ret ("", NetworkMode inspect, Some (Errorf "port not found" []))
            end
        end
  | _, _ => ret ("", "", err)
  end.

(** compose.go, [Exec]: the loop that polls [ContainerExecInspect]. *)
Fixpoint pollExec (fuel : nat) (execID : string) : M (Z * option error) :=
  match fuel with
  | O => unfinished
  | S k =>
      '(execResp, err) <- call (ContainerExecInspect execID)
                               (fun t => on_ContainerExecInspect W t execID) ;;
      match err with
      | Some e => ret (0%Z, Some e)
      | None =>
          if negb (Running execResp) then ret (ExitCode execResp, None)
          else call (Sleep 100) (fun _ => tt) ;; pollExec k execID
      end
  end.

(** compose.go, [Exec]. *)
Definition Exec (fuel : nat) (c : Container) (cmd : list string) : M (Z * option error) :=
  '(responseID, err) <- call (ContainerExecCreate (ID c) cmd)
                             (fun t => on_ContainerExecCreate W t (ID c) cmd) ;;
  match err with
  | Some e => ret (0%Z, Some e)
  | None =>
      err <- call (ContainerExecStart responseID)
                  (fun t => on_ContainerExecStart W t responseID) ;;
      match err with
      | Some e => ret (0%Z, Some e)
      | None => pollExec fuel responseID
      end
  end.

(** compose.go, [ComposeSetup]: the external check, a loop without a
    bound that dials until the connection is made. *)
Fixpoint externalCheck (fuel : nat) (address : string) : M unit :=
  match fuel with
  | O => unfinished
  | S k =>
      log Info "[print]trying to connect to %s" ;;
      err <- call (DialContext "tcp" address) (fun t => on_DialContext W t address) ;;
      match err with
      | Some _ =>
          log LError "[print]connect error: %v" ;;
          call (Sleep 2000) (fun _ => tt) ;;
          externalCheck k address
      | None =>
          call ConnClose (fun _ => tt) ;;
          log Info "[print]connect success to %s" ;;
          ret tt
      end
  end.

(** compose.go, [ComposeSetup]: the internal check, a loop that runs
    the probe command in the container. *)
Fixpoint internalCheck (fuel pollFuel : nat) (container : Container) (command : string)
  : M (option error) :=
  match fuel with
  | O => unfinished
  | S k =>
      '(exitCode, err) <- Exec pollFuel container ["/bin/sh"; "-c"; command] ;;
      match err with
      | Some e => ret (Some (Errorf "host port waiting failed: %v" [ArgErr (Some e)]))
      | None =>
          if (exitCode =? 0)%Z then ret None
          else if (exitCode =? 126)%Z
               then ret (Some (Errorf "/bin/sh command not executable" []))
               else internalCheck k pollFuel container command
      end
  end.

(** compose.go, [ComposeSetup]: the two loops that only log the port
    map. *)
Fixpoint logBindings (bindings : list PortBinding) : M unit :=
  match bindings with
  | [] => ret tt
  | _ :: rest => log Info "[print] ---host: %s, port: %s" ;; logBindings rest
  end.

Fixpoint logPorts (ports : list (string * list PortBinding)) : M unit :=
  match ports with
  | [] => ret tt
  | (_, bindings) :: rest =>
      log Info "[print]ports list to %s, protocol: %s, port: %d, count of bind: %d" ;;
      logBindings bindings ;;
      logPorts rest
  end.

(** compose.go, [ComposeSetup]: the loop over [containerPorts] for one
    expected port.  The result is [Some] when [ComposeSetup] returns
    from inside the loop. *)
Fixpoint resolvePort (fuel : nat) (ip service : string) (container : Container)
  (expect : hostPortCachedStrategy) (containerPorts : list DockerPort) : M (option error) :=
  match containerPorts with
  | [] => ret None
  | containerPort :: rest =>
      if negb (PrivatePort containerPort =? expectPort expect)%Z
      then resolvePort fuel ip service container expect rest
      else
        MappedPort container (Itoa (expectPort expect) ++ "/tcp") ;;
        log Info "[print]find mapped service: %s, expectPort: %d, protocol: %s, port: %s, netmode: %s, error: %v" ;;
        let address := JoinHostPort ip (Itoa (PublicPort containerPort)) in
        externalCheck fuel address ;;
        let command := buildInternalCheckCommand (PrivatePort containerPort) in
        err <- internalCheck fuel fuel container command ;;
        check err ;;
        log Info "[print]connect success to internal port: %d" ;;
        err2 <- exportComposeEnv (service ++ "_" ++ Itoa (PrivatePort containerPort))
                                 (Itoa (PublicPort containerPort)) service ;;
        check err2 ;;
        ret None
  end.

(** compose.go, [ComposeSetup]: the loop over [portList]. *)
Fixpoint resolvePorts (fuel : nat) (ip service : string) (container : Container)
  (portList : list hostPortCachedStrategy) : M (option error) :=
  match portList with
  | [] => ret None
  | expect :: rest =>
      err <- resolvePort fuel ip service container expect (Ports container) ;;
      check err ;;
      resolvePorts fuel ip service container rest
  end.

(** The name [ComposeSetup] looks a container up by. *)
Definition instanceNameOf (identifier service : string) : string :=
  identifier ++ "_" ++ getInstanceName service.

(** compose.go, [ComposeSetup]: the loop over [serviceWithPorts]. *)
Fixpoint resolveServices (fuel : nat) (ip identifier : string)
  (serviceWithPorts : list (string * list hostPortCachedStrategy)) : M (option error) :=
  match serviceWithPorts with
  | [] => ret None
  | (service, portList) :: rest =>
      '(container, err2) <- findContainer (instanceNameOf identifier service) ;;
      match container, err2 with
      | Some container, None =>
          match portList with
          | [] => resolveServices fuel ip identifier rest
          | _ :: _ =>
              let host := ip in
              err2 <- exportComposeEnv (service ++ "_host") host service ;;
              check err2 ;;
              '(ports, _) <- PortsOf container ;;
              logPorts ports ;;
              err <- resolvePorts fuel ip service container portList ;;
              check err ;;
              resolveServices fuel ip identifier rest
          end
      | _, _ => ret err2
      end
  end.

(** compose.go, [ComposeSetup].  [fuel] bounds each of its loops that
    has no bound of its own. *)
Definition ComposeSetup (fuel : nat) (e2eConfig : E2EConfig) : M (option error) :=
  let composeConfigPath := GetFile W (e2eSetup e2eConfig) in
  if String.eqb composeConfigPath ""
  then ret (Some (Errorf "no compose config file was provided" []))
  else
    err <- call NewClientWithOpts (on_NewClientWithOpts W) ;;
    check err ;;
    log Info "[print]current docker daemon host: %s" ;;
    inAContainer ;;
    log Info "[print]in a container: %b" ;;
    '(network, _) <- getDefaultNetwork ;;
    log Info "[print]docker default network name: %s" ;;
    '(ip, _) <- getGatewayIP ;;
    log Info "[print]gateway ip: %s" ;;
    let composeFilePaths := [composeConfigPath] in
    let identifier := GetIdentity W in
    services <- call (NewLocalDockerCompose composeFilePaths identifier)
                     (fun t => on_NewLocalDockerCompose W t composeFilePaths) ;;
    '(serviceWithPorts, err) <- bindWaitPort e2eConfig services ;;
    match err with
    | Some e => ret (Some (Errorf "bind wait ports error: %v" [ArgErr (Some e)]))
    | None =>
        execError <- call (ComposeInvoke ["up"; "-d"])
                          (fun t => on_ComposeInvoke W t ["up"; "-d"]) ;;
        check execError ;;
        err <- resolveServices fuel ip identifier (rangeOrder W _ serviceWithPorts) ;;
        check err ;;
        err <- call (RunStepsAndWait (Timeout (e2eSetup e2eConfig)) false)
                    (fun t => on_RunStepsAndWait W t (Steps (e2eSetup e2eConfig))
                                (Timeout (e2eSetup e2eConfig)) false) ;;
        match err with
        | Some e => log LError "execute steps error: %v" ;; ret (Some e)
        | None => ret None
        end
    end.

End ComposeWithWorld.

(** ** kind.go: the tunnel workers and [KindCleanNotify], interleaved *)

Module Teardown.

(** Where a tunnel worker (the goroutine of [exposePerKindService])
    stands: inside [forwarder.ForwardPorts()]; about to send the error
    it returned on its own [forwardErrorChannel] (capacity 1, one
    sender, so the send never waits); about to send on
    [resourceFinishedChannel]; gone. *)
Inductive worker :=
| Forwarding
| SendingError
| Acknowledging (failed : bool)
| Exited (failed : bool).

(** Where the call of [KindCleanNotify] stands: not made yet; at the
    send on [stopChannel]; at the head of the loop with counter [i];
    returned. *)
Inductive notifier :=
| NotCalled
| AtStop
| AtLoop (i : nat)
| Left.

(** The package variable [portForwardContext], the capacity of the
    [resourceFinishedChannel] the workers hold, the workers, the number
    of values waiting in each of the two channels, the notifier, and
    two counters of what the notifier has done. *)
Record system := {
  context : option kindPortForwardContext;
  finishedCap : nat;
  workers : list worker;
  stopBuffered : nat;
  finishedBuffered : nat;
  notify : notifier;
  stopsSent : nat;
  acksReceived : nat
}.

(** The atomic steps.  Of worker [i]: [ForwardPorts] takes the value
    out of [stopChannel] and returns nil; it returns nil because the
    connection to the pod is lost; it returns an error; the worker
    sends that error on [forwardErrorChannel]; the worker sends on
    [resourceFinishedChannel].  Of [KindCleanNotify]: the test
    [portForwardContext != nil]; the send on [stopChannel]; one
    receive from [resourceFinishedChannel] in the loop; the exit from
    the loop when [i < resourceCount] fails. *)
Inductive action :=
| WorkerStops (i : nat)
| WorkerLosesConnection (i : nat)
| WorkerFails (i : nat)
| WorkerSendsError (i : nat)
| WorkerAcknowledges (i : nat)
| NotifyEnters
| NotifySendsStop
| NotifyReceives
| NotifyLeaves.

Fixpoint set_nth {A} (i : nat) (x : A) (l : list A) : list A :=
  match l, i with
  | [], _ => []
  | _ :: t, O => x :: t
  | h :: t, S j => h :: set_nth j x t
  end.

Definition with_worker (s : system) (i : nat) (w : worker) : system :=
  {| context := context s; finishedCap := finishedCap s;
     workers := set_nth i w (workers s);
     stopBuffered := stopBuffered s; finishedBuffered := finishedBuffered s;
     notify := notify s; stopsSent := stopsSent s; acksReceived := acksReceived s |}.

Definition with_notify (s : system) (n : notifier) : system :=
  {| context := context s; finishedCap := finishedCap s; workers := workers s;
     stopBuffered := stopBuffered s; finishedBuffered := finishedBuffered s;
     notify := n; stopsSent := stopsSent s; acksReceived := acksReceived s |}.

(** One atomic step of one goroutine; [None] when the step is not
    enabled (a send on a full channel and a receive on an empty one
    wait). *)
Definition step (a : action) (s : system) : option system :=
  match a with
  | WorkerStops i =>
      match nth_error (workers s) i, stopBuffered s with
      | Some Forwarding, S k =>
          Some {| context := context s; finishedCap := finishedCap s;
                  workers := set_nth i (Acknowledging false) (workers s);
                  stopBuffered := k; finishedBuffered := finishedBuffered s;
                  notify := notify s; stopsSent := stopsSent s;
                  acksReceived := acksReceived s |}
      | _, _ => None
      end
  | WorkerLosesConnection i =>
      match nth_error (workers s) i with
      | Some Forwarding => Some (with_worker s i (Acknowledging false))
      | _ => None
      end
  | WorkerFails i =>
      match nth_error (workers s) i with
      | Some Forwarding => Some (with_worker s i SendingError)
      | _ => None
      end
  | WorkerSendsError i =>
      match nth_error (workers s) i with
      | Some SendingError => Some (with_worker s i (Acknowledging true))
      | _ => None
      end
  | WorkerAcknowledges i =>
      match nth_error (workers s) i with
      | Some (Acknowledging failed) =>
          if (finishedBuffered s <? finishedCap s)%nat
          then Some {| context := context s; finishedCap := finishedCap s;
                       workers := set_nth i (Exited failed) (workers s);
                       stopBuffered := stopBuffered s;
                       finishedBuffered := S (finishedBuffered s);
                       notify := notify s; stopsSent := stopsSent s;
                       acksReceived := acksReceived s |}
          else None
      | _ => None
      end
  | NotifyEnters =>
      match notify s with
      | NotCalled =>
          match context s with
          | Some _ => Some (with_notify s AtStop)
          | None => Some (with_notify s Left)
          end
      | _ => None
      end
  | NotifySendsStop =>
      match notify s, context s with
      | AtStop, Some c =>
          if (stopBuffered s <? stopChannel c)%nat
          then Some {| context := context s; finishedCap := finishedCap s;
                       workers := workers s;
                       stopBuffered := S (stopBuffered s);
                       finishedBuffered := finishedBuffered s;
                       notify := AtLoop 0; stopsSent := S (stopsSent s);
                       acksReceived := acksReceived s |}
          else None
      | _, _ => None
      end
  | NotifyReceives =>
      match notify s, context s, finishedBuffered s with
      | AtLoop i, Some c, S k =>
          if (i <? resourceCount c)%nat
          then Some {| context := context s; finishedCap := finishedCap s;
                       workers := workers s;
                       stopBuffered := stopBuffered s;
                       finishedBuffered := k;
                       notify := AtLoop (S i); stopsSent := stopsSent s;
                       acksReceived := S (acksReceived s) |}
          else None
      | _, _, _ => None
      end
  | NotifyLeaves =>
      match notify s, context s with
      | AtLoop i, Some c =>
          if (i <? resourceCount c)%nat then None else Some (with_notify s Left)
      | _, _ => None
      end
  end.

(** A schedule is a list of steps, taken in order. *)
Fixpoint run (schedule : list action) (s : system) : option system :=
  match schedule with
  | [] => Some s
  | a :: rest =>
      match step a s with
      | Some s' => run rest s'
      | None => None
      end
  end.

(** The tunnel workers started so far: the [go] statements in the
    trace. *)
Fixpoint spawned (tr : list event) : nat :=
  match tr with
  | [] => O
  | Do (GoForwardPorts _) :: rest => S (spawned rest)
  | _ :: rest => spawned rest
  end.

(** The system when [exposeKindService] has run from [before] to
    [after]: the workers it started, all forwarding, the channels it
    made, empty, and the package variable as it left it. *)
Definition launched (exports : list KindExposePort) (before after : state) : system :=
  {| context := portForwardContext after;
     finishedCap := List.length exports;
     workers := repeat Forwarding (spawned (trace after) - spawned (trace before));
     stopBuffered := 0; finishedBuffered := 0;
     notify := NotCalled; stopsSent := 0; acksReceived := 0 |}.

Definition exited (w : worker) : bool :=
  match w with
  | Exited _ => true
  | _ => false
  end.

End Teardown.

(** ** Worlds and configurations to run the model on *)

Definition bridge_network : NetworkResource :=
  {| Name := "bridge"; IPAM := [{| Gateway := "" |}; {| Gateway := "172.17.0.1" |}] |}.

(** The entry of the inspected port map for an entry of the port
    table. *)
Definition published (p : DockerPort) : string * list PortBinding :=
  (Itoa (PrivatePort p) ++ "/tcp",
   [{| HostIP := "0.0.0.0"; HostPort := Itoa (PublicPort p) |}]).

(** A world in which every call succeeds, except as the arguments
    say: the answer of [NetworkList], the containers that
    [ContainerList] finds (the first of them is the one inspected,
    and it publishes its port table), the outcome of each dial and the exit code of each exec
    (both by the number of events before the call).  The stack has
    one service, [es], which declares the port ["32001:9200"]. *)
Definition world_of
  (networks : list NetworkResource * option error)
  (containers : list Container)
  (dial : nat -> option error)
  (exitCode : nat -> Z) : World :=
  {| GetFile := File;
     ResolveAbs := fun p => p;
     GetIdentity := "e2e";
     K8sClusterConfigFilePath := "/tmp/e2e-k8s.config";
     DefaultWaitTimeout := 600 * Second;
     SingleDefaultWaitTimeout := 1800 * Second;
     rangeOrder := fun _ l => l;
     ReaperDefault := "reaper_default";
     NewPort := fun proto port => (port ++ "/" ++ proto, None);
     LookupContainerPortNumberByName := fun _ _ => (0%Z, Some (ErrExternal "no such port"));
     LookupServicePortNumberByName := fun _ _ => (0%Z, Some (ErrExternal "no such port"));
     LookupContainerPortNumberByServicePort := fun _ _ n => (n, None);
     on_NewClientWithOpts := fun _ => None;
     on_Stat := fun _ _ => Some (ErrExternal "no such file");
     on_NetworkList := fun _ => networks;
     on_NetworkCreate := fun _ _ => None;
     on_NetworkInspect := fun _ name =>
       if String.eqb name "bridge" then (bridge_network, None)
       else ({| Name := name; IPAM := [] |}, Some (ErrExternal "network not found"));
     on_NewLocalDockerCompose := fun _ _ =>
       [("es", VMap [(VString "image", VString "elasticsearch");
                     (VString "ports", VSlice [VString "32001:9200"])])];
     on_ComposeInvoke := fun _ _ => None;
     on_ContainerList := fun _ _ => (containers, None);
     on_ContainerInspect := fun _ _ =>
       match containers with
       | c :: _ => ({| NetworkMode := "default";
                       NetworkSettingsPorts := map published (Ports c) |}, None)
       | [] => ({| NetworkMode := ""; NetworkSettingsPorts := [] |},
                Some (ErrExternal "No such container"))
       end;
     on_DialContext := fun t _ => dial t;
     on_ContainerExecCreate := fun _ _ _ => ("exec-1", None);
     on_ContainerExecStart := fun _ _ => None;
     on_ContainerExecInspect := fun t _ => ({| Running := false; ExitCode := exitCode t |}, None);
     on_Setenv := fun _ _ _ => None;
     on_RunStepsAndWait := fun _ _ _ _ => None;
     on_KindRun := fun _ _ => None;
     on_ExpandEnv := fun _ s => s;
     on_ConnectToK8sCluster := fun _ _ => None;
     on_ReadFile := fun _ _ => ("apiVersion: v1", None);
     on_ToRESTConfig := fun _ => None;
     on_RoundTripperFor := fun _ => None;
     on_RESTClientFor := fun _ => None;
     on_ResourceLookup := fun _ _ resource => (ObjOther "Pod" resource, None);
     on_AttachablePodForObject := fun _ _ _ =>
       ({| podNamespace := "default"; podName := "pod-0" |}, None);
     on_PortforwardNew := fun _ _ => None;
     on_SelectReadyOrError := fun _ _ => ("", None);
     on_GetPorts := fun _ => ([{| Local := 40123; Remote := 8080 |}], None);
     on_WaitFlagsToOptions := fun _ _ => None |}.

Definition es_container : Container :=
  {| ID := "c0ffee"; Ports := [{| PrivatePort := 9200; PublicPort := 32001 |}] |}.

Definition calm : World :=
  world_of ([bridge_network], None) [es_container] (fun _ => None) (fun _ => 0%Z).

Definition config_of (file : string) (steps : option (list Step)) (timeout : Z)
  (exports : list KindExposePort) : E2EConfig :=
  {| e2eSetup := {| File := file; InitSystemEnvironment := "";
                    Steps := steps; Timeout := timeout;
                    Kind := {| ImportImages := []; ExposePorts := exports |} |} |}.

(** The keys of the environment variables set in a trace, and the
    calls of a given kind it holds. *)
Fixpoint env_keys (tr : list event) : list string :=
  match tr with
  | [] => []
  | Do (Setenv k _) :: rest => k :: env_keys rest
  | _ :: rest => env_keys rest
  end.

Definition is_dial (e : event) : bool :=
  match e with Do (DialContext _ _) => true | _ => false end.

Definition is_exec (e : event) : bool :=
  match e with Do (ContainerExecCreate _ _) => true | _ => false end.

Definition is_compose_up (e : event) : bool :=
  match e with Do (ComposeInvoke _) => true | _ => false end.

Definition count (p : event -> bool) (tr : list event) : nat :=
  List.length (filter p tr).

(** The time spent in [time.Sleep], in milliseconds. *)
Fixpoint slept (tr : list event) : Z :=
  match tr with
  | [] => 0%Z
  | Do (Sleep ms) :: rest => (ms + slept rest)%Z
  | _ :: rest => slept rest
  end.

Definition exclusive_selectors : error :=
  Errorf "when passing resource.group/resource.name in Resource, the labelSelector can not be set at the same time" [].

(** The exec probe run over and over from [st]: the exit codes it
    gives, one per run, and the state after the last of them. *)
Inductive exec_run (W : World) (pollFuel : nat) (container : Container) (command : string)
  : state -> list Z -> state -> Prop :=
| exec_run_nil st : exec_run W pollFuel container command st [] st
| exec_run_cons st exitCode st1 codes st2 :
    Exec W pollFuel container ["/bin/sh"; "-c"; command] st = (Returned (exitCode, None), st1) ->
    exec_run W pollFuel container command st1 codes st2 ->
    exec_run W pollFuel container command st (exitCode :: codes) st2.

Definition retried (exitCode : Z) : Prop := exitCode <> 0%Z /\ exitCode <> 126%Z.

(** The exit code of the exec that is inspected at time [t]: [first]
    before [t0], [later] from then on. *)
Definition exit_codes (first : Z) (t0 : nat) (later : Z) (t : nat) : Z :=
  if (t <? t0)%nat then first else later.

(** The state after one refused dial of the external check. *)
Definition after_refusal (address : string) (st : state) : state :=
  record (Do (Sleep 2000))
    (record (Log LError "[print]connect error: %v")
       (record (Do (DialContext "tcp" address))
          (record (Log Info "[print]trying to connect to %s") st))).

(** Worlds for the probes: the exec exits with 126; with 1 and then
    with 0; the dial is refused twice (at times 1 and 5) and then
    accepted; no container is found. *)
Definition exits_126 : World :=
  world_of ([bridge_network], None) [] (fun _ => None) (fun _ => 126%Z).

Definition exits_1_then_0 : World :=
  world_of ([bridge_network], None) [] (fun _ => None) (exit_codes 1 3 0).

Definition refuses_twice : World :=
  world_of ([bridge_network], None) []
           (fun t => if (t <? 9)%nat then Some (ErrExternal "connection refused") else None)
           (fun _ => 0%Z).

Definition no_containers : World :=
  world_of ([bridge_network], None) [] (fun _ => None) (fun _ => 0%Z).

(** [m] only adds events to the trace, and every environment key among
    them satisfies [P]. *)
Definition adds_keys (P : string -> Prop) {A} (m : M A) : Prop :=
  forall st, exists evs,
    trace (snd (m st)) = (evs ++ trace st)%list /\ Forall P (env_keys evs).

(** [m] starts no tunnel worker and leaves the port-forward context
    alone; [m] does the latter and, when it returns a nil error, has
    started [n] workers. *)
Definition quiet {A} (m : M A) : Prop :=
  forall st,
    portForwardContext (snd (m st)) = portForwardContext st /\
    Teardown.spawned (trace (snd (m st))) = Teardown.spawned (trace st).

Definition spawns (n : nat) (m : M (option error)) : Prop :=
  forall st,
    portForwardContext (snd (m st)) = portForwardContext st /\
    (fst (m st) = Returned None ->
     Teardown.spawned (trace (snd (m st))) = (Teardown.spawned (trace st) + n)%nat).

(** What holds of the workers and the notifier at every moment, for
    the context [ctx] and [n] workers. *)
Definition drain_invariant (ctx : option kindPortForwardContext) (n : nat)
  (s : Teardown.system) : Prop :=
  Teardown.context s = ctx /\
  List.length (Teardown.workers s) = n /\
  List.length (filter Teardown.exited (Teardown.workers s))
    = (Teardown.finishedBuffered s + Teardown.acksReceived s)%nat /\
  match Teardown.notify s with
  | Teardown.NotCalled | Teardown.AtStop =>
      Teardown.acksReceived s = 0%nat /\ Teardown.stopsSent s = 0%nat
  | Teardown.AtLoop i =>
      Teardown.acksReceived s = i /\ Teardown.stopsSent s = 1%nat /\
      (forall c, ctx = Some c -> (i <= resourceCount c)%nat)
  | Teardown.Left =>
      match ctx with
      | None => Teardown.acksReceived s = 0%nat /\ Teardown.stopsSent s = 0%nat
      | Some c => Teardown.acksReceived s = resourceCount c /\ Teardown.stopsSent s = 1%nat
      end
  end.

(** Three exposures, and a schedule in which the first worker takes
    the stop signal, the second fails and the third loses its
    connection, before the notifier has drained them. *)
Definition three_exports : list KindExposePort :=
  [{| Namespace := "default"; Resource := "app/my-service"; Port := "8080" |};
   {| Namespace := "default"; Resource := "pod/oap-0"; Port := "12800:8080" |};
   {| Namespace := "default"; Resource := "svc/ui"; Port := "8080" |}].

Definition one_fails : list Teardown.action :=
  [Teardown.WorkerFails 1; Teardown.NotifyEnters; Teardown.WorkerSendsError 1;
   Teardown.NotifySendsStop; Teardown.WorkerAcknowledges 1; Teardown.NotifyReceives;
   Teardown.WorkerStops 0; Teardown.WorkerLosesConnection 2;
   Teardown.WorkerAcknowledges 2; Teardown.WorkerAcknowledges 0;
   Teardown.NotifyReceives; Teardown.NotifyReceives; Teardown.NotifyLeaves].

(** A world in which nothing ever listens on the published port. *)
Definition refusing : World :=
  world_of ([bridge_network], None) [es_container]
           (fun _ => Some (ErrExternal "connection refused")) (fun _ => 0%Z).

(** A world whose container publishes port 9300 only, while the stack
    declares 9200; and a world whose runtime cannot list its
    networks. *)
Definition other_port : World :=
  world_of ([bridge_network], None)
           [{| ID := "c0ffee"; Ports := [{| PrivatePort := 9300; PublicPort := 32002 |}] |}]
           (fun _ => None) (fun _ => 0%Z).

Definition no_networks : World :=
  world_of ([], Some (ErrExternal "Cannot connect to the Docker daemon"))
           [es_container] (fun _ => None) (fun _ => 0%Z).

Definition compose_config : E2EConfig := config_of "docker-compose.yml" (Some []) 600 [].

(** ** Vocabulary of the statements *)

(** The language of a pattern, as a relation: the reference against
    which the derivative matcher is checked. *)
Inductive lang : regex -> string -> Prop :=
| LEps : lang Eps EmptyString
| LChr c : lang (Chr c) (String c EmptyString)
| LDot c : c <> newline -> lang Dot (String c EmptyString)
| LAny c : lang AnyByte (String c EmptyString)
| LRange lo hi c : in_range lo hi c = true -> lang (Range lo hi) (String c EmptyString)
| LCat r1 r2 s1 s2 : lang r1 s1 -> lang r2 s2 -> lang (Cat r1 r2) (s1 ++ s2)
| LAltL r1 r2 s : lang r1 s -> lang (Alt r1 r2) s
| LAltR r1 r2 s : lang r2 s -> lang (Alt r1 r2) s
| LStar0 r : lang (Star r) EmptyString
| LStarS r s1 s2 : lang r s1 -> lang (Star r) s2 -> lang (Star r) (s1 ++ s2).

(** An underscore directly followed by a decimal digit, somewhere. *)
Fixpoint has_underscore_digit (s : string) : bool :=
  match s with
  | EmptyString => false
  | String c s' =>
      (Ascii.eqb c "_" && match s' with
                          | String d _ => is_digit d
                          | EmptyString => false
                          end)
      || has_underscore_digit s'
  end.

(** Byte-wise image of a string. *)
Fixpoint map_string (f : ascii -> ascii) (s : string) : string :=
  match s with
  | EmptyString => EmptyString
  | String c s' => String (f c) (map_string f s')
  end.

Definition sanitize_byte (c : ascii) : ascii :=
  if Ascii.eqb c "/" || Ascii.eqb c "-" then "_"%char else c.

(** [c] does not occur in [s]. *)
Fixpoint free_of (c : ascii) (s : string) : bool :=
  match s with
  | EmptyString => true
  | String d s' => negb (Ascii.eqb d c) && free_of c s'
  end.

(** ** Further vocabulary: networks *)

Definition is_bridge (net : NetworkResource) : bool := String.eqb (Name net) "bridge".

Definition is_named (name : string) (net : NetworkResource) : bool :=
  String.eqb (Name net) name.

Definition reaper_network : NetworkResource :=
  {| Name := "reaper_default"; IPAM := [{| Gateway := "172.18.0.1" |}] |}.

(** What [getGatewayIP] makes of the answer of the inspection. *)
Definition gateway_of (inspected : NetworkResource * option error) : string * option error :=
  match inspected with
  | (_, Some e) => ("", Some e)
  | (nw, None) =>
      if String.eqb (firstGateway (IPAM nw)) ""
      then ("", Some (Errorf "Failed to get gateway IP from network settings" []))
      else (firstGateway (IPAM nw), None)
  end.

(** ** Further vocabulary: the plan of the ports *)

Definition parses (entry : GoValue) : bool :=
  match snd (getExpectPort entry) with
  | None => true
  | Some _ => false
  end.

Definition strategy_of (waitTimeout : Z) (entry : GoValue) : hostPortCachedStrategy :=
  {| expectPort := fst (getExpectPort entry); startupTimeout := waitTimeout |}.

(** The ports of a service definition: the list under the key
    ["ports"], if the definition is a mapping and has one. *)
Definition ports_of (content : GoValue) : option (list GoValue) :=
  match content with
  | VMap serviceConfig =>
      match map_index serviceConfig "ports" with
      | VSlice portList => Some portList
      | _ => None
      end
  | _ => None
  end.

Definition has_ports (service : string * GoValue) : bool :=
  match ports_of (snd service) with
  | Some _ => true
  | None => false
  end.

Definition planned (waitTimeout : Z) (service : string * GoValue)
  : string * list hostPortCachedStrategy :=
  (fst service,
   match ports_of (snd service) with
   | Some portList => map (strategy_of waitTimeout) portList
   | None => []
   end).

(** A service definition that [bindWaitPort] cannot read: not a
    mapping, or a mapping whose ["ports"] is neither nil nor a list. *)
Definition unreadable (content : GoValue) : bool :=
  match content with
  | VMap serviceConfig =>
      match map_index serviceConfig "ports" with
      | VNil | VSlice _ => false
      | _ => true
      end
  | _ => true
  end.

(** ** Worlds that differ from another in one answer *)

Definition with_on_KindRun (answer : nat -> list string -> option error) (W : World) : World :=
  {| GetFile := GetFile W;
     ResolveAbs := ResolveAbs W;
     GetIdentity := GetIdentity W;
     K8sClusterConfigFilePath := K8sClusterConfigFilePath W;
     DefaultWaitTimeout := DefaultWaitTimeout W;
     SingleDefaultWaitTimeout := SingleDefaultWaitTimeout W;
     rangeOrder := rangeOrder W;
     ReaperDefault := ReaperDefault W;
     NewPort := NewPort W;
     LookupContainerPortNumberByName := LookupContainerPortNumberByName W;
     LookupServicePortNumberByName := LookupServicePortNumberByName W;
     LookupContainerPortNumberByServicePort := LookupContainerPortNumberByServicePort W;
     on_NewClientWithOpts := on_NewClientWithOpts W;
     on_Stat := on_Stat W;
     on_NetworkList := on_NetworkList W;
     on_NetworkCreate := on_NetworkCreate W;
     on_NetworkInspect := on_NetworkInspect W;
     on_NewLocalDockerCompose := on_NewLocalDockerCompose W;
     on_ComposeInvoke := on_ComposeInvoke W;
     on_ContainerList := on_ContainerList W;
     on_ContainerInspect := on_ContainerInspect W;
     on_DialContext := on_DialContext W;
     on_ContainerExecCreate := on_ContainerExecCreate W;
     on_ContainerExecStart := on_ContainerExecStart W;
     on_ContainerExecInspect := on_ContainerExecInspect W;
     on_Setenv := on_Setenv W;
     on_RunStepsAndWait := on_RunStepsAndWait W;
     on_KindRun := answer;
     on_ExpandEnv := on_ExpandEnv W;
     on_ConnectToK8sCluster := on_ConnectToK8sCluster W;
     on_ReadFile := on_ReadFile W;
     on_ToRESTConfig := on_ToRESTConfig W;
     on_RoundTripperFor := on_RoundTripperFor W;
     on_RESTClientFor := on_RESTClientFor W;
     on_ResourceLookup := on_ResourceLookup W;
     on_AttachablePodForObject := on_AttachablePodForObject W;
     on_PortforwardNew := on_PortforwardNew W;
     on_SelectReadyOrError := on_SelectReadyOrError W;
     on_GetPorts := on_GetPorts W;
     on_WaitFlagsToOptions := on_WaitFlagsToOptions W |}.

Definition with_on_SelectReadyOrError (answer : nat -> string -> string * option error) (W : World) : World :=
  {| GetFile := GetFile W;
     ResolveAbs := ResolveAbs W;
     GetIdentity := GetIdentity W;
     K8sClusterConfigFilePath := K8sClusterConfigFilePath W;
     DefaultWaitTimeout := DefaultWaitTimeout W;
     SingleDefaultWaitTimeout := SingleDefaultWaitTimeout W;
     rangeOrder := rangeOrder W;
     ReaperDefault := ReaperDefault W;
     NewPort := NewPort W;
     LookupContainerPortNumberByName := LookupContainerPortNumberByName W;
     LookupServicePortNumberByName := LookupServicePortNumberByName W;
     LookupContainerPortNumberByServicePort := LookupContainerPortNumberByServicePort W;
     on_NewClientWithOpts := on_NewClientWithOpts W;
     on_Stat := on_Stat W;
     on_NetworkList := on_NetworkList W;
     on_NetworkCreate := on_NetworkCreate W;
     on_NetworkInspect := on_NetworkInspect W;
     on_NewLocalDockerCompose := on_NewLocalDockerCompose W;
     on_ComposeInvoke := on_ComposeInvoke W;
     on_ContainerList := on_ContainerList W;
     on_ContainerInspect := on_ContainerInspect W;
     on_DialContext := on_DialContext W;
     on_ContainerExecCreate := on_ContainerExecCreate W;
     on_ContainerExecStart := on_ContainerExecStart W;
     on_ContainerExecInspect := on_ContainerExecInspect W;
     on_Setenv := on_Setenv W;
     on_RunStepsAndWait := on_RunStepsAndWait W;
     on_KindRun := on_KindRun W;
     on_ExpandEnv := on_ExpandEnv W;
     on_ConnectToK8sCluster := on_ConnectToK8sCluster W;
     on_ReadFile := on_ReadFile W;
     on_ToRESTConfig := on_ToRESTConfig W;
     on_RoundTripperFor := on_RoundTripperFor W;
     on_RESTClientFor := on_RESTClientFor W;
     on_ResourceLookup := on_ResourceLookup W;
     on_AttachablePodForObject := on_AttachablePodForObject W;
     on_PortforwardNew := on_PortforwardNew W;
     on_SelectReadyOrError := answer;
     on_GetPorts := on_GetPorts W;
     on_WaitFlagsToOptions := on_WaitFlagsToOptions W |}.

Definition with_on_ContainerExecInspect (answer : nat -> string -> ExecInspect * option error) (W : World) : World :=
  {| GetFile := GetFile W;
     ResolveAbs := ResolveAbs W;
     GetIdentity := GetIdentity W;
     K8sClusterConfigFilePath := K8sClusterConfigFilePath W;
     DefaultWaitTimeout := DefaultWaitTimeout W;
     SingleDefaultWaitTimeout := SingleDefaultWaitTimeout W;
     rangeOrder := rangeOrder W;
     ReaperDefault := ReaperDefault W;
     NewPort := NewPort W;
     LookupContainerPortNumberByName := LookupContainerPortNumberByName W;
     LookupServicePortNumberByName := LookupServicePortNumberByName W;
     LookupContainerPortNumberByServicePort := LookupContainerPortNumberByServicePort W;
     on_NewClientWithOpts := on_NewClientWithOpts W;
     on_Stat := on_Stat W;
     on_NetworkList := on_NetworkList W;
     on_NetworkCreate := on_NetworkCreate W;
     on_NetworkInspect := on_NetworkInspect W;
     on_NewLocalDockerCompose := on_NewLocalDockerCompose W;
     on_ComposeInvoke := on_ComposeInvoke W;
     on_ContainerList := on_ContainerList W;
     on_ContainerInspect := on_ContainerInspect W;
     on_DialContext := on_DialContext W;
     on_ContainerExecCreate := on_ContainerExecCreate W;
     on_ContainerExecStart := on_ContainerExecStart W;
     on_ContainerExecInspect := answer;
     on_Setenv := on_Setenv W;
     on_RunStepsAndWait := on_RunStepsAndWait W;
     on_KindRun := on_KindRun W;
     on_ExpandEnv := on_ExpandEnv W;
     on_ConnectToK8sCluster := on_ConnectToK8sCluster W;
     on_ReadFile := on_ReadFile W;
     on_ToRESTConfig := on_ToRESTConfig W;
     on_RoundTripperFor := on_RoundTripperFor W;
     on_RESTClientFor := on_RESTClientFor W;
     on_ResourceLookup := on_ResourceLookup W;
     on_AttachablePodForObject := on_AttachablePodForObject W;
     on_PortforwardNew := on_PortforwardNew W;
     on_SelectReadyOrError := on_SelectReadyOrError W;
     on_GetPorts := on_GetPorts W;
     on_WaitFlagsToOptions := on_WaitFlagsToOptions W |}.

Definition with_on_ContainerInspect (answer : nat -> string -> ContainerJSON * option error) (W : World) : World :=
  {| GetFile := GetFile W;
     ResolveAbs := ResolveAbs W;
     GetIdentity := GetIdentity W;
     K8sClusterConfigFilePath := K8sClusterConfigFilePath W;
     DefaultWaitTimeout := DefaultWaitTimeout W;
     SingleDefaultWaitTimeout := SingleDefaultWaitTimeout W;
     rangeOrder := rangeOrder W;
     ReaperDefault := ReaperDefault W;
     NewPort := NewPort W;
     LookupContainerPortNumberByName := LookupContainerPortNumberByName W;
     LookupServicePortNumberByName := LookupServicePortNumberByName W;
     LookupContainerPortNumberByServicePort := LookupContainerPortNumberByServicePort W;
     on_NewClientWithOpts := on_NewClientWithOpts W;
     on_Stat := on_Stat W;
     on_NetworkList := on_NetworkList W;
     on_NetworkCreate := on_NetworkCreate W;
     on_NetworkInspect := on_NetworkInspect W;
     on_NewLocalDockerCompose := on_NewLocalDockerCompose W;
     on_ComposeInvoke := on_ComposeInvoke W;
     on_ContainerList := on_ContainerList W;
     on_ContainerInspect := answer;
     on_DialContext := on_DialContext W;
     on_ContainerExecCreate := on_ContainerExecCreate W;
     on_ContainerExecStart := on_ContainerExecStart W;
     on_ContainerExecInspect := on_ContainerExecInspect W;
     on_Setenv := on_Setenv W;
     on_RunStepsAndWait := on_RunStepsAndWait W;
     on_KindRun := on_KindRun W;
     on_ExpandEnv := on_ExpandEnv W;
     on_ConnectToK8sCluster := on_ConnectToK8sCluster W;
     on_ReadFile := on_ReadFile W;
     on_ToRESTConfig := on_ToRESTConfig W;
     on_RoundTripperFor := on_RoundTripperFor W;
     on_RESTClientFor := on_RESTClientFor W;
     on_ResourceLookup := on_ResourceLookup W;
     on_AttachablePodForObject := on_AttachablePodForObject W;
     on_PortforwardNew := on_PortforwardNew W;
     on_SelectReadyOrError := on_SelectReadyOrError W;
     on_GetPorts := on_GetPorts W;
     on_WaitFlagsToOptions := on_WaitFlagsToOptions W |}.

(** ** Further vocabulary: the cluster *)

Definition is_kind_run (e : event) : bool :=
  match e with Do (KindRun _) => true | _ => false end.

(** The state after one image has been loaded. *)
Definition after_load (W : World) (image : string) (st : state) : state :=
  record (Do (KindRun ["load"; "docker-image"; on_ExpandEnv W (List.length (trace st)) image]))
    (record (Log Info "import docker images: %s")
       (record (Do (ExpandEnv image)) st)).

(** The context that [exposeKindService] makes for a list of
    exposures. *)
Definition context_for (exports : list KindExposePort) : kindPortForwardContext :=
  {| stopChannel := 1;
     resourceCount := List.length exports;
     resourceFinishedChannel := List.length exports |}.

(** A cluster in which the second tunnel fails to come up (the select
    at time 12 takes the error), one that cannot be created, and one
    on which no kind command succeeds from time 5 on. *)
Definition second_tunnel_fails : World :=
  with_on_SelectReadyOrError
    (fun t _ => if (t <? 12)%nat then ("", None)
                else ("unable to listen on port", Some (ErrExternal "listen tcp: in use")))
    calm.

Definition no_cluster : World :=
  with_on_KindRun (fun _ _ => Some (ErrExternal "failed to create cluster")) calm.

Definition image_missing : World :=
  with_on_KindRun
    (fun t _ => if (t <? 5)%nat then None else Some (ErrExternal "image not present locally"))
    calm.

(** [m] binds the port-forward context to [c] when it returns a nil
    error, and leaves it alone otherwise. *)
Definition binds_on_success (c : kindPortForwardContext) (m : M (option error)) : Prop :=
  forall st,
    match fst (m st) with
    | Returned None => portForwardContext (snd (m st)) = Some c
    | _ => portForwardContext (snd (m st)) = portForwardContext st
    end.

Definition two_exports : list KindExposePort :=
  [{| Namespace := "default"; Resource := "app/my-service"; Port := "8080" |};
   {| Namespace := "default"; Resource := "pod/oap-0"; Port := "12800:8080" |}].

(** ** Further vocabulary: teardown, exec, resolution *)

(** A step other than a tunnel ending on its own: the worker neither
    loses its connection nor fails. *)
Definition only_stop (a : Teardown.action) : bool :=
  match a with
  | Teardown.WorkerLosesConnection _ | Teardown.WorkerFails _ => false
  | _ => true
  end.

(** A worker that has left [ForwardPorts]. *)
Definition moved (w : Teardown.worker) : bool :=
  match w with
  | Teardown.Forwarding => false
  | _ => true
  end.

Definition stop_and_wait : list Teardown.action :=
  [Teardown.NotifyEnters; Teardown.NotifySendsStop; Teardown.WorkerStops 0;
   Teardown.WorkerAcknowledges 0; Teardown.NotifyReceives].

(** A runtime whose exec is still running when inspected before time
    6 and has then ended with exit code 7; a runtime whose container
    uses the network of the host. *)
Definition slow_exec : World :=
  with_on_ContainerExecInspect
    (fun t _ => ({| Running := (t <? 6)%nat; ExitCode := 7 |}, None)) calm.

Definition host_network : World :=
  with_on_ContainerInspect
    (fun _ _ => ({| NetworkMode := "host"; NetworkSettingsPorts := [] |}, None)) calm.

(** The state after one poll that found the exec still running. *)
Definition after_poll (execID : string) (st : state) : state :=
  record (Do (Sleep 100)) (record (Do (ContainerExecInspect execID)) st).

(** The services of a plan that have at least one port. *)
Definition with_ports {A} (service : string * list A) : bool :=
  match snd service with
  | [] => false
  | _ :: _ => true
  end.

Definition key_of_some (services : list string) (key : string) : Prop :=
  exists service, In service services /\ prefix (service ++ "_") key = true.

(** ** Further vocabulary: the two sides of an exposed port *)

(** The remote side of one entry of [Port]: the piece after the first
    colon, or the whole entry when it has no colon; and the local side,
    empty when there is no colon. *)
Definition remote_token (port : string) : string :=
  if Contains port ":" then nth 1 (Split port ":") "" else port.

Definition local_token (port : string) : string :=
  if Contains port ":" then nth 0 (Split port ":") "" else "".

(** The keys [exposePerKindService] may set for one exposure. *)
Definition kind_key (port : KindExposePort) (key : string) : Prop :=
  key = resourceName (Resource port) ++ "_host" \/
  exists p, In p (Split (Port port) ",") /\
            key = resourceName (Resource port) ++ "_" ++ remote_token p.

Definition with_service_ports (byName : string -> string -> Z * option error)
  (byServicePort : string -> Pod -> Z -> Z * option error) (W : World) : World :=
  {| GetFile := GetFile W;
     ResolveAbs := ResolveAbs W;
     GetIdentity := GetIdentity W;
     K8sClusterConfigFilePath := K8sClusterConfigFilePath W;
     DefaultWaitTimeout := DefaultWaitTimeout W;
     SingleDefaultWaitTimeout := SingleDefaultWaitTimeout W;
     rangeOrder := rangeOrder W;
     ReaperDefault := ReaperDefault W;
     NewPort := NewPort W;
     LookupContainerPortNumberByName := LookupContainerPortNumberByName W;
     LookupServicePortNumberByName := byName;
     LookupContainerPortNumberByServicePort := byServicePort;
     on_NewClientWithOpts := on_NewClientWithOpts W;
     on_Stat := on_Stat W;
     on_NetworkList := on_NetworkList W;
     on_NetworkCreate := on_NetworkCreate W;
     on_NetworkInspect := on_NetworkInspect W;
     on_NewLocalDockerCompose := on_NewLocalDockerCompose W;
     on_ComposeInvoke := on_ComposeInvoke W;
     on_ContainerList := on_ContainerList W;
     on_ContainerInspect := on_ContainerInspect W;
     on_DialContext := on_DialContext W;
     on_ContainerExecCreate := on_ContainerExecCreate W;
     on_ContainerExecStart := on_ContainerExecStart W;
     on_ContainerExecInspect := on_ContainerExecInspect W;
     on_Setenv := on_Setenv W;
     on_RunStepsAndWait := on_RunStepsAndWait W;
     on_KindRun := on_KindRun W;
     on_ExpandEnv := on_ExpandEnv W;
     on_ConnectToK8sCluster := on_ConnectToK8sCluster W;
     on_ReadFile := on_ReadFile W;
     on_ToRESTConfig := on_ToRESTConfig W;
     on_RoundTripperFor := on_RoundTripperFor W;
     on_RESTClientFor := on_RESTClientFor W;
     on_ResourceLookup := on_ResourceLookup W;
     on_AttachablePodForObject := on_AttachablePodForObject W;
     on_PortforwardNew := on_PortforwardNew W;
     on_SelectReadyOrError := on_SelectReadyOrError W;
     on_GetPorts := on_GetPorts W;
     on_WaitFlagsToOptions := on_WaitFlagsToOptions W |}.

(** A cluster in which every service names its port 80 [http] and
    sends it to the container port 8080. *)
Definition named_port : World :=
  with_service_ports
    (fun _ name => if String.eqb name "http" then (80%Z, None)
                   else (0%Z, Some (ErrExternal "no such port")))
    (fun _ _ n => if (n =? 80)%Z then (8080%Z, None) else (n, None))
    calm.

(** ** Further vocabulary: the order of a setup *)

(** [m] only adds events to the trace, and each of them satisfies
    [Q]. *)
Definition emits (Q : event -> bool) {A} (m : M A) : Prop :=
  forall st, exists evs,
    trace (snd (m st)) = (evs ++ trace st)%list /\ forallb Q evs = true.

(** An event that touches neither the stack nor the environment: no
    compose command, no container listed, inspected or run in, no
    dial, no variable set, no step run. *)
Definition preparation (e : event) : bool :=
  match e with
  | Do (ComposeInvoke _) | Do (ContainerList _) | Do (ContainerInspect _)
  | Do (DialContext _ _) | Do (ContainerExecCreate _ _) | Do (ContainerExecStart _)
  | Do (ContainerExecInspect _) | Do (Setenv _ _) | Do (RunStepsAndWait _ _) => false
  | _ => true
  end.

Definition no_compose (e : event) : bool := negb (is_compose_up e).

(** The new events of a setup are [post ++ pre], newest first: [pre]
    only prepares, and [post] is empty or begins with the one
    [up -d]. *)
Definition staged {A} (m : M A) : Prop :=
  forall st, exists pre post,
    trace (snd (m st)) = (post ++ pre ++ trace st)%list /\
    forallb preparation pre = true /\
    (post = [] \/
     exists later, post = (later ++ [Do (ComposeInvoke ["up"; "-d"])])%list /\
                   count is_compose_up later = 0%nat).

(** ** kind.go: manifests *)

Module Manifests.

(** What [createByManifest] does outside the package.  The manifests
    are created with the one verb [apiv1.Create]. *)
Inductive action :=
| GetManifests (path : string)
| OperateManifest (file : string)
| Logged (l : level) (format : string).

(** [config.Manifest], with the field the code reads. *)
Record Manifest := { manifestPath : string }.

Section WithCluster.

(** [util.GetManifests], and [util.OperateManifest] with the verb
    [apiv1.Create]: whether a file can be created may depend on the
    files created before it. *)
Variable on_GetManifests : string -> list string * option error.
Variable on_OperateManifest : list string -> string -> option error.

(** kind.go, [createByManifest]: the loop over [files]; [created] are
    the files operated on so far and [tr] is the trace, newest first. *)
Fixpoint createEach (files created : list string) (tr : list action)
  : option error * list action :=
  match files with
  | [] => (None, tr)
  | f :: rest =>
      let tr := Logged Info "creating manifest %s" :: tr in
      let err := on_OperateManifest created f in
      let tr := OperateManifest f :: tr in
      match err with
      | Some e => (Some e, Logged LError "create manifest %s failed" :: tr)
      | None => createEach rest (created ++ [f]) tr
      end
  end.

(** kind.go, [createByManifest]. *)
Definition createByManifest (manifest : Manifest) (tr : list action)
  : option error * list action :=
  let '(files, err) := on_GetManifests (manifestPath manifest) in
  let tr := GetManifests (manifestPath manifest) :: tr in
  match err with
  | Some e => (Some e, Logged LError "get manifests failed" :: tr)
  | None => createEach files [] tr
  end.

End WithCluster.

(** The files operated on in a trace, oldest first. *)
Fixpoint operated (tr : list action) : list string :=
  match tr with
  | [] => []
  | OperateManifest f :: rest => operated rest ++ [f]
  | _ :: rest => operated rest
  end.

(** A directory of three manifests, the second of which needs a
    namespace that no file before it creates. *)
Definition three_files (path : string) : list string * option error :=
  (["crd.yaml"; "app.yaml"; "svc.yaml"], None).

Definition needs_namespace (created : list string) (file : string) : option error :=
  if String.eqb file "app.yaml" && negb (existsb (String.eqb "ns.yaml") created)
  then Some (ErrExternal "namespaces not found") else None.

End Manifests.

(** ** Further vocabulary: the timeout of a plan *)

(** An entry of the plan of [bindWaitPort] with the startup timeout of
    every strategy replaced by [t]. *)
Definition retimed (t : Z) (entry : string * list hostPortCachedStrategy)
  : string * list hostPortCachedStrategy :=
  (fst entry,
   map (fun s => {| expectPort := expectPort s; startupTimeout := t |}) (snd entry)).

(** ** Further vocabulary: the teardown of three healthy tunnels *)

(** The system after [exposeKindService] has exposed [three_exports]:
    the context bound, three workers forwarding. *)
Definition three_launched : Teardown.system :=
  Teardown.launched three_exports initial
    (snd (exposeKindService calm three_exports 600 "/tmp/e2e-k8s.config" initial)).

(** The system after [KindCleanNotify] has sent its stop value, the
    first worker has taken it and acknowledged, and the notifier has
    received that acknowledgement. *)
Definition one_stopped : Teardown.system :=
  {| Teardown.context := Some {| stopChannel := 1; resourceCount := 3;
                                 resourceFinishedChannel := 3 |};
     Teardown.finishedCap := 3;
     Teardown.workers := [Teardown.Exited false; Teardown.Forwarding; Teardown.Forwarding];
     Teardown.stopBuffered := 0; Teardown.finishedBuffered := 0;
     Teardown.notify := Teardown.AtLoop 1;
     Teardown.stopsSent := 1; Teardown.acksReceived := 1 |}.

(* ================================================================= *)
(** * Properties *)

Example Split_host_container : Split "8080:80" ":" = ["8080"; "80"].
Proof. reflexivity. Qed.

Example Split_three : Split "127.0.0.1:8080:80" ":" = ["127.0.0.1"; "8080"; "80"].
Proof. reflexivity. Qed.

Example Split_plain : Split "9200" ":" = ["9200"].
Proof. reflexivity. Qed.

Example Split_comma : Split "a,,b," "," = ["a"; ""; "b"; ""].
Proof. reflexivity. Qed.

Example Atoi_80 : Atoi "80" = (80%Z, None).
Proof. reflexivity. Qed.

Example Atoi_tcp : Atoi "80/tcp" = (0%Z, Some (NumError "Atoi" "80/tcp" ErrSyntax)).
Proof. reflexivity. Qed.

Example Atoi_big : Atoi "9223372036854775808" = (maxInt, Some (NumError "Atoi" "9223372036854775808" ErrRange)).
Proof. reflexivity. Qed.

Example Itoa_9200 : Itoa 9200 = "9200".
Proof. reflexivity. Qed.

Example Itoa_0 : Itoa 0 = "0".
Proof. reflexivity. Qed.

Example Itoa_neg : Itoa (-15) = "-15".
Proof. reflexivity. Qed.

Example getExpectPort_pair : getExpectPort (VString "8080:80") = (80%Z, None).
Proof. reflexivity. Qed.

Example getExpectPort_three :
  getExpectPort (VString "127.0.0.1:8080:80") = (8080%Z, None).
Proof. reflexivity. Qed.

Example getInstanceName_plain : getInstanceName "es" = "es_1".
Proof. reflexivity. Qed.

Example getInstanceName_numbered : getInstanceName "es_2" = "es_2".
Proof. reflexivity. Qed.

Example getInstanceName_inner : getInstanceName "a_1b" = "a_1b".
Proof. reflexivity. Qed.

Example resourceName_app : resourceName "app/my-service" = "app_my_service".
Proof. reflexivity. Qed.

(** ** The derivative matcher decides the language of a pattern *)

Section RegexCorrect.

Lemma append_empty_r (s : string) : s ++ "" = s.
Proof. induction s; simpl; congruence. Qed.

Lemma append_assoc (a b c : string) : (a ++ b) ++ c = a ++ (b ++ c).
Proof. induction a; simpl; congruence. Qed.

Lemma append_eq_empty (a b : string) : a ++ b = "" -> a = "" /\ b = "".
Proof. destruct a; simpl; [auto | discriminate]. Qed.

Lemma cat_inv r1 r2 s :
  lang (Cat r1 r2) s -> exists s1 s2, s = s1 ++ s2 /\ lang r1 s1 /\ lang r2 s2.
Proof. intro H. inversion H; subst. eauto. Qed.

Lemma nullable_lang r : nullable r = true <-> lang r "".
Proof.
  induction r; simpl.
  - split; [discriminate | intro H; inversion H].
  - split; [constructor | reflexivity].
  - split; [discriminate | intro H; inversion H].
  - split; [discriminate | intro H; inversion H].
  - split; [discriminate | intro H; inversion H].
  - split; [discriminate | intro H; inversion H].
  - rewrite andb_true_iff, IHr1, IHr2. split.
    + intros [H1 H2]. change "" with ("" ++ ""). constructor; assumption.
    + intro H. apply cat_inv in H as (s1 & s2 & E & L1 & L2).
      symmetry in E. apply append_eq_empty in E as [-> ->]. auto.
  - rewrite orb_true_iff, IHr1, IHr2. split.
    + intros [H | H]; [apply LAltL | apply LAltR]; assumption.
    + intro H. inversion H; subst; auto.
  - split; [constructor | reflexivity].
Qed.

Lemma star_cons_inv r c s :
  lang (Star r) (String c s) ->
  exists s1 s2, s = s1 ++ s2 /\ lang r (String c s1) /\ lang (Star r) s2.
Proof.
  intro H. remember (Star r) as R eqn:ER. remember (String c s) as w eqn:Ew.
  induction H as [| | | | | | | | |r' s1 s2 H1 _ H2 IH2]; try discriminate.
  injection ER as ->.
  destruct s1 as [|c1 s1]; simpl in Ew.
  - apply IH2; auto.
  - injection Ew as -> <-. exists s1, s2. auto.
Qed.

Lemma deriv_lang r : forall a s, lang (deriv a r) s <-> lang r (String a s).
Proof.
  induction r; intros a s; simpl.
  - split; intro H; inversion H.
  - split; intro H; inversion H.
  - destruct (Ascii.eqb_spec a c) as [->|N]; split; intro H; inversion H; subst;
      try constructor; congruence.
  - destruct (Ascii.eqb_spec a newline) as [->|N]; split; intro H; inversion H; subst;
      try constructor; congruence.
  - split; intro H; inversion H; subst; constructor.
  - destruct (in_range lo hi a) eqn:E; split; intro H; inversion H; subst;
      try constructor; congruence.
  - assert (L : lang (Cat (deriv a r1) r2) s -> lang (Cat r1 r2) (String a s)).
    { intro H. apply cat_inv in H as (s1 & s2 & -> & L1 & L2).
      change (String a (s1 ++ s2)) with (String a s1 ++ s2).
      constructor; [apply IHr1 |]; assumption. }
    assert (R : lang (Cat r1 r2) (String a s) ->
                lang (Cat (deriv a r1) r2) s \/ (lang r1 "" /\ lang (deriv a r2) s)).
    { intro H. apply cat_inv in H as (s1 & s2 & E & L1 & L2).
      destruct s1 as [|c1 s1]; simpl in E.
      - right. subst s2. split; [assumption | apply IHr2; assumption].
      - injection E as <- ->. left. constructor; [apply IHr1 |]; assumption. }
    destruct (nullable r1) eqn:N.
    + split; intro H.
      * inversion H; subst; [auto |].
        change (String a s) with ("" ++ String a s).
        constructor; [apply nullable_lang; assumption | apply IHr2; assumption].
      * destruct (R H) as [H1 | [_ H2]]; [apply LAltL | apply LAltR]; assumption.
    + split; intro H; [auto |].
      destruct (R H) as [H1 | [H0 _]]; [assumption |].
      apply nullable_lang in H0. congruence.
  - split; intro H; inversion H; subst;
      solve [ apply LAltL; apply IHr1; assumption
            | apply LAltR; apply IHr2; assumption ].
  - split; intro H.
    + apply cat_inv in H as (s1 & s2 & -> & L1 & L2).
      change (String a (s1 ++ s2)) with (String a s1 ++ s2).
      constructor; [apply IHr |]; assumption.
    + apply star_cons_inv in H as (s1 & s2 & -> & H1 & H2).
      constructor; [apply IHr |]; assumption.
Qed.

Lemma match_whole_lang : forall s r, match_whole r s = true <-> lang r s.
Proof.
  induction s as [|c s IH]; intro r; simpl.
  - apply nullable_lang.
  - rewrite IH. apply deriv_lang.
Qed.

Lemma star_any (s : string) : lang (Star AnyByte) s.
Proof.
  induction s as [|c s IH]; [constructor |].
  change (String c s) with (String c "" ++ s). constructor; [constructor | assumption].
Qed.

End RegexCorrect.

(** ** [getInstanceName]: what the pattern accepts *)

Lemma has_underscore_digit_intro a d b :
  is_digit d = true -> has_underscore_digit (a ++ String "_" (String d b)) = true.
Proof.
  intro D. induction a as [|c a IH]; simpl.
  - rewrite D. reflexivity.
  - rewrite IH. apply orb_true_r.
Qed.

Lemma has_underscore_digit_elim s :
  has_underscore_digit s = true ->
  exists a d b, s = a ++ String "_" (String d b) /\ is_digit d = true.
Proof.
  induction s as [|c s IH]; simpl; [discriminate |].
  intro H. apply orb_true_iff in H as [H | H].
  - apply andb_true_iff in H as [C D].
    apply Ascii.eqb_eq in C. subst c.
    destruct s as [|d b]; [discriminate |].
    exists "", d, b. auto.
  - destruct (IH H) as (a & d & b & -> & D).
    exists (String c a), d, b. auto.
Qed.

Lemma range_inv lo hi s :
  lang (Range lo hi) s -> exists c, s = String c "" /\ in_range lo hi c = true.
Proof. intro H. inversion H; subst. eauto. Qed.

Lemma chr_inv c s : lang (Chr c) s -> s = String c "".
Proof. intro H. inversion H; subst. reflexivity. Qed.

Lemma instance_pattern_lang s :
  lang (Cat (Star AnyByte) (Cat instance_pattern (Star AnyByte))) s <->
  has_underscore_digit s = true.
Proof.
  split.
  - intro H.
    apply cat_inv in H as (s1 & s23 & -> & _ & H).
    apply cat_inv in H as (s2 & s3 & -> & H & _).
    apply cat_inv in H as (p & q & -> & _ & H).
    apply cat_inv in H as (u & v & -> & U & H).
    apply cat_inv in H as (d1 & ds & -> & D & _).
    apply chr_inv in U. subst u.
    apply range_inv in D as (d & -> & D).
    rewrite !append_assoc. simpl.
    rewrite <- append_assoc.
    apply has_underscore_digit_intro. exact D.
  - intro H. apply has_underscore_digit_elim in H as (a & d & b & -> & D).
    constructor; [apply star_any |].
    change (String "_" (String d b)) with (String "_" (String d "") ++ b).
    constructor; [| apply star_any].
    change (String "_" (String d "")) with ("" ++ (String "_" "" ++ (String d "" ++ ""))).
    constructor; [constructor |].
    constructor; [constructor |].
    constructor; [constructor; exact D | constructor].
Qed.

Lemma MatchString_instance_pattern s :
  MatchString instance_pattern s = (has_underscore_digit s, None).
Proof.
  unfold MatchString. f_equal.
  destruct (has_underscore_digit s) eqn:E.
  - apply match_whole_lang, instance_pattern_lang. exact E.
  - destruct (match_whole _ s) eqn:M; [| reflexivity].
    apply match_whole_lang, instance_pattern_lang in M. congruence.
Qed.

Lemma getInstanceName_cases s :
  getInstanceName s = if has_underscore_digit s then s else s ++ "_1".
Proof.
  unfold getInstanceName. rewrite MatchString_instance_pattern.
  destruct (has_underscore_digit s); reflexivity.
Qed.

Lemma getInstanceName_matches s : has_underscore_digit (getInstanceName s) = true.
Proof.
  rewrite getInstanceName_cases.
  destruct (has_underscore_digit s) eqn:E; [exact E |].
  apply has_underscore_digit_intro. reflexivity.
Qed.

(** ** [strings.ReplaceAll] and [strings.Split] on a one-byte separator *)

Lemma prefix_byte a c s : prefix (String a "") (String c s) = Ascii.eqb c a.
Proof.
  simpl. destruct (ascii_dec a c) as [->|N].
  - rewrite Ascii.eqb_refl. destruct s; reflexivity.
  - symmetry. apply Ascii.eqb_neq. congruence.
Qed.

Lemma ReplaceAll_byte old new s :
  ReplaceAll s (String old "") (String new "") =
  map_string (fun c => if Ascii.eqb c old then new else c) s.
Proof.
  unfold ReplaceAll. induction s as [|c s IH]; [reflexivity |].
  cbn [replace_from map_string]. rewrite prefix_byte.
  cbn [String.length Nat.sub]. rewrite IH.
  destruct (Ascii.eqb c old); reflexivity.
Qed.

Lemma map_string_compose f g s : map_string g (map_string f s) = map_string (fun c => g (f c)) s.
Proof. induction s; simpl; congruence. Qed.

Lemma map_string_ext f g s : (forall c, f c = g c) -> map_string f s = map_string g s.
Proof. intro E. induction s; simpl; congruence. Qed.

Lemma map_string_length f s : String.length (map_string f s) = String.length s.
Proof. induction s; simpl; congruence. Qed.

Lemma resourceName_map s : resourceName s = map_string sanitize_byte s.
Proof.
  unfold resourceName. rewrite !ReplaceAll_byte, map_string_compose.
  apply map_string_ext. intro c. unfold sanitize_byte.
  destruct (Ascii.eqb_spec c "/") as [->|N]; [reflexivity |].
  destruct (Ascii.eqb c "-"); reflexivity.
Qed.

Lemma sanitize_byte_idem c : sanitize_byte (sanitize_byte c) = sanitize_byte c.
Proof.
  unfold sanitize_byte.
  destruct (Ascii.eqb c "/" || Ascii.eqb c "-") eqn:E; [reflexivity |].
  rewrite E. reflexivity.
Qed.

Lemma resourceName_idem s : resourceName (resourceName s) = resourceName s.
Proof.
  rewrite !resourceName_map, map_string_compose.
  apply map_string_ext, sanitize_byte_idem.
Qed.

Lemma resourceName_clean s :
  free_of "/" (resourceName s) = true /\ free_of "-" (resourceName s) = true.
Proof.
  rewrite resourceName_map.
  induction s as [|c s [IH1 IH2]]; [split; reflexivity |].
  cbn [map_string free_of]. rewrite IH1, IH2, !andb_true_r.
  unfold sanitize_byte.
  destruct (Ascii.eqb_spec c "/") as [->|N1]; [split; reflexivity |].
  destruct (Ascii.eqb_spec c "-") as [->|N2]; [split; reflexivity |].
  cbn [orb]. split; apply negb_true_iff, Ascii.eqb_neq; assumption.
Qed.

Lemma split_from_free sep h rest :
  free_of sep h = true ->
  split_from (String sep "") 0 (h ++ String sep rest) =
  (h, Split rest (String sep "")).
Proof.
  intro F. induction h as [|c h IH].
  - cbn [append split_from]. rewrite prefix_byte, Ascii.eqb_refl. reflexivity.
  - cbn [free_of] in F. apply andb_true_iff in F as [N F].
    cbn [append split_from]. rewrite prefix_byte.
    apply negb_true_iff in N. rewrite N, (IH F). reflexivity.
Qed.

Lemma split_from_free_end sep h :
  free_of sep h = true -> split_from (String sep "") 0 h = (h, []).
Proof.
  intro F. induction h as [|c h IH]; [reflexivity |].
  cbn [free_of] in F. apply andb_true_iff in F as [N F].
  cbn [split_from]. rewrite prefix_byte.
  apply negb_true_iff in N. rewrite N, (IH F). reflexivity.
Qed.

Lemma Split_free sep h : free_of sep h = true -> Split h (String sep "") = [h].
Proof. intro F. unfold Split. rewrite (split_from_free_end _ _ F). reflexivity. Qed.

Lemma Split_cons sep h rest :
  free_of sep h = true ->
  Split (h ++ String sep rest) (String sep "") = h :: Split rest (String sep "").
Proof. intro F. unfold Split at 1. rewrite (split_from_free _ _ _ F). reflexivity. Qed.

Lemma Split_nonempty s sep : Split s sep <> [].
Proof. unfold Split. discriminate. Qed.

(** ** [strconv.Atoi] reads back what ["%d"] prints *)

Lemma digit_char_ok n :
  let c := ascii_of_nat (Z.to_nat (48 + n mod 10)) in
  is_digit c = true /\ digit_val c = (n mod 10)%Z.
Proof.
  intro c. subst c.
  assert (B : (0 <= n mod 10 < 10)%Z) by (apply Z.mod_pos_bound; lia).
  unfold is_digit, digit_val.
  rewrite nat_ascii_embedding by lia.
  split; [| lia].
  apply andb_true_iff; split; apply Nat.leb_le; lia.
Qed.

Lemma digits_of_pos_acc fuel : forall n acc,
  digits_of_pos fuel n acc = digits_of_pos fuel n "" ++ acc.
Proof.
  induction fuel as [|k IH]; intros n acc; [reflexivity |].
  cbn [digits_of_pos]. destruct (n <? 10)%Z; [reflexivity |].
  rewrite IH, (IH _ (String _ "")), append_assoc. reflexivity.
Qed.

Lemma parse_digits_app a : forall b acc,
  parse_digits (a ++ b) acc =
  match parse_digits a acc with
  | Some m => parse_digits b m
  | None => None
  end.
Proof.
  induction a as [|c a IH]; intros b acc; [reflexivity |].
  cbn [append parse_digits]. destruct (is_digit c); [apply IH | reflexivity].
Qed.

Lemma parse_digits_of_pos fuel : forall n,
  (0 <= n < 10 ^ Z.of_nat fuel)%Z -> (0 < fuel)%nat ->
  parse_digits (digits_of_pos fuel n "") 0 = Some n.
Proof.
  induction fuel as [|k IH]; intros n B F; [lia |].
  cbn [digits_of_pos].
  destruct (digit_char_ok n) as [D V].
  destruct (Z.ltb_spec n 10) as [L|G].
  - cbn [parse_digits]. rewrite D, V. f_equal.
    rewrite Z.mod_small; lia.
  - rewrite digits_of_pos_acc, parse_digits_app.
    assert (Q : (1 <= n / 10)%Z) by (apply Z.div_le_lower_bound; lia).
    assert (U : (n / 10 < 10 ^ Z.of_nat k)%Z).
    { apply Z.div_lt_upper_bound; [lia |].
      rewrite <- Z.pow_succ_r by lia. rewrite <- Nat2Z.inj_succ. lia. }
    assert (K : (0 < k)%nat).
    { destruct k; [simpl in U; lia | lia]. }
    rewrite IH by lia.
    cbn [parse_digits]. rewrite D, V. f_equal.
    pose proof (Z.div_mod n 10). lia.
Qed.

Lemma Itoa_fuel n :
  (0 <= n)%Z -> (n < 10 ^ Z.of_nat (S (Z.to_nat (Z.log2 n))))%Z.
Proof.
  intro P. rewrite Nat2Z.inj_succ, Z2Nat.id by apply Z.log2_nonneg.
  destruct (Z.eq_dec n 0) as [->|N]; [reflexivity |].
  pose proof (Z.log2_spec n ltac:(lia)) as [_ H].
  eapply Z.lt_le_trans; [exact H |].
  apply Z.pow_le_mono_l. pose proof (Z.log2_nonneg n). lia.
Qed.

Lemma parse_digits_Itoa n : (0 <= n)%Z -> parse_digits (Itoa n) 0 = Some n.
Proof.
  intro P. unfold Itoa.
  destruct (Z.ltb_spec n 0); [lia |].
  apply parse_digits_of_pos; [split; [lia | apply Itoa_fuel; lia] | lia].
Qed.

Lemma is_digit_not c d : is_digit d = false -> is_digit c = true -> Ascii.eqb c d = false.
Proof.
  intros F T. destruct (Ascii.eqb_spec c d) as [->|]; [congruence | reflexivity].
Qed.

Lemma parse_digits_free d s : forall acc m,
  is_digit d = false -> parse_digits s acc = Some m -> free_of d s = true.
Proof.
  induction s as [|c s IH]; intros acc m F P; [reflexivity |].
  cbn [parse_digits] in P. destruct (is_digit c) eqn:D; [| discriminate].
  cbn [free_of]. rewrite (is_digit_not _ _ F D). simpl. eapply IH; eauto.
Qed.

Lemma Atoi_digits s n :
  s <> "" -> parse_digits s 0 = Some n -> (n <= maxInt)%Z -> Atoi s = (n, None).
Proof.
  intros NE P B. destruct s as [|c s']; [congruence |].
  unfold Atoi, ParseInt10.
  assert (D : is_digit c = true).
  { cbn [parse_digits] in P. destruct (is_digit c); [reflexivity | discriminate]. }
  rewrite (is_digit_not c "-" eq_refl D), (is_digit_not c "+" eq_refl D).
  cbn [orb]. rewrite P.
  destruct (Z.ltb_spec n (2 ^ (64 - 1))); [reflexivity | unfold maxInt in B; lia].
Qed.

Lemma Itoa_nonempty n : (0 <= n)%Z -> Itoa n <> "".
Proof.
  intros P E. unfold Itoa in E. destruct (Z.ltb_spec n 0); [lia |].
  cbn [digits_of_pos] in E. destruct (n <? 10)%Z; [discriminate |].
  rewrite digits_of_pos_acc in E. apply append_eq_empty in E as [_ E]. discriminate.
Qed.

Lemma Atoi_Itoa n : (0 <= n <= maxInt)%Z -> Atoi (Itoa n) = (n, None).
Proof.
  intros [P B]. apply Atoi_digits; [apply Itoa_nonempty | apply parse_digits_Itoa |]; assumption.
Qed.

Lemma Itoa_free d n : is_digit d = false -> (0 <= n)%Z -> free_of d (Itoa n) = true.
Proof. intros F P. eapply parse_digits_free; [exact F | apply parse_digits_Itoa; exact P]. Qed.

(** ** [getExpectPort] *)

Lemma getExpectPort_split h rest :
  free_of ":" h = true ->
  getExpectPort (VString (h ++ ":" ++ rest)) = Atoi (nth 0 (Split rest ":") "").
Proof.
  intro F. unfold getExpectPort.
  change (h ++ ":" ++ rest) with (h ++ String ":" rest).
  rewrite (Split_cons _ _ _ F).
  destruct (Split rest ":") as [|x xs] eqn:E; [exfalso; exact (Split_nonempty _ _ E) |].
  reflexivity.
Qed.

(** C8.  [getExpectPort] gives the container side of a port entry: an
    [int] is returned as it is; for a string with a colon the result is
    [strconv.Atoi] of the piece after the first colon, which for
    ["host:container"] is the container part, and its number when that
    part is the decimal numeral of a number in the range of [int]; a
    string without a colon is read as a whole; any other dynamic type
    is the error "unknown port information". *)
Theorem getExpectPort_container_port :
  (forall n : Z, getExpectPort (VInt n) = (n, None)) /\
  (forall h rest, free_of ":" h = true ->
     getExpectPort (VString (h ++ ":" ++ rest)) = Atoi (nth 0 (Split rest ":") "")) /\
  (forall h c, free_of ":" h = true -> free_of ":" c = true ->
     getExpectPort (VString (h ++ ":" ++ c)) = Atoi c) /\
  (forall h c, free_of ":" h = true -> (0 <= c <= maxInt)%Z ->
     getExpectPort (VString (h ++ ":" ++ Itoa c)) = (c, None)) /\
  (forall s, free_of ":" s = true -> getExpectPort (VString s) = Atoi s) /\
  (forall n, (0 <= n <= maxInt)%Z -> getExpectPort (VString (Itoa n)) = (n, None)) /\
  (forall v, (forall n, v <> VInt n) -> (forall s, v <> VString s) ->
     getExpectPort v = (0%Z, Some (Errorf "unknown port information: %v" [ArgVal v]))).
Proof.
  assert (P : forall s, free_of ":" s = true -> getExpectPort (VString s) = Atoi s).
  { intros s F. unfold getExpectPort. rewrite (Split_free _ _ F). reflexivity. }
  assert (Q : forall h c, free_of ":" h = true -> free_of ":" c = true ->
                getExpectPort (VString (h ++ ":" ++ c)) = Atoi c).
  { intros h c Fh Fc. rewrite (getExpectPort_split _ _ Fh), (Split_free _ _ Fc). reflexivity. }
  repeat split.
  - intros h rest F. apply getExpectPort_split, F.
  - exact Q.
  - intros h c F B. rewrite Q; [apply Atoi_Itoa, B | exact F |].
    apply Itoa_free; [reflexivity | lia].
  - exact P.
  - intros n B. rewrite P; [apply Atoi_Itoa, B |].
    apply Itoa_free; [reflexivity | lia].
  - intros v NI NS. destruct v; try reflexivity; [elim (NI n) | elim (NS s)]; reflexivity.
Qed.

Lemma getExpectPort_container_port_witness :
  getExpectPort (VString ("127.0.0.1" ++ ":" ++ "8080:80")) = (8080%Z, None) /\
  getExpectPort (VString ("8080" ++ ":" ++ "80")) = (80%Z, None) /\
  getExpectPort (VString ("32001" ++ ":" ++ Itoa 9200)) = (9200%Z, None) /\
  getExpectPort (VString "9200") = (9200%Z, None) /\
  getExpectPort (VString (Itoa 9200)) = (9200%Z, None) /\
  getExpectPort (VBool true) =
    (0%Z, Some (Errorf "unknown port information: %v" [ArgVal (VBool true)])).
Proof.
  destruct getExpectPort_container_port as (_ & H2 & H3 & H4 & H5 & H6 & H7).
  split; [rewrite (H2 "127.0.0.1" "8080:80" eq_refl); reflexivity |].
  split; [rewrite (H3 "8080" "80" eq_refl eq_refl); reflexivity |].
  split; [apply (H4 "32001" 9200%Z eq_refl); unfold maxInt; lia |].
  split; [rewrite (H5 "9200" eq_refl); reflexivity |].
  split; [apply (H6 9200%Z); unfold maxInt; lia |].
  apply H7; intros; discriminate.
Defined.

(** ** Runs of the model on the calm world *)

Example ComposeSetup_calm :
  let '(r, st) := ComposeSetup calm 3 (config_of "docker-compose.yml" (Some []) 600 []) initial in
  r = Returned None /\
  env_keys (rev (trace st)) = ["es_host"; "es_9200"] /\
  In (Do (Setenv "es_host" "172.17.0.1")) (trace st) /\
  In (Do (Setenv "es_9200" "32001")) (trace st) /\
  In (Do (ContainerList "e2e_es_1")) (trace st) /\
  In (Do (DialContext "tcp" "172.17.0.1:32001")) (trace st).
Proof. vm_compute. intuition. Qed.

(** ** Stepping through the code *)

Ltac unfold_go :=
  unfold bind, ret, call, log, emit, get, unfinished, panic,
    set_kindConfigPath, set_kubeConfigPath, set_portForwardContext in *.

(** ** [KindSetup] without steps *)

(** C2.  When the setup names a definition file and its list of steps
    is nil, [KindSetup] returns a nil error; all it does is write the
    log line "no steps is provided": no cluster is created, no image
    imported, no other external operation made, and no port-forward
    context bound. *)
Theorem KindSetup_nil_steps (W : World) (e2eConfig : E2EConfig) (st : state) :
  GetFile W (e2eSetup e2eConfig) <> "" ->
  Steps (e2eSetup e2eConfig) = None ->
  fst (KindSetup W e2eConfig st) = Returned None /\
  trace (snd (KindSetup W e2eConfig st)) = Log Info "no steps is provided" :: trace st /\
  filter is_external (trace (snd (KindSetup W e2eConfig st))) = filter is_external (trace st) /\
  kubeConfigPath (snd (KindSetup W e2eConfig st)) = kubeConfigPath st /\
  portForwardContext (snd (KindSetup W e2eConfig st)) = portForwardContext st.
Proof.
  intros F N. unfold KindSetup. unfold_go. cbn.
  apply String.eqb_neq in F. rewrite F, N. cbn. auto.
Qed.

Lemma KindSetup_nil_steps_witness :
  GetFile calm (e2eSetup (config_of "kind.yaml" None 600 [])) <> "" /\
  Steps (e2eSetup (config_of "kind.yaml" None 600 [])) = None /\
  fst (KindSetup calm (config_of "kind.yaml" None 600 []) initial) = Returned None /\
  trace (snd (KindSetup calm (config_of "kind.yaml" None 600 []) initial))
    = [Log Info "no steps is provided"] /\
  filter is_external (trace (snd (KindSetup calm (config_of "kind.yaml" None 600 []) initial)))
    = [] /\
  kubeConfigPath (snd (KindSetup calm (config_of "kind.yaml" None 600 []) initial)) = "" /\
  portForwardContext (snd (KindSetup calm (config_of "kind.yaml" None 600 []) initial)) = None.
Proof.
  split; [discriminate |]. split; [reflexivity |].
  apply (KindSetup_nil_steps calm (config_of "kind.yaml" None 600 []) initial);
    [discriminate | reflexivity].
Defined.

(** ** [getWaitOptions] *)

(** C7.  A wait condition whose resource holds a ['/'] and whose label
    selector is not empty is rejected by [getWaitOptions] at once,
    before any call leaves the function.  A condition with at most one
    of the two passes this check: it fails only when the resource is
    empty, and otherwise the error returned is the one of the kubectl
    library that builds the options. *)
Theorem getWaitOptions_selector_exclusive (W : World) (yaml : string) (wait : Wait) (st : state) :
  (Contains (wResource wait) "/" = true -> wLabelSelector wait <> "" ->
     getWaitOptions W yaml wait st = (Returned (None, Some exclusive_selectors), st)) /\
  (Contains (wResource wait) "/" = false \/ wLabelSelector wait = "" ->
     (wResource wait = "" ->
        getWaitOptions W yaml wait st =
        (Returned (None, Some (Errorf "resource must be provided in wait block" [])),
         record (Do OpenDevNull) st)) /\
     (wResource wait <> "" ->
        exists options,
          getWaitOptions W yaml wait st =
          (Returned (options,
                     on_WaitFlagsToOptions W (S (List.length (trace st))) [wResource wait]),
           record (Do (WaitFlagsToOptions [wResource wait])) (record (Do OpenDevNull) st)))).
Proof.
  split.
  - intros C L. unfold getWaitOptions. apply String.eqb_neq in L. rewrite C, L. reflexivity.
  - intro H.
    assert (G : Contains (wResource wait) "/" && negb (String.eqb (wLabelSelector wait) "") = false).
    { destruct H as [H | H]; [rewrite H; reflexivity |].
      rewrite H. cbn. apply andb_false_r. }
    unfold getWaitOptions. rewrite G. unfold_go. cbn. split.
    + intros ->. reflexivity.
    + intro NE. apply String.eqb_neq in NE. rewrite NE. cbn.
      destruct (on_WaitFlagsToOptions W (S (List.length (trace st))) [wResource wait]);
        eexists; reflexivity.
Qed.

Lemma getWaitOptions_selector_exclusive_witness :
  getWaitOptions calm "apiVersion: v1"
    {| wNamespace := "default"; wResource := "pod/es-0"; wFor := "condition=Ready";
       wLabelSelector := "app=es" |} initial
  = (Returned (None, Some exclusive_selectors), initial) /\
  (exists options,
     getWaitOptions calm "apiVersion: v1"
       {| wNamespace := "default"; wResource := "pod/es-0"; wFor := "condition=Ready";
          wLabelSelector := "" |} initial
     = (Returned (options, None),
        record (Do (WaitFlagsToOptions ["pod/es-0"])) (record (Do OpenDevNull) initial))) /\
  getWaitOptions calm "apiVersion: v1"
    {| wNamespace := "default"; wResource := ""; wFor := "condition=Ready";
       wLabelSelector := "app=es" |} initial
  = (Returned (None, Some (Errorf "resource must be provided in wait block" [])),
     record (Do OpenDevNull) initial).
Proof.
  split; [| split].
  - apply (getWaitOptions_selector_exclusive calm "apiVersion: v1"
             {| wNamespace := "default"; wResource := "pod/es-0"; wFor := "condition=Ready";
                wLabelSelector := "app=es" |} initial); [reflexivity | discriminate].
  - apply (getWaitOptions_selector_exclusive calm "apiVersion: v1"
             {| wNamespace := "default"; wResource := "pod/es-0"; wFor := "condition=Ready";
                wLabelSelector := "" |} initial); [right; reflexivity | discriminate].
  - apply (getWaitOptions_selector_exclusive calm "apiVersion: v1"
             {| wNamespace := "default"; wResource := ""; wFor := "condition=Ready";
                wLabelSelector := "app=es" |} initial); [left; reflexivity | reflexivity].
Defined.

(** ** The internal check of [ComposeSetup] *)

Lemma count_cons p e tr : count p (e :: tr) = ((if p e then 1 else 0) + count p tr)%nat.
Proof. unfold count. simpl. destruct (p e); reflexivity. Qed.

Lemma pollExec_count (W : World) (fuel : nat) : forall execID st,
  count is_exec (trace (snd (pollExec W fuel execID st))) = count is_exec (trace st).
Proof.
  induction fuel as [|k IH]; intros execID st; [reflexivity |].
  cbn [pollExec]. unfold_go. cbn.
  destruct (on_ContainerExecInspect W _ execID) as [resp [e|]]; cbn; [reflexivity |].
  destruct (Running resp); cbn; [| reflexivity].
  rewrite IH. reflexivity.
Qed.

Lemma Exec_count (W : World) (fuel : nat) c cmd st :
  count is_exec (trace (snd (Exec W fuel c cmd st))) = S (count is_exec (trace st)).
Proof.
  unfold Exec. unfold_go. cbn.
  destruct (on_ContainerExecCreate W _ (ID c) cmd) as [id [e|]]; cbn; [reflexivity |].
  destruct (on_ContainerExecStart W _ id) as [e|]; cbn; [reflexivity |].
  rewrite pollExec_count. reflexivity.
Qed.

Lemma internalCheck_step (W : World) fuel pollFuel container command st exitCode st1 :
  Exec W pollFuel container ["/bin/sh"; "-c"; command] st = (Returned (exitCode, None), st1) ->
  internalCheck W (S fuel) pollFuel container command st =
  if (exitCode =? 0)%Z then (Returned None, st1)
  else if (exitCode =? 126)%Z
       then (Returned (Some (Errorf "/bin/sh command not executable" [])), st1)
       else internalCheck W fuel pollFuel container command st1.
Proof.
  intro E. cbn [internalCheck]. unfold bind at 1. rewrite E.
  destruct (exitCode =? 0)%Z; [reflexivity |].
  destruct (exitCode =? 126)%Z; reflexivity.
Qed.

Lemma internalCheck_retries (W : World) pollFuel container command st codes st1 :
  exec_run W pollFuel container command st codes st1 ->
  Forall retried codes ->
  (forall fuel,
     internalCheck W (List.length codes + fuel) pollFuel container command st =
     internalCheck W fuel pollFuel container command st1) /\
  count is_exec (trace st1) = (count is_exec (trace st) + List.length codes)%nat.
Proof.
  induction 1 as [st | st exitCode st1 codes st2 E R IH]; intro F.
  - split; [reflexivity | cbn [List.length]; lia].
  - inversion F as [| ? ? [N0 N126] F']; subst.
    destruct (IH F') as [IH1 IH2]. split.
    + intro fuel. cbn [List.length Nat.add].
      rewrite (internalCheck_step _ _ _ _ _ _ _ _ E).
      apply Z.eqb_neq in N0, N126. rewrite N0, N126. apply IH1.
    + rewrite IH2. pose proof (Exec_count W pollFuel container ["/bin/sh"; "-c"; command] st) as C.
      rewrite E in C. cbn in C. rewrite C. cbn [List.length]. lia.
Qed.

(** C3.  The internal health probe, for every sequence of exit codes:
    while the code is neither 0 nor 126 the exec probe is run again;
    a code 0 ends the loop with no error; a code 126 makes it return
    the error "/bin/sh command not executable" on that attempt, the
    state being the one the exec left, so that no further exec is
    made: the execs made are those before it and itself. *)
Theorem internalCheck_exit_codes (W : World) (pollFuel : nat) (container : Container)
  (command : string) (st st1 st2 : state) (codes : list Z) (last : Z) (fuel : nat) :
  exec_run W pollFuel container command st codes st1 ->
  Forall retried codes ->
  Exec W pollFuel container ["/bin/sh"; "-c"; command] st1 = (Returned (last, None), st2) ->
  (last = 0%Z ->
     internalCheck W (List.length codes + S fuel) pollFuel container command st
     = (Returned None, st2)) /\
  (last = 126%Z ->
     internalCheck W (List.length codes + S fuel) pollFuel container command st
     = (Returned (Some (Errorf "/bin/sh command not executable" [])), st2)) /\
  (retried last ->
     internalCheck W (List.length codes + S fuel) pollFuel container command st
     = internalCheck W fuel pollFuel container command st2) /\
  count is_exec (trace st2) = (count is_exec (trace st) + List.length codes + 1)%nat.
Proof.
  intros R F E.
  destruct (internalCheck_retries _ _ _ _ _ _ _ R F) as [H C].
  rewrite H, (internalCheck_step _ _ _ _ _ _ _ _ E).
  repeat split.
  - intros ->. reflexivity.
  - intros ->. reflexivity.
  - intros [N0 N126]. apply Z.eqb_neq in N0, N126. rewrite N0, N126. reflexivity.
  - pose proof (Exec_count W pollFuel container ["/bin/sh"; "-c"; command] st1) as C1.
    rewrite E in C1. cbn in C1. lia.
Qed.

Lemma internalCheck_exit_codes_witness :
  (* exit code 126 on the first attempt *)
  (internalCheck exits_126
     (0 + 3) 1 es_container "probe" initial
   = (Returned (Some (Errorf "/bin/sh command not executable" [])),
      snd (Exec exits_126
             1 es_container ["/bin/sh"; "-c"; "probe"] initial))
   /\ count is_exec
        (trace (snd (Exec exits_126
                       1 es_container ["/bin/sh"; "-c"; "probe"] initial))) = 1%nat) /\
  (* exit code 1, then exit code 0 *)
  (internalCheck exits_1_then_0
     (1 + 1) 1 es_container "probe" initial
   = (Returned None,
      snd (Exec exits_1_then_0
             1 es_container ["/bin/sh"; "-c"; "probe"]
             (snd (Exec exits_1_then_0
                     1 es_container ["/bin/sh"; "-c"; "probe"] initial))))).
Proof.
  split.
  - pose proof (internalCheck_exit_codes
                  exits_126
                  1 es_container "probe" initial initial
                  (snd (Exec exits_126
                          1 es_container ["/bin/sh"; "-c"; "probe"] initial))
                  [] 126%Z 2
                  (exec_run_nil _ _ _ _ _) (Forall_nil _) eq_refl) as (_ & H126 & _ & C).
    split; [exact (H126 eq_refl) | exact C].
  - set (W := exits_1_then_0).
    set (s1 := snd (Exec W 1 es_container ["/bin/sh"; "-c"; "probe"] initial)).
    set (s2 := snd (Exec W 1 es_container ["/bin/sh"; "-c"; "probe"] s1)).
    assert (R : exec_run W 1 es_container "probe" initial [1%Z] s1).
    { apply (exec_run_cons W 1 es_container "probe" initial 1%Z s1 [] s1);
        [reflexivity | apply exec_run_nil]. }
    assert (F : Forall retried [1%Z]).
    { repeat constructor; discriminate. }
    assert (E : Exec W 1 es_container ["/bin/sh"; "-c"; "probe"] s1 = (Returned (0%Z, None), s2))
      by reflexivity.
    exact (proj1 (internalCheck_exit_codes W 1 es_container "probe" initial s1 s2
                    [1%Z] 0%Z 0 R F E) eq_refl).
Defined.

(** ** The external check of [ComposeSetup] *)

Lemma slept_cons e tr :
  slept (e :: tr) = (match e with Do (Sleep ms) => ms | _ => 0 end + slept tr)%Z.
Proof. destruct e as [l f | o]; [reflexivity |]. destruct o; reflexivity. Qed.

Lemma externalCheck_refused (W : World) address k st e :
  on_DialContext W (S (List.length (trace st))) address = Some e ->
  externalCheck W (S k) address st = externalCheck W k address (after_refusal address st).
Proof.
  intro D. cbn [externalCheck]. unfold_go. cbn [trace record List.length].
  rewrite D. reflexivity.
Qed.

Lemma externalCheck_connected (W : World) address k st :
  on_DialContext W (S (List.length (trace st))) address = None ->
  externalCheck W (S k) address st =
  (Returned tt,
   record (Log Info "[print]connect success to %s")
     (record (Do ConnClose)
        (record (Do (DialContext "tcp" address))
           (record (Log Info "[print]trying to connect to %s") st)))).
Proof.
  intro D. cbn [externalCheck]. unfold_go. cbn [trace record List.length].
  rewrite D. reflexivity.
Qed.

Lemma after_refusal_facts address st :
  List.length (trace (after_refusal address st)) = (4 + List.length (trace st))%nat /\
  count is_dial (trace (after_refusal address st)) = S (count is_dial (trace st)) /\
  slept (trace (after_refusal address st)) = (2000 + slept (trace st))%Z.
Proof. repeat split. Qed.

Lemma externalCheck_never (W : World) (address : string) (fuel : nat) : forall st,
  (forall t, on_DialContext W t address <> None) ->
  fst (externalCheck W fuel address st) = Unfinished /\
  count is_dial (trace (snd (externalCheck W fuel address st)))
    = (count is_dial (trace st) + fuel)%nat /\
  slept (trace (snd (externalCheck W fuel address st)))
    = (slept (trace st) + 2000 * Z.of_nat fuel)%Z.
Proof.
  induction fuel as [|k IH]; intros st R.
  - cbn [externalCheck unfinished fst snd]. repeat split; lia.
  - destruct (on_DialContext W (S (List.length (trace st))) address) as [e|] eqn:D;
      [| elim (R _ D)].
    rewrite (externalCheck_refused _ _ _ _ _ D).
    destruct (IH (after_refusal address st) R) as (H1 & H2 & H3).
    destruct (after_refusal_facts address st) as (_ & F2 & F3).
    rewrite H1, H2, H3, F2, F3. repeat split; lia.
Qed.

Lemma externalCheck_after (W : World) (address : string) (k : nat) : forall fuel st,
  (forall j, (j < k)%nat ->
     on_DialContext W (List.length (trace st) + 4 * j + 1) address <> None) ->
  on_DialContext W (List.length (trace st) + 4 * k + 1) address = None ->
  (k < fuel)%nat ->
  fst (externalCheck W fuel address st) = Returned tt /\
  count is_dial (trace (snd (externalCheck W fuel address st)))
    = (count is_dial (trace st) + S k)%nat /\
  slept (trace (snd (externalCheck W fuel address st)))
    = (slept (trace st) + 2000 * Z.of_nat k)%Z.
Proof.
  induction k as [|k IH]; intros fuel st B G L.
  - destruct fuel as [|fuel]; [lia |].
    replace (List.length (trace st) + 4 * 0 + 1)%nat with (S (List.length (trace st))) in G by lia.
    rewrite (externalCheck_connected _ _ _ _ G). cbn [fst snd trace record].
    repeat split; [rewrite !count_cons; cbn [is_dial]; lia | rewrite !slept_cons; lia].
  - destruct fuel as [|fuel]; [lia |].
    pose proof (B 0%nat ltac:(lia)) as B0.
    replace (List.length (trace st) + 4 * 0 + 1)%nat with (S (List.length (trace st))) in B0 by lia.
    destruct (on_DialContext W (S (List.length (trace st))) address) as [e|] eqn:D;
      [| congruence].
    rewrite (externalCheck_refused _ _ _ _ _ D).
    destruct (after_refusal_facts address st) as (F1 & F2 & F3).
    destruct (IH fuel (after_refusal address st)) as (H1 & H2 & H3).
    + intros j J. rewrite F1.
      replace (4 + List.length (trace st) + 4 * j + 1)%nat
        with (List.length (trace st) + 4 * S j + 1)%nat by lia.
      apply B. lia.
    + rewrite F1.
      replace (4 + List.length (trace st) + 4 * k + 1)%nat
        with (List.length (trace st) + 4 * S k + 1)%nat by lia.
      exact G.
    + lia.
    + rewrite H1, H2, H3, F2, F3. repeat split; lia.
Qed.

Lemma ComposeSetup_refusing (timeout : Z) (fuel : nat) :
  fst (ComposeSetup refusing fuel (config_of "docker-compose.yml" (Some []) timeout []) initial)
    = Unfinished /\
  slept (trace (snd (ComposeSetup refusing fuel
                       (config_of "docker-compose.yml" (Some []) timeout []) initial)))
    = (2000 * Z.of_nat fuel)%Z.
Proof.
  remember (2000 * Z.of_nat fuel)%Z as total eqn:T.
  unfold ComposeSetup, bindWaitPort, config_of. cbn [Timeout e2eSetup].
  match goal with |- context [if (timeout <=? 0)%Z then ?a else ?b] =>
    generalize (if (timeout <=? 0)%Z then a else b) end.
  intro waitTimeout.
  cbv -[externalCheck internalCheck slept].
  match goal with |- context [externalCheck ?W fuel ?a ?s] =>
    assert (R : forall t, on_DialContext W t a <> None) by (intros t; discriminate);
    destruct (externalCheck_never W a fuel s R) as (H1 & _ & H3);
    destruct (externalCheck W fuel a s) as [r s'] eqn:E
  end.
  cbn [fst snd] in H1, H3. subst r. split; [reflexivity |].
  cbv -[slept Z.mul Z.add Z.of_nat] in H3.
  rewrite H3, T. exact (Z.add_0_l _).
Qed.

(** The external readiness gate on its own.  It dials again after
    every failed attempt, with a sleep of 2 seconds in between and no
    cap on the attempts: it returns at the first dial that succeeds,
    however many failed before, and when the dial never succeeds it
    does not return. *)
Theorem externalCheck_unbounded (W : World) (address : string) (st : state) :
  (forall k fuel,
     (forall j, (j < k)%nat ->
        on_DialContext W (List.length (trace st) + 4 * j + 1) address <> None) ->
     on_DialContext W (List.length (trace st) + 4 * k + 1) address = None ->
     (k < fuel)%nat ->
     fst (externalCheck W fuel address st) = Returned tt /\
     count is_dial (trace (snd (externalCheck W fuel address st)))
       = (count is_dial (trace st) + S k)%nat /\
     slept (trace (snd (externalCheck W fuel address st)))
       = (slept (trace st) + 2000 * Z.of_nat k)%Z) /\
  ((forall t, on_DialContext W t address <> None) ->
   forall fuel,
     fst (externalCheck W fuel address st) = Unfinished /\
     count is_dial (trace (snd (externalCheck W fuel address st)))
       = (count is_dial (trace st) + fuel)%nat /\
     slept (trace (snd (externalCheck W fuel address st)))
       = (slept (trace st) + 2000 * Z.of_nat fuel)%Z) /\
  (forall timeout fuel,
     fst (ComposeSetup refusing fuel
            (config_of "docker-compose.yml" (Some []) timeout []) initial) = Unfinished /\
     slept (trace (snd (ComposeSetup refusing fuel
                          (config_of "docker-compose.yml" (Some []) timeout []) initial)))
       = (2000 * Z.of_nat fuel)%Z).
Proof.
  split; [| split].
  - intros k fuel B G L. apply externalCheck_after; assumption.
  - intros R fuel. apply externalCheck_never, R.
  - apply ComposeSetup_refusing.
Qed.

Lemma externalCheck_unbounded_witness :
  (fst (externalCheck refuses_twice
          3 "172.17.0.1:32001" initial) = Returned tt /\
   count is_dial
     (trace (snd (externalCheck refuses_twice
                    3 "172.17.0.1:32001" initial))) = 3%nat /\
   slept
     (trace (snd (externalCheck refuses_twice
                    3 "172.17.0.1:32001" initial))) = 4000%Z) /\
  (fst (externalCheck refusing 7 "172.17.0.1:32001" initial) = Unfinished /\
   count is_dial (trace (snd (externalCheck refusing 7 "172.17.0.1:32001" initial))) = 7%nat /\
   slept (trace (snd (externalCheck refusing 7 "172.17.0.1:32001" initial))) = 14000%Z).
Proof.
  split.
  - apply (proj1 (externalCheck_unbounded
                    refuses_twice
                    "172.17.0.1:32001" initial) 2%nat 3%nat).
    + intros j J. destruct j as [|[|j]]; [discriminate | discriminate | lia].
    + reflexivity.
    + lia.
  - apply (proj1 (proj2 (externalCheck_unbounded refusing "172.17.0.1:32001" initial))).
    intros t. discriminate.
Defined.

(** The loop over the services never reads the startup timeout of a
    strategy. *)
Lemma resolvePort_retimed (W : World) fuel ip service c expect t containerPorts :
  resolvePort W fuel ip service c
    {| expectPort := expectPort expect; startupTimeout := t |} containerPorts
  = resolvePort W fuel ip service c expect containerPorts.
Proof.
  induction containerPorts as [|p rest IH]; [reflexivity |].
  cbn [resolvePort expectPort]. rewrite IH. reflexivity.
Qed.

Lemma resolvePorts_retimed (W : World) fuel ip service c t portList : forall st,
  resolvePorts W fuel ip service c
    (map (fun s => {| expectPort := expectPort s; startupTimeout := t |}) portList) st
  = resolvePorts W fuel ip service c portList st.
Proof.
  induction portList as [|expect rest IH]; intro st; [reflexivity |].
  cbn [map resolvePorts]. unfold bind. rewrite resolvePort_retimed.
  destruct (resolvePort W fuel ip service c expect (Ports c) st) as [[[e|] | | msg] st1];
    try reflexivity.
  apply IH.
Qed.

Lemma resolveServices_retimed (W : World) fuel ip identifier t plan : forall st,
  resolveServices W fuel ip identifier (map (retimed t) plan) st
  = resolveServices W fuel ip identifier plan st.
Proof.
  induction plan as [|[service [|expect more]] rest IH]; intro st; [reflexivity | |];
    cbn [map retimed fst snd resolveServices]; unfold bind;
    destruct (findContainer W (instanceNameOf identifier service) st)
      as [[[[c|] [e|]] | | msg] st1]; try reflexivity.
  - apply IH.
  - destruct (exportComposeEnv W (service ++ "_host") ip service st1)
      as [[[e|] | | msg] st2]; try reflexivity.
    destruct (PortsOf W c st2) as [[[ports e1] | | msg] st3]; try reflexivity.
    destruct (logPorts ports st3) as [[[] | | msg] st4]; try reflexivity.
    pose proof (resolvePorts_retimed W fuel ip service c t (expect :: more) st4) as R.
    cbn [map] in R. rewrite R.
    destruct (resolvePorts W fuel ip service c (expect :: more) st4) as [[[e2|] | | msg] st5];
      try reflexivity.
    apply IH.
Qed.

(** C5.  The bound of the external gate is set up and then dropped.
    [bindWaitPort] computes the wait timeout from [Setup.Timeout] and
    attaches it to the strategy of every port (one second for the
    stack below), but nothing reads it: the loop over the services
    runs the same whatever timeouts the plan carries, and the gate
    dials under a background context.  So for the service [es] whose
    published port nothing ever listens on, [ComposeSetup] does not
    return, whatever the timeout and however long the run: it dials
    once per round and sleeps 2 seconds after each refusal, and with a
    timeout of one second it has slept two seconds after one round. *)
Theorem ComposeSetup_drops_timeout :
  (forall t,
     fst (bindWaitPort refusing (config_of "docker-compose.yml" (Some []) 1 [])
            (on_NewLocalDockerCompose refusing t ["docker-compose.yml"]) initial)
     = Returned ([("es", [{| expectPort := 9200; startupTimeout := (1 * Second)%Z |}])],
                 None)) /\
  (forall (W : World) fuel ip identifier t plan st,
     resolveServices W fuel ip identifier (map (retimed t) plan) st
     = resolveServices W fuel ip identifier plan st) /\
  (forall timeout fuel,
     fst (ComposeSetup refusing fuel
            (config_of "docker-compose.yml" (Some []) timeout []) initial) = Unfinished /\
     slept (trace (snd (ComposeSetup refusing fuel
                          (config_of "docker-compose.yml" (Some []) timeout []) initial)))
       = (2000 * Z.of_nat fuel)%Z) /\
  (1000 * Timeout (e2eSetup (config_of "docker-compose.yml" (Some []) 1 []))
   < slept (trace (snd (ComposeSetup refusing 1
                          (config_of "docker-compose.yml" (Some []) 1 []) initial))))%Z.
Proof.
  split; [intro t; vm_compute; reflexivity |].
  split; [intros; apply resolveServices_retimed |].
  split; [apply ComposeSetup_refusing |].
  rewrite (proj2 (ComposeSetup_refusing 1 1)). reflexivity.
Qed.

(** ** Binding resolution in [ComposeSetup] *)

Lemma resolvePort_unmatched (W : World) fuel ip service container expect containerPorts st :
  (forall p, In p containerPorts -> PrivatePort p <> expectPort expect) ->
  resolvePort W fuel ip service container expect containerPorts st = (Returned None, st).
Proof.
  induction containerPorts as [|p rest IH]; intro N; [reflexivity |].
  cbn [resolvePort].
  destruct (Z.eqb_spec (PrivatePort p) (expectPort expect)) as [E|_].
  - elim (N p (or_introl eq_refl) E).
  - cbn [negb]. apply IH. intros q Q. apply N. right. exact Q.
Qed.

(** C4, as the code has it.  A declared pair of a service and an
    expected container port that has no entry with that private port
    in the port table of the live container is passed over: the loop
    over the table ends without a probe, without an environment
    variable and without an error, and the loop over the declared
    ports goes on with the next pair.  [MappedPort], which is only
    called for an entry that matched, reports a port that the inspected
    port map lacks as the error "port not found". *)
Theorem unmatched_port_is_skipped (W : World) (fuel : nat) (ip service : string)
  (container : Container) (expect : hostPortCachedStrategy)
  (rest : list hostPortCachedStrategy) (st : state) :
  (forall p, In p (Ports container) -> PrivatePort p <> expectPort expect) ->
  resolvePort W fuel ip service container expect (Ports container) st = (Returned None, st) /\
  resolvePorts W fuel ip service container (expect :: rest) st
    = resolvePorts W fuel ip service container rest st /\
  (forall port i1 i2,
     on_ContainerInspect W (List.length (trace st)) (ID container) = (i1, None) ->
     NetworkMode i1 <> "host" ->
     on_ContainerInspect W (S (List.length (trace st))) (ID container) = (i2, None) ->
     findMapped W (NetworkSettingsPorts i2) port = None ->
     fst (MappedPort W container port st)
       = Returned ("", NetworkMode i1, Some (Errorf "port not found" []))).
Proof.
  intro N. split; [| split].
  - apply resolvePort_unmatched, N.
  - cbn [resolvePorts]. unfold bind at 1.
    rewrite (resolvePort_unmatched _ _ _ _ _ _ _ _ N). reflexivity.
  - intros port i1 i2 I1 M I2 F.
    unfold MappedPort, PortsOf, inspectContainer. unfold_go. cbn [trace record List.length].
    rewrite I1. apply String.eqb_neq in M. rewrite M.
    cbn [trace record List.length]. rewrite I2, F. reflexivity.
Qed.

Lemma unmatched_port_is_skipped_witness :
  resolvePort other_port 3 "172.17.0.1" "es"
    {| ID := "c0ffee"; Ports := [{| PrivatePort := 9300; PublicPort := 32002 |}] |}
    {| expectPort := 9200; startupTimeout := 600 * Second |}
    [{| PrivatePort := 9300; PublicPort := 32002 |}] initial
  = (Returned None, initial) /\
  resolvePorts other_port 3 "172.17.0.1" "es"
    {| ID := "c0ffee"; Ports := [{| PrivatePort := 9300; PublicPort := 32002 |}] |}
    [{| expectPort := 9200; startupTimeout := 600 * Second |}] initial
  = (Returned None, initial) /\
  fst (MappedPort other_port
         {| ID := "c0ffee"; Ports := [{| PrivatePort := 9300; PublicPort := 32002 |}] |}
         "9200/tcp" initial)
  = Returned ("", "default", Some (Errorf "port not found" [])).
Proof.
  assert (N : forall p, In p [{| PrivatePort := 9300; PublicPort := 32002 |}] ->
                        PrivatePort p <> 9200%Z).
  { intros p [<- | []]. discriminate. }
  destruct (unmatched_port_is_skipped other_port 3 "172.17.0.1" "es"
              {| ID := "c0ffee"; Ports := [{| PrivatePort := 9300; PublicPort := 32002 |}] |}
              {| expectPort := 9200; startupTimeout := 600 * Second |} [] initial N)
    as (H1 & H2 & H3).
  split; [exact H1 |]. split; [exact H2 |].
    exact (H3 "9200/tcp" _ _ eq_refl ltac:(discriminate) eq_refl eq_refl).
Defined.

(** C4, as the claim has it, fails: the stack declares port 9200 for
    [es], the live container has no entry for it, and [ComposeSetup]
    returns a nil error, having exported the host of the service but
    no port and dialled nothing. *)
Lemma ComposeSetup_skips_unmatched_port :
  fst (bindWaitPort other_port compose_config
         (on_NewLocalDockerCompose other_port 0 ["docker-compose.yml"]) initial)
    = Returned ([("es", [{| expectPort := 9200; startupTimeout := 600 * Second |}])], None) /\
  forallb (fun p => negb (PrivatePort p =? 9200)%Z)
          [{| PrivatePort := 9300; PublicPort := 32002 |}] = true /\
  fst (ComposeSetup other_port 3 compose_config initial) = Returned None /\
  env_keys (rev (trace (snd (ComposeSetup other_port 3 compose_config initial)))) = ["es_host"] /\
  count is_dial (trace (snd (ComposeSetup other_port 3 compose_config initial))) = 0%nat.
Proof. vm_compute. repeat split. Qed.

(** ** Network discovery in [ComposeSetup] *)

(** C6 does not hold of the code: when the runtime cannot list its
    networks, [getDefaultNetwork] and [getGatewayIP] return the error,
    and [ComposeSetup] drops it: it starts the stack, exports an empty
    host for the service and returns a nil error. *)
Lemma ComposeSetup_drops_network_error :
  fst (getDefaultNetwork no_networks initial)
    = Returned ("", Some (ErrExternal "Cannot connect to the Docker daemon")) /\
  fst (getGatewayIP no_networks initial)
    = Returned ("", Some (ErrExternal "network not found")) /\
  fst (ComposeSetup no_networks 3 compose_config initial) = Returned None /\
  count is_compose_up (trace (snd (ComposeSetup no_networks 3 compose_config initial))) = 1%nat /\
  In (Do (Setenv "es_host" "")) (trace (snd (ComposeSetup no_networks 3 compose_config initial))) /\
  In (Do (DialContext "tcp" ":32001"))
     (trace (snd (ComposeSetup no_networks 3 compose_config initial))).
Proof. vm_compute. intuition. Qed.

(** ** [getInstanceName] *)

(** C10.  [getInstanceName] leaves a service name as it is when an
    underscore directly followed by a decimal digit occurs anywhere in
    it (the pattern is not anchored), and appends ["_1"] otherwise; it
    is idempotent; and [ComposeSetup] looks the container of a service
    up under the identifier, an underscore and this name. *)
Theorem getInstanceName_idempotent :
  (forall s, getInstanceName s = if has_underscore_digit s then s else s ++ "_1") /\
  (forall s, has_underscore_digit s = true <->
             exists a d b, s = a ++ String "_" (String d b) /\ is_digit d = true) /\
  (forall s, getInstanceName (getInstanceName s) = getInstanceName s) /\
  (forall W fuel ip identifier service portList rest st,
     on_ContainerList W (List.length (trace st)) (identifier ++ "_" ++ getInstanceName service)
       = ([], None) ->
     resolveServices W fuel ip identifier ((service, portList) :: rest) st
     = (Returned (Some (Errorf "could not found container: %s"
                          [ArgStr (identifier ++ "_" ++ getInstanceName service)])),
        record (Do (ContainerList (identifier ++ "_" ++ getInstanceName service))) st)).
Proof.
  split; [exact getInstanceName_cases |]. split; [| split].
  - intro s. split; [apply has_underscore_digit_elim |].
    intros (a & d & b & -> & D). apply has_underscore_digit_intro, D.
  - intro s. rewrite (getInstanceName_cases (getInstanceName s)), getInstanceName_matches.
    reflexivity.
  - intros W fuel ip identifier service portList rest st L.
    cbn [resolveServices]. unfold findContainer, instanceNameOf. unfold_go.
    rewrite L. reflexivity.
Qed.

Lemma getInstanceName_idempotent_witness :
  on_ContainerList no_containers (List.length (trace initial))
    ("e2e" ++ "_" ++ getInstanceName "es") = ([], None) /\
  resolveServices no_containers 3 "172.17.0.1" "e2e"
    [("es", [{| expectPort := 9200; startupTimeout := 600 * Second |}])] initial
  = (Returned (Some (Errorf "could not found container: %s" [ArgStr "e2e_es_1"])),
     record (Do (ContainerList "e2e_es_1")) initial).
Proof.
  split; [reflexivity |].
  exact (proj2 (proj2 (proj2 getInstanceName_idempotent)) no_containers 3 "172.17.0.1" "e2e" "es"
           [{| expectPort := 9200; startupTimeout := 600 * Second |}] [] initial eq_refl).
Defined.

(** ** The environment keys of an exposed resource *)

Lemma env_keys_app a b : env_keys (a ++ b)%list = (env_keys a ++ env_keys b)%list.
Proof.
  induction a as [|e a IH]; [reflexivity |].
  destruct e as [l f | o]; [exact IH |].
  destruct o; cbn [app env_keys]; rewrite ?IH; reflexivity.
Qed.

Section AddsKeys.

Variable P : string -> Prop.

Lemma adds_ret {A} (a : A) : adds_keys P (ret a).
Proof. intro st. exists []. split; [reflexivity | constructor]. Qed.

Lemma adds_log l f : adds_keys P (log l f).
Proof. intro st. exists [Log l f]. split; [reflexivity | constructor]. Qed.

Lemma adds_call {A} (o : op) (answer : nat -> A) :
  (forall k v, o = Setenv k v -> P k) -> adds_keys P (call o answer).
Proof.
  intros H st. exists [Do o]. split; [reflexivity |].
  destruct o; try constructor; [eapply H; reflexivity | constructor].
Qed.

Lemma adds_bind {A B} (m : M A) (k : A -> M B) :
  adds_keys P m -> (forall a, adds_keys P (k a)) -> adds_keys P (bind m k).
Proof.
  intros Hm Hk st. unfold bind.
  destruct (Hm st) as (e1 & T1 & F1).
  destruct (m st) as [[a | | msg] st1]; cbn [snd] in *.
  - destruct (Hk a st1) as (e2 & T2 & F2).
    exists (e2 ++ e1)%list. rewrite T2, T1, app_assoc. split; [reflexivity |].
    rewrite env_keys_app. apply Forall_app. auto.
  - exists e1. auto.
  - exists e1. auto.
Qed.

End AddsKeys.

Ltac adds_step :=
  first [ apply adds_ret
        | apply adds_log
        | apply adds_call; intros ? ? ?; discriminate
        | apply adds_bind; [| intros ?] ].

Lemma prefix_append p s : prefix p (p ++ s) = true.
Proof.
  induction p as [|c p IH]; [destruct s; reflexivity |].
  cbn [append prefix]. destruct (ascii_dec c c); [exact IH | congruence].
Qed.

Lemma prefix_underscore rn s : prefix (rn ++ "_") (rn ++ "_" ++ s) = true.
Proof. rewrite <- append_assoc. apply prefix_append. Qed.

Lemma adds_exportKindEnv (W : World) (P : string -> Prop) key value res :
  P key -> adds_keys P (exportKindEnv W key value res).
Proof.
  intro K. unfold exportKindEnv. apply adds_bind.
  - apply adds_call. intros k v E. injection E as <- _. exact K.
  - intros [e|]; repeat adds_step.
Qed.

Lemma adds_exportMatching (W : World) rn res p convertedPorts :
  adds_keys (fun k => prefix (rn ++ "_") k = true)
            (exportMatching W rn res p convertedPorts).
Proof.
  induction convertedPorts as [|kp rest IH]; cbn [exportMatching]; [adds_step |].
  destruct (Remote p =? realPort kp)%Z; [| exact IH].
  apply adds_bind.
  - apply adds_exportKindEnv, prefix_underscore.
  - intros [e|]; [adds_step | exact IH].
Qed.

Lemma adds_exportForwarded (W : World) rn res exportedPorts convertedPorts :
  adds_keys (fun k => prefix (rn ++ "_") k = true)
            (exportForwarded W rn res exportedPorts convertedPorts).
Proof.
  induction exportedPorts as [|p rest IH]; cbn [exportForwarded]; [adds_step |].
  apply adds_bind; [apply adds_exportMatching |].
  intros [e|]; [adds_step | exact IH].
Qed.

Lemma adds_exposePerKindService (W : World) port timeout forward :
  adds_keys (fun k => prefix (resourceName (Resource port) ++ "_") k = true)
            (exposePerKindService W port timeout forward).
Proof.
  unfold exposePerKindService.
  adds_step; [adds_step |]. destruct a as [obj [e|]]; [adds_step |].
  adds_step; [adds_step |]. destruct a as [pod [e|]]; [adds_step |].
  destruct (buildKindPorts W _ obj pod) as [convertedPorts [e|]]; [adds_step |].
  adds_step; [adds_step |]. destruct a as [e|]; [adds_step |].
  adds_step; [adds_step |].
  adds_step; [adds_step |]. destruct a0 as [stderr [e|]]; [adds_step |].
  adds_step; [adds_step |]. destruct a0 as [exportedPorts [e|]]; [adds_step |].
  adds_step; [apply adds_exportKindEnv, (prefix_underscore _ "host") |].
  destruct a0 as [e|]; [adds_step |].
  adds_step; [apply adds_exportForwarded |].
  destruct a0 as [e|]; adds_step.
Qed.

(** C9.  The key prefix of an exposed resource is the resource name
    with every ['/'] and every ['-'] replaced by ['_']; making it is
    idempotent; ["app/my-service"] gives ["app_my_service"]; and every
    environment key that [exposePerKindService] sets starts with this
    prefix and an underscore. *)
Theorem resourceName_sanitized :
  (forall x, resourceName x = map_string sanitize_byte x) /\
  (forall x, free_of "/" (resourceName x) = true /\ free_of "-" (resourceName x) = true) /\
  (forall x, resourceName (resourceName x) = resourceName x) /\
  resourceName "app/my-service" = "app_my_service" /\
  (forall W port timeout forward st, exists evs,
     trace (snd (exposePerKindService W port timeout forward st)) = (evs ++ trace st)%list /\
     Forall (fun k => prefix (resourceName (Resource port) ++ "_") k = true) (env_keys evs)) /\
  env_keys (rev (trace (snd (exposePerKindService calm
                               {| Namespace := "default"; Resource := "app/my-service";
                                  Port := "8080" |}
                               (600 * Second)
                               {| stopChannel := 1; resourceCount := 1;
                                  resourceFinishedChannel := 1 |} initial))))
  = ["app_my_service_host"; "app_my_service_8080"].
Proof.
  split; [exact resourceName_map |].
  split; [exact resourceName_clean |].
  split; [exact resourceName_idem |].
  split; [reflexivity |].
  split; [| reflexivity].
  intros W port timeout forward st. apply adds_exposePerKindService.
Qed.

(** ** The tunnel workers that [exposeKindService] starts *)

Lemma quiet_ret {A} (a : A) : quiet (ret a).
Proof. intro st. split; reflexivity. Qed.

Lemma quiet_log l f : quiet (log l f).
Proof. intro st. split; reflexivity. Qed.

Lemma quiet_call {A} (o : op) (answer : nat -> A) :
  (forall r, o <> GoForwardPorts r) -> quiet (call o answer).
Proof.
  intros H st. split; [reflexivity |].
  destruct o; try reflexivity. elim (H resource). reflexivity.
Qed.

Lemma quiet_bind {A B} (m : M A) (k : A -> M B) :
  quiet m -> (forall a, quiet (k a)) -> quiet (bind m k).
Proof.
  intros Hm Hk st. unfold bind.
  destruct (Hm st) as [C1 S1].
  destruct (m st) as [[a | | msg] st1]; cbn [snd] in *; [| auto | auto].
  destruct (Hk a st1) as [C2 S2]. split; congruence.
Qed.

Ltac quiet_step :=
  first [ apply quiet_ret
        | apply quiet_log
        | apply quiet_call; intros ?; discriminate
        | apply quiet_bind; [| intros ?] ].

Lemma quiet_exportKindEnv (W : World) key value res : quiet (exportKindEnv W key value res).
Proof. unfold exportKindEnv. quiet_step; [quiet_step |]. destruct a; repeat quiet_step. Qed.

Lemma quiet_exportMatching (W : World) rn res p convertedPorts :
  quiet (exportMatching W rn res p convertedPorts).
Proof.
  induction convertedPorts as [|kp rest IH]; cbn [exportMatching]; [quiet_step |].
  destruct (Remote p =? realPort kp)%Z; [| exact IH].
  quiet_step; [apply quiet_exportKindEnv |]. destruct a; [quiet_step | exact IH].
Qed.

Lemma quiet_exportForwarded (W : World) rn res exportedPorts convertedPorts :
  quiet (exportForwarded W rn res exportedPorts convertedPorts).
Proof.
  induction exportedPorts as [|p rest IH]; cbn [exportForwarded]; [quiet_step |].
  quiet_step; [apply quiet_exportMatching |]. destruct a; [quiet_step | exact IH].
Qed.

Lemma spawns_quiet (m : M (option error)) : quiet m -> spawns 0 m.
Proof. intros Q st. destruct (Q st) as [C S]. split; [exact C |]. intros _. lia. Qed.

Lemma spawns_error n e : spawns n (ret (Some e)).
Proof. intro st. split; [reflexivity | discriminate]. Qed.

Lemma spawns_bind {A} n (m : M A) (k : A -> M (option error)) :
  quiet m -> (forall a, spawns n (k a)) -> spawns n (bind m k).
Proof.
  intros Hm Hk st. unfold bind.
  destruct (Hm st) as [C1 S1].
  destruct (m st) as [[a | | msg] st1]; cbn [fst snd] in *;
    [| split; [exact C1 | discriminate] | split; [exact C1 | discriminate]].
  destruct (Hk a st1) as [C2 S2]. split; [congruence |].
  intro R. rewrite (S2 R), S1. reflexivity.
Qed.

Lemma spawns_go {A} n r (answer : nat -> A) (k : A -> M (option error)) :
  (forall a, spawns n (k a)) -> spawns (S n) (bind (call (GoForwardPorts r) answer) k).
Proof.
  intros Hk st. unfold bind, call.
  match goal with |- context [k ?a ?s] => destruct (Hk a s) as [C S] end.
  split; [exact C |]. intro R. rewrite (S R). cbn. lia.
Qed.

Lemma spawns_exposePerKindService (W : World) port timeout forward :
  spawns 1 (exposePerKindService W port timeout forward).
Proof.
  unfold exposePerKindService.
  apply spawns_bind; [quiet_step |]. intros [obj [e|]]; [apply spawns_error |].
  apply spawns_bind; [quiet_step |]. intros [pod [e|]]; [apply spawns_error |].
  destruct (buildKindPorts W _ obj pod) as [convertedPorts [e|]]; [apply spawns_error |].
  apply spawns_bind; [quiet_step |]. intros [e|]; [apply spawns_error |].
  apply spawns_go. intros [].
  apply spawns_quiet.
  quiet_step; [quiet_step |]. destruct a as [stderr [e|]]; [quiet_step |].
  quiet_step; [quiet_step |]. destruct a as [exportedPorts [e|]]; [quiet_step |].
  quiet_step; [apply quiet_exportKindEnv |]. destruct a as [e|]; [quiet_step |].
  quiet_step; [apply quiet_exportForwarded |]. destruct a as [e|]; quiet_step.
Qed.

Lemma spawns_then n1 n2 (m : M (option error)) (k : option error -> M (option error)) :
  spawns n1 m ->
  spawns n2 (k None) ->
  (forall e st, portForwardContext (snd (k (Some e) st)) = portForwardContext st /\
                fst (k (Some e) st) <> Returned None) ->
  spawns (n1 + n2) (bind m k).
Proof.
  intros Hm Hk He st. unfold bind.
  destruct (Hm st) as [C1 S1].
  destruct (m st) as [[[e|] | | msg] st1]; cbn [fst snd] in *.
  - destruct (He e st1) as [C2 N]. split; [congruence |]. intro R. elim (N R).
  - destruct (Hk st1) as [C2 S2]. split; [congruence |].
    intro R. rewrite (S2 R), (S1 eq_refl). lia.
  - split; [exact C1 | discriminate].
  - split; [exact C1 | discriminate].
Qed.

Lemma spawns_exposeEach (W : World) exports waitTimeout forwardContext :
  spawns (List.length exports) (exposeEach W exports waitTimeout forwardContext).
Proof.
  induction exports as [|p rest IH]; cbn [exposeEach List.length].
  - apply spawns_quiet, quiet_ret.
  - apply (spawns_then 1 (List.length rest)
             (exposePerKindService W p waitTimeout forwardContext)
             (fun err => match err with
                         | Some e => bind (call CancelFunc (fun _ => tt)) (fun _ => ret (Some e))
                         | None => exposeEach W rest waitTimeout forwardContext
                         end)).
    + apply spawns_exposePerKindService.
    + exact IH.
    + intros e st. split; [reflexivity | discriminate].
Qed.

Lemma exposeKindService_binds (W : World) exports timeout kubeConfig st st' :
  exposeKindService W exports timeout kubeConfig st = (Returned None, st') ->
  portForwardContext st'
    = Some {| stopChannel := 1; resourceCount := List.length exports;
              resourceFinishedChannel := List.length exports |} /\
  Teardown.spawned (trace st') = (Teardown.spawned (trace st) + List.length exports)%nat.
Proof.
  unfold exposeKindService. unfold bind at 1. unfold call at 1.
  destruct (on_ReadFile W _ kubeConfig) as [yaml [e|]]; [discriminate |].
  unfold bind at 1. unfold call at 1.
  destruct (on_ToRESTConfig W _) as [e|]; [discriminate |].
  unfold bind at 1. unfold call at 1.
  destruct (on_RoundTripperFor W _) as [e|]; [discriminate |].
  unfold bind at 1. unfold call at 1.
  destruct (on_RESTClientFor W _) as [e|]; [discriminate |].
  unfold bind at 1.
  match goal with |- context [exposeEach W exports ?wt ?fc ?s] =>
    destruct (spawns_exposeEach W exports wt fc s) as [C S];
    destruct (exposeEach W exports wt fc s) as [[[e|] | | msg] s5]
  end; try discriminate.
  cbn [fst snd] in C, S.
  unfold_go. intro H. injection H as <-. cbn [portForwardContext trace].
  split; [reflexivity |]. rewrite (S eq_refl). reflexivity.
Qed.

(** ** The drain barrier of [KindCleanNotify] *)

Section DrainBarrier.

Import Teardown.

Lemma set_nth_length {A} (x : A) l : forall i, List.length (set_nth i x l) = List.length l.
Proof.
  induction l as [|h t IH]; intros [|i]; cbn; try reflexivity.
  rewrite IH. reflexivity.
Qed.

Lemma exited_set_nth w' l : forall i w,
  nth_error l i = Some w ->
  (List.length (filter exited (set_nth i w' l)) + (if exited w then 1 else 0)
   = List.length (filter exited l) + (if exited w' then 1 else 0))%nat.
Proof.
  induction l as [|h t IH]; intros [|i] w E; cbn in E; try discriminate.
  - injection E as ->. cbn [set_nth filter].
    destruct (exited w), (exited w'); cbn [List.length]; lia.
  - cbn [set_nth filter]. specialize (IH i w E).
    destruct (exited h); cbn [List.length]; lia.
Qed.

Lemma exited_all l :
  List.length (filter exited l) = List.length l -> forallb exited l = true.
Proof.
  induction l as [|h t IH]; [reflexivity |].
  cbn [filter forallb List.length]. pose proof (filter_length_le exited t) as L.
  destruct (exited h); cbn [List.length andb]; intro E; [apply IH; lia | lia].
Qed.

Lemma step_invariant ctx n a s s' :
  drain_invariant ctx n s -> step a s = Some s' -> drain_invariant ctx n s'.
Proof.
  intros (C & L & X & N) E. subst ctx. unfold drain_invariant.
  destruct a as [i | i | i | i | i | | | |]; cbn [step] in E.
  - destruct (nth_error (workers s) i) as [[| | |]|] eqn:W; try discriminate.
    destruct (stopBuffered s) as [|k]; [discriminate |].
    injection E as <-. cbn.
    pose proof (exited_set_nth (Acknowledging false) _ _ _ W) as F. cbn in F.
    rewrite set_nth_length. repeat split; auto; lia.
  - destruct (nth_error (workers s) i) as [[| | |]|] eqn:W; try discriminate.
    injection E as <-. cbn.
    pose proof (exited_set_nth (Acknowledging false) _ _ _ W) as F. cbn in F.
    rewrite set_nth_length. repeat split; auto; lia.
  - destruct (nth_error (workers s) i) as [[| | |]|] eqn:W; try discriminate.
    injection E as <-. cbn.
    pose proof (exited_set_nth SendingError _ _ _ W) as F. cbn in F.
    rewrite set_nth_length. repeat split; auto; lia.
  - destruct (nth_error (workers s) i) as [[| | |]|] eqn:W; try discriminate.
    injection E as <-. cbn.
    pose proof (exited_set_nth (Acknowledging true) _ _ _ W) as F. cbn in F.
    rewrite set_nth_length. repeat split; auto; lia.
  - destruct (nth_error (workers s) i) as [[| |failed|]|] eqn:W; try discriminate.
    destruct (finishedBuffered s <? finishedCap s)%nat; [| discriminate].
    injection E as <-. cbn.
    pose proof (exited_set_nth (Exited failed) _ _ _ W) as F. cbn in F.
    rewrite set_nth_length. repeat split; auto; lia.
  - destruct (notify s) eqn:Q; try discriminate.
    destruct (context s) as [c|] eqn:K; injection E as <-; cbn;
      rewrite ?K; repeat split; auto; tauto.
  - destruct (notify s) eqn:Q; try discriminate.
    destruct (context s) as [c|] eqn:K; [| discriminate].
    destruct (stopBuffered s <? stopChannel c)%nat; [| discriminate].
    injection E as <-. cbn. destruct N as [N1 N2].
    repeat split; auto; try lia; intros c' _; lia.
  - destruct (notify s) as [| |i|] eqn:Q; try discriminate.
    destruct (context s) as [c|] eqn:K; [| discriminate].
    destruct (finishedBuffered s) as [|k] eqn:B; [discriminate |].
    destruct (Nat.ltb_spec i (resourceCount c)); [| discriminate].
    injection E as <-. cbn. destruct N as (N1 & N2 & N3).
    repeat split; auto; try lia; intros c' E'; injection E' as <-; lia.
  - destruct (notify s) as [| |i|] eqn:Q; try discriminate.
    destruct (context s) as [c|] eqn:K; [| discriminate].
    destruct (Nat.ltb_spec i (resourceCount c)); [discriminate |].
    injection E as <-. cbn. destruct N as (N1 & N2 & N3).
    rewrite K. specialize (N3 c eq_refl). repeat split; auto; lia.
Qed.

Lemma run_invariant ctx n schedule : forall s s',
  drain_invariant ctx n s -> run schedule s = Some s' -> drain_invariant ctx n s'.
Proof.
  induction schedule as [|a rest IH]; intros s s' I R; cbn [run] in R.
  - injection R as <-. exact I.
  - destruct (step a s) as [s1|] eqn:E; [| discriminate].
    eapply IH; [eapply step_invariant; eassumption | exact R].
Qed.

Lemma filter_exited_repeat k : filter exited (repeat Forwarding k) = [].
Proof. induction k; cbn; auto. Qed.

Lemma launched_invariant exports before after :
  drain_invariant (portForwardContext after)
    (spawned (trace after) - spawned (trace before))
    (launched exports before after).
Proof.
  unfold drain_invariant, launched. cbn.
  rewrite repeat_length, filter_exited_repeat. cbn. auto.
Qed.

End DrainBarrier.

(** What a return of [KindCleanNotify] implies, and no more (whether it
    returns is another matter, see [run_moved]).  When
    [exposeKindService] has bound the port-forward context,
    [resourceCount] is the number of declared exposures and as many
    tunnel workers have been started.  Whatever each worker does
    afterwards (takes the stop signal, loses its connection, or fails
    and sends its error) and however the steps interleave, if
    [KindCleanNotify] has returned it has sent one stop signal and
    received exactly [resourceCount] acknowledgements, and every
    worker has sent its acknowledgement and is gone. *)
Theorem drain_barrier (W : World) (exports : list KindExposePort) (timeout : Z)
  (kubeConfig : string) (st st' : state) (schedule : list Teardown.action)
  (s : Teardown.system) :
  exposeKindService W exports timeout kubeConfig st = (Returned None, st') ->
  Teardown.run schedule (Teardown.launched exports st st') = Some s ->
  Teardown.notify s = Teardown.Left ->
  (exists c, portForwardContext st' = Some c /\ resourceCount c = List.length exports) /\
  (Teardown.spawned (trace st') = Teardown.spawned (trace st) + List.length exports)%nat /\
  List.length (Teardown.workers s) = List.length exports /\
  Teardown.stopsSent s = 1%nat /\
  Teardown.acksReceived s = List.length exports /\
  forallb Teardown.exited (Teardown.workers s) = true /\
  Teardown.finishedBuffered s = 0%nat.
Proof.
  intros E R L.
  destruct (exposeKindService_binds _ _ _ _ _ _ E) as [C S].
  pose proof (run_invariant _ _ _ _ _ (launched_invariant exports st st') R) as (_ & L1 & X & N).
  rewrite L, C in N. cbn [resourceCount] in N. destruct N as [N1 N2].
  replace (Teardown.spawned (trace st') - Teardown.spawned (trace st))%nat
    with (List.length exports) in L1 by lia.
  pose proof (filter_length_le Teardown.exited (Teardown.workers s)) as F.
  split; [eexists; split; [exact C | reflexivity] |].
  split; [exact S |]. split; [exact L1 |]. split; [exact N2 |]. split; [exact N1 |].
  split; [apply exited_all; lia | lia].
Qed.

Lemma drain_barrier_witness :
  exposeKindService calm three_exports 600 "/tmp/e2e-k8s.config" initial
    = (Returned None, snd (exposeKindService calm three_exports 600 "/tmp/e2e-k8s.config" initial)) /\
  Teardown.workers
    (Teardown.launched three_exports initial
       (snd (exposeKindService calm three_exports 600 "/tmp/e2e-k8s.config" initial)))
    = [Teardown.Forwarding; Teardown.Forwarding; Teardown.Forwarding] /\
  Teardown.run one_fails
    (Teardown.launched three_exports initial
       (snd (exposeKindService calm three_exports 600 "/tmp/e2e-k8s.config" initial)))
    = Some {| Teardown.context := Some {| stopChannel := 1; resourceCount := 3;
                                          resourceFinishedChannel := 3 |};
              Teardown.finishedCap := 3;
              Teardown.workers := [Teardown.Exited false; Teardown.Exited true;
                                   Teardown.Exited false];
              Teardown.stopBuffered := 0; Teardown.finishedBuffered := 0;
              Teardown.notify := Teardown.Left;
              Teardown.stopsSent := 1; Teardown.acksReceived := 3 |} /\
  Teardown.acksReceived
    {| Teardown.context := Some {| stopChannel := 1; resourceCount := 3;
                                   resourceFinishedChannel := 3 |};
       Teardown.finishedCap := 3;
       Teardown.workers := [Teardown.Exited false; Teardown.Exited true;
                            Teardown.Exited false];
       Teardown.stopBuffered := 0; Teardown.finishedBuffered := 0;
       Teardown.notify := Teardown.Left;
       Teardown.stopsSent := 1; Teardown.acksReceived := 3 |} = List.length three_exports.
Proof.
  assert (E : exposeKindService calm three_exports 600 "/tmp/e2e-k8s.config" initial
              = (Returned None,
                 snd (exposeKindService calm three_exports 600 "/tmp/e2e-k8s.config" initial)))
    by (vm_compute; reflexivity).
  split; [exact E |]. split; [vm_compute; reflexivity |].
  assert (R : Teardown.run one_fails
                (Teardown.launched three_exports initial
                   (snd (exposeKindService calm three_exports 600 "/tmp/e2e-k8s.config" initial)))
              = Some {| Teardown.context := Some {| stopChannel := 1; resourceCount := 3;
                                                    resourceFinishedChannel := 3 |};
                        Teardown.finishedCap := 3;
                        Teardown.workers := [Teardown.Exited false; Teardown.Exited true;
                                             Teardown.Exited false];
                        Teardown.stopBuffered := 0; Teardown.finishedBuffered := 0;
                        Teardown.notify := Teardown.Left;
                        Teardown.stopsSent := 1; Teardown.acksReceived := 3 |})
    by (vm_compute; reflexivity).
  split; [exact R |].
  exact (proj1 (proj2 (proj2 (proj2 (proj2
           (drain_barrier calm three_exports 600 "/tmp/e2e-k8s.config" initial _ one_fails _
              E R eq_refl)))))).
Defined.

(* ================================================================= *)
(** * Further properties of the two files *)

(** ** Network discovery *)

Lemma scanNetworks_spec networks reaper : forall exists_,
  scanNetworks networks reaper exists_ =
  if existsb is_bridge networks then None
  else Some (exists_ || existsb (is_named reaper) networks).
Proof.
  induction networks as [|net rest IH]; intro b; cbn [scanNetworks existsb].
  - rewrite orb_false_r. reflexivity.
  - unfold is_bridge at 1, is_named at 1.
    destruct (String.eqb (Name net) "bridge"); [reflexivity |].
    destruct (String.eqb (Name net) reaper); rewrite IH; cbn [orb].
    + destruct (existsb is_bridge rest); [reflexivity |]. rewrite orb_true_r. reflexivity.
    + reflexivity.
Qed.

(** X1.  [getDefaultNetwork], when the networks can be listed: a
    network named "bridge" anywhere in the list is chosen, and none is
    created; without one, the fallback network is chosen as it is when
    it is listed, and created, once, only when it is not; the error
    of the creation is returned with an empty name. *)
Theorem getDefaultNetwork_cases (W : World) (st : state) (networks : list NetworkResource) :
  on_NetworkList W (List.length (trace st)) = (networks, None) ->
  (existsb is_bridge networks = true ->
     getDefaultNetwork W st = (Returned ("bridge", None), record (Do NetworkList) st)) /\
  (existsb is_bridge networks = false ->
   existsb (is_named (ReaperDefault W)) networks = true ->
     getDefaultNetwork W st
     = (Returned (ReaperDefault W, None), record (Do NetworkList) st)) /\
  (existsb is_bridge networks = false ->
   existsb (is_named (ReaperDefault W)) networks = false ->
     getDefaultNetwork W st
     = (Returned (match on_NetworkCreate W (S (List.length (trace st))) (ReaperDefault W) with
                  | Some e => ("", Some e)
                  | None => (ReaperDefault W, None)
                  end),
        record (Do (NetworkCreate (ReaperDefault W))) (record (Do NetworkList) st))).
Proof.
  intro L. unfold getDefaultNetwork. unfold_go. rewrite L, scanNetworks_spec.
  cbn [orb]. repeat split.
  - intros ->. reflexivity.
  - intros -> ->. reflexivity.
  - intros -> ->. cbn [negb trace record List.length].
    destruct (on_NetworkCreate W _ _); reflexivity.
Qed.

Lemma getDefaultNetwork_cases_witness :
  getDefaultNetwork
    (world_of ([reaper_network; bridge_network], None) [] (fun _ => None) (fun _ => 0%Z)) initial
  = (Returned ("bridge", None), record (Do NetworkList) initial) /\
  getDefaultNetwork
    (world_of ([reaper_network], None) [] (fun _ => None) (fun _ => 0%Z)) initial
  = (Returned ("reaper_default", None), record (Do NetworkList) initial) /\
  getDefaultNetwork (world_of ([], None) [] (fun _ => None) (fun _ => 0%Z)) initial
  = (Returned ("reaper_default", None),
     record (Do (NetworkCreate "reaper_default")) (record (Do NetworkList) initial)).
Proof.
  split; [| split].
  - exact (proj1 (getDefaultNetwork_cases
                    (world_of ([reaper_network; bridge_network], None) []
                       (fun _ => None) (fun _ => 0%Z))
                    initial [reaper_network; bridge_network] eq_refl) eq_refl).
  - exact (proj1 (proj2 (getDefaultNetwork_cases
                    (world_of ([reaper_network], None) [] (fun _ => None) (fun _ => 0%Z))
                    initial [reaper_network] eq_refl)) eq_refl eq_refl).
  - exact (proj2 (proj2 (getDefaultNetwork_cases
                    (world_of ([], None) [] (fun _ => None) (fun _ => 0%Z))
                    initial [] eq_refl)) eq_refl eq_refl).
Defined.

Lemma firstGateway_spec configs :
  firstGateway configs <> "" ->
  exists pre c post,
    configs = (pre ++ c :: post)%list /\
    Forall (fun c => Gateway c = "") pre /\
    Gateway c = firstGateway configs.
Proof.
  induction configs as [|c rest IH]; cbn [firstGateway]; [congruence |].
  destruct (String.eqb_spec (Gateway c) "") as [E|N]; cbn [negb].
  - intro H. destruct (IH H) as (pre & c' & post & -> & F & G).
    exists (c :: pre), c', post. repeat split; [| exact G]. constructor; assumption.
  - intros _. exists [], c, rest. repeat split. constructor.
Qed.

Lemma getDefaultNetwork_returns (W : World) st :
  exists name err st1, getDefaultNetwork W st = (Returned (name, err), st1).
Proof.
  unfold getDefaultNetwork. unfold_go.
  destruct (on_NetworkList W _) as [networks [e|]]; [eauto |].
  destruct (scanNetworks networks (ReaperDefault W) false) as [[|]|]; cbn [negb]; eauto.
  destruct (on_NetworkCreate W _ _); eauto.
Qed.

Lemma getGatewayIP_inspects_chosen (W : World) st :
  exists name err,
    fst (getDefaultNetwork W st) = Returned (name, err) /\
    getGatewayIP W st
    = (Returned (gateway_of (on_NetworkInspect W
                               (List.length (trace (snd (getDefaultNetwork W st)))) name)),
       record (Do (NetworkInspect name)) (snd (getDefaultNetwork W st))).
Proof.
  unfold getGatewayIP. unfold bind at 1.
  destruct (getDefaultNetwork_returns W st) as (name & err & st1 & ->).
  exists name, err. split; [reflexivity |]. cbn [snd].
  unfold GetNetwork, gateway_of. unfold_go.
  destruct (on_NetworkInspect W (List.length (trace st1)) name) as [nw [e|]]; [reflexivity |].
  destruct (String.eqb (firstGateway (IPAM nw)) ""); reflexivity.
Qed.

(** X2.  [getGatewayIP] never returns an empty address with a nil
    error, nor an address with an error.  A nil error comes with the
    first non-empty gateway among the IPAM entries of the network it
    inspected, the entries before it having none; that network is the
    one whose name [getDefaultNetwork] returned (whatever error came
    with the name), its inspection is the one call made after
    [getDefaultNetwork] and the last event of the trace, and the
    entries are the answer to that call. *)
Theorem getGatewayIP_gateway (W : World) (st : state) (ip : string) :
  (fst (getGatewayIP W st) = Returned (ip, None) ->
   ip <> "" /\
   exists name err nw pre c post,
     fst (getDefaultNetwork W st) = Returned (name, err) /\
     trace (snd (getGatewayIP W st))
       = Do (NetworkInspect name) :: trace (snd (getDefaultNetwork W st)) /\
     on_NetworkInspect W (List.length (trace (snd (getDefaultNetwork W st)))) name
       = (nw, None) /\
     IPAM nw = (pre ++ c :: post)%list /\
     Forall (fun c => Gateway c = "") pre /\
     Gateway c = ip) /\
  (forall e, fst (getGatewayIP W st) = Returned (ip, Some e) -> ip = "").
Proof.
  destruct (getGatewayIP_inspects_chosen W st) as (name & err & D & ->). cbn [fst snd].
  unfold gateway_of.
  destruct (on_NetworkInspect W (List.length (trace (snd (getDefaultNetwork W st)))) name)
    as [nw [e|]] eqn:I.
  - split; [discriminate |]. intros e' H. congruence.
  - destruct (String.eqb_spec (firstGateway (IPAM nw)) "") as [E|N].
    + split; [discriminate |]. intros e' H. congruence.
    + split; [| discriminate]. intro H. injection H as <-.
      split; [exact N |].
      destruct (firstGateway_spec _ N) as (pre & c & post & E & F & G).
      exists name, err, nw, pre, c, post.
      split; [exact D |]. split; [reflexivity |]. split; [exact I |]. auto.
Qed.

Lemma getGatewayIP_gateway_witness :
  fst (getGatewayIP calm initial) = Returned ("172.17.0.1", None) /\
  "172.17.0.1" <> "" /\
  exists name err nw pre c post,
    fst (getDefaultNetwork calm initial) = Returned (name, err) /\
    trace (snd (getGatewayIP calm initial))
      = Do (NetworkInspect name) :: trace (snd (getDefaultNetwork calm initial)) /\
    on_NetworkInspect calm (List.length (trace (snd (getDefaultNetwork calm initial)))) name
      = (nw, None) /\
    IPAM nw = (pre ++ c :: post)%list /\
    Forall (fun c => Gateway c = "") pre /\
    Gateway c = "172.17.0.1".
Proof.
  split; [reflexivity |].
  exact (proj1 (getGatewayIP_gateway calm initial "172.17.0.1") eq_refl).
Defined.

(** X3.  When the networks cannot be listed, [getGatewayIP] does not
    return that error: it goes on to inspect the network with the
    empty name, and its result is decided by that inspection alone. *)
Theorem getGatewayIP_after_list_error (W : World) (st : state)
  (networks : list NetworkResource) (e : error) :
  on_NetworkList W (List.length (trace st)) = (networks, Some e) ->
  getGatewayIP W st
  = (Returned (match on_NetworkInspect W (S (List.length (trace st))) "" with
               | (_, Some e') => ("", Some e')
               | (nw, None) =>
                   if String.eqb (firstGateway (IPAM nw)) ""
                   then ("", Some (Errorf "Failed to get gateway IP from network settings" []))
                   else (firstGateway (IPAM nw), None)
               end),
     record (Do (NetworkInspect "")) (record (Do NetworkList) st)).
Proof.
  intro L. unfold getGatewayIP, getDefaultNetwork, GetNetwork. unfold_go.
  rewrite L. cbn [trace record List.length].
  destruct (on_NetworkInspect W _ "") as [nw [e'|]]; [reflexivity |].
  destruct (String.eqb (firstGateway (IPAM nw)) ""); reflexivity.
Qed.

Lemma getGatewayIP_after_list_error_witness :
  on_NetworkList no_networks (List.length (trace initial))
    = ([], Some (ErrExternal "Cannot connect to the Docker daemon")) /\
  getGatewayIP no_networks initial
  = (Returned ("", Some (ErrExternal "network not found")),
     record (Do (NetworkInspect "")) (record (Do NetworkList) initial)).
Proof.
  split; [reflexivity |].
  exact (getGatewayIP_after_list_error no_networks initial []
           (ErrExternal "Cannot connect to the Docker daemon") eq_refl).
Defined.

(** ** The plan of the ports *)

Lemma bindPortList_ok portList waitTimeout :
  forallb parses portList = true ->
  bindPortList portList waitTimeout = (map (strategy_of waitTimeout) portList, None).
Proof.
  induction portList as [|entry rest IH]; [reflexivity |].
  cbn [forallb bindPortList map]. intro H. apply andb_true_iff in H as [P F].
  unfold parses in P. unfold strategy_of at 1.
  destruct (getExpectPort entry) as [n [e|]]; [discriminate |].
  rewrite (IH F). reflexivity.
Qed.

(** X4.  The plan for the port list of one service: when every entry
    is an int or a string that [strconv.Atoi] reads, there is one
    strategy per entry, in order, with the container port of the
    entry; otherwise the error is the one of the first entry that
    cannot be read. *)
Theorem bindPortList_plan (waitTimeout : Z) :
  (forall portList,
     forallb parses portList = true ->
     bindPortList portList waitTimeout = (map (strategy_of waitTimeout) portList, None)) /\
  (forall pre bad post e,
     forallb parses pre = true ->
     snd (getExpectPort bad) = Some e ->
     snd (bindPortList (pre ++ bad :: post) waitTimeout) = Some e).
Proof.
  split; [intros; apply bindPortList_ok; assumption |].
  induction pre as [|entry pre IH]; intros bad post e F B.
  - cbn [app bindPortList]. destruct (getExpectPort bad) as [n err]. cbn [snd] in B.
    subst err. reflexivity.
  - cbn [forallb] in F. apply andb_true_iff in F as [P F]. unfold parses in P.
    cbn [app bindPortList].
    destruct (getExpectPort entry) as [n [e'|]]; [discriminate |].
    specialize (IH bad post e F B).
    destruct (bindPortList (pre ++ bad :: post) waitTimeout) as [more err].
    exact IH.
Qed.

Lemma bindPortList_plan_witness :
  bindPortList [VInt 9200; VString "32001:9300"; VString "5601"] (600 * Second)
  = ([{| expectPort := 9200; startupTimeout := 600 * Second |};
      {| expectPort := 9300; startupTimeout := 600 * Second |};
      {| expectPort := 5601; startupTimeout := 600 * Second |}], None) /\
  snd (bindPortList ([VInt 9200] ++ VString "9300/tcp" :: [VBool true]) (600 * Second))
  = Some (NumError "Atoi" "9300/tcp" ErrSyntax).
Proof.
  split.
  - exact (proj1 (bindPortList_plan (600 * Second))
             [VInt 9200; VString "32001:9300"; VString "5601"] eq_refl).
  - exact (proj2 (bindPortList_plan (600 * Second))
             [VInt 9200] (VString "9300/tcp") [VBool true] _ eq_refl eq_refl).
Defined.

Lemma bindServices_cons_ok name content rest waitTimeout st l :
  unreadable content = false ->
  (forall portList, ports_of content = Some portList -> forallb parses portList = true) ->
  bindServices rest waitTimeout st = (Returned (l, None), st) ->
  bindServices ((name, content) :: rest) waitTimeout st
  = (Returned ((if has_ports (name, content)
                then [planned waitTimeout (name, content)] else []) ++ l, None)%list, st).
Proof.
  intros U P R. cbn [bindServices]. unfold has_ports, planned, ports_of in *. cbn [fst snd] in *.
  destruct content as [| | | | |l0|serviceConfig]; try discriminate.
  cbn in U. destruct (map_index serviceConfig "ports") as [| | | | |portList|]; try discriminate.
  - exact R.
  - rewrite (bindPortList_ok _ _ (P portList eq_refl)).
    unfold bind. rewrite R. reflexivity.
Qed.

(** X5.  The plan for the stack, when every service definition can be
    read and every port entry too: the services that have a list under
    ["ports"] (an empty list too), in the order they were visited, each
    with the strategies of its entries; a service without the key, or
    with a nil one, is left out, so that its container is never looked
    up.  Nothing leaves the process. *)
Theorem bindServices_plan (services : list (string * GoValue)) (waitTimeout : Z) (st : state) :
  forallb (fun s => negb (unreadable (snd s))) services = true ->
  (forall s portList, In s services -> ports_of (snd s) = Some portList ->
                      forallb parses portList = true) ->
  bindServices services waitTimeout st
  = (Returned (map (planned waitTimeout) (filter has_ports services), None), st).
Proof.
  induction services as [|[name content] rest IH]; intros U P; [reflexivity |].
  cbn [forallb snd] in U. apply andb_true_iff in U as [U1 U2].
  apply negb_true_iff in U1.
  rewrite (bindServices_cons_ok name content rest waitTimeout st
             (map (planned waitTimeout) (filter has_ports rest)) U1).
  - cbn [filter]. destruct (has_ports (name, content)); reflexivity.
  - intros portList E. apply (P (name, content) portList); [left; reflexivity | exact E].
  - apply IH; [exact U2 |]. intros s portList I. apply P. right. exact I.
Qed.

Lemma bindServices_plan_witness :
  bindServices
    [("ui", VMap [(VString "image", VString "ui")]);
     ("es", VMap [(VString "ports", VSlice [VString "32001:9200"])]);
     ("oap", VMap [(VString "ports", VSlice [])]);
     ("db", VMap [(VString "ports", VNil)])]
    (600 * Second) initial
  = (Returned ([("es", [{| expectPort := 9200; startupTimeout := 600 * Second |}]);
                ("oap", [])], None), initial).
Proof.
  apply (bindServices_plan
           [("ui", VMap [(VString "image", VString "ui")]);
            ("es", VMap [(VString "ports", VSlice [VString "32001:9200"])]);
            ("oap", VMap [(VString "ports", VSlice [])]);
            ("db", VMap [(VString "ports", VNil)])]
           (600 * Second) initial eq_refl).
  intros s portList [<- | [<- | [<- | [<- | []]]]] E; cbn in E; try discriminate;
    injection E as <-; reflexivity.
Defined.

(** X6.  A service definition that is not a mapping, or whose
    ["ports"] is neither nil nor a list, makes [bindWaitPort] panic
    (a failed type assertion) when the services before it could be
    read; no error is returned for it. *)
Theorem bindServices_panics (pre post : list (string * GoValue)) (name : string)
  (content : GoValue) (waitTimeout : Z) (st : state) :
  forallb (fun s => negb (unreadable (snd s))) pre = true ->
  (forall s portList, In s pre -> ports_of (snd s) = Some portList ->
                      forallb parses portList = true) ->
  unreadable content = true ->
  exists msg,
    bindServices (pre ++ (name, content) :: post) waitTimeout st = (Panicked msg, st).
Proof.
  induction pre as [|[n c] pre IH]; intros U P B.
  - cbn [app bindServices].
    destruct content as [| | | | |l0|serviceConfig]; try (eexists; reflexivity).
    cbn in B.
    destruct (map_index serviceConfig "ports") as [| | | | |portList|]; try discriminate;
      eexists; reflexivity.
  - cbn [forallb snd] in U. apply andb_true_iff in U as [U1 U2].
    apply negb_true_iff in U1.
    destruct (IH U2 (fun s pl I => P s pl (or_intror I)) B) as [msg E].
    exists msg. cbn [app bindServices].
    destruct c as [| | | | |l0|serviceConfig]; try discriminate.
    cbn in U1.
    pose proof (P (n, VMap serviceConfig)) as Pc. unfold ports_of in Pc. cbn [snd] in Pc.
    destruct (map_index serviceConfig "ports") as [| | | | |portList|]; try discriminate.
    + exact E.
    + rewrite (bindPortList_ok _ _ (Pc portList (or_introl eq_refl) eq_refl)).
      unfold bind. rewrite E. reflexivity.
Qed.

Lemma bindServices_panics_witness :
  exists msg,
    bindServices ([("es", VMap [(VString "ports", VSlice [VInt 9200])])]
                  ++ ("oap", VMap [(VString "ports", VString "12800:12800")]) :: [])
      (600 * Second) initial
    = (Panicked msg, initial).
Proof.
  apply (bindServices_panics [("es", VMap [(VString "ports", VSlice [VInt 9200])])] []
           "oap" (VMap [(VString "ports", VString "12800:12800")]) (600 * Second) initial
           eq_refl).
  - intros s portList [<- | []] E. cbn in E. injection E as <-. reflexivity.
  - reflexivity.
Defined.

(** ** Setting up without a definition file *)

(** X7.  Both setups refuse an empty definition-file path before
    anything else: the error is returned, no event is recorded, and
    the port-forward context is left as it was. *)
Theorem setup_without_file (W : World) (fuel : nat) (e2eConfig : E2EConfig) (st : state) :
  GetFile W (e2eSetup e2eConfig) = "" ->
  ComposeSetup W fuel e2eConfig st
    = (Returned (Some (Errorf "no compose config file was provided" [])), st) /\
  fst (KindSetup W e2eConfig st)
    = Returned (Some (Errorf "no kind config file was provided" [])) /\
  trace (snd (KindSetup W e2eConfig st)) = trace st /\
  portForwardContext (snd (KindSetup W e2eConfig st)) = portForwardContext st.
Proof.
  intro E. unfold ComposeSetup, KindSetup. unfold_go. cbn. rewrite E. cbn. auto.
Qed.

Lemma setup_without_file_witness :
  GetFile calm (e2eSetup (config_of "" (Some []) 600 [])) = "" /\
  ComposeSetup calm 3 (config_of "" (Some []) 600 []) initial
    = (Returned (Some (Errorf "no compose config file was provided" [])), initial) /\
  fst (KindSetup calm (config_of "" (Some []) 600 []) initial)
    = Returned (Some (Errorf "no kind config file was provided" [])) /\
  trace (snd (KindSetup calm (config_of "" (Some []) 600 []) initial)) = [] /\
  portForwardContext (snd (KindSetup calm (config_of "" (Some []) 600 []) initial)) = None.
Proof.
  split; [reflexivity |].
  exact (setup_without_file calm 3 (config_of "" (Some []) 600 []) initial eq_refl).
Defined.

(** ** Creating the cluster and importing images *)

(** X8.  [createKindCluster] records the kubeconfig path in the
    package variable before it runs kind, so the variable is set even
    when the creation fails; [KUBECONFIG] is exported only after kind
    has succeeded, with that path, and a failure of kind is returned as
    it is. *)
Theorem createKindCluster_kubeconfig (W : World) (kindConfigPath : string) (st : state) :
  kubeConfigPath (snd (createKindCluster W kindConfigPath st)) = K8sClusterConfigFilePath W /\
  (forall e,
     on_KindRun W (2 + List.length (trace st))
       ["create"; "cluster"; "--config"; kindConfigPath;
        "--kubeconfig"; K8sClusterConfigFilePath W] = Some e ->
     fst (createKindCluster W kindConfigPath st) = Returned (Some e) /\
     env_keys (trace (snd (createKindCluster W kindConfigPath st))) = env_keys (trace st)) /\
  (on_KindRun W (2 + List.length (trace st))
     ["create"; "cluster"; "--config"; kindConfigPath;
      "--kubeconfig"; K8sClusterConfigFilePath W] = None ->
   env_keys (trace (snd (createKindCluster W kindConfigPath st)))
     = "KUBECONFIG" :: env_keys (trace st) /\
   In (Do (Setenv "KUBECONFIG" (K8sClusterConfigFilePath W)))
      (trace (snd (createKindCluster W kindConfigPath st)))).
Proof.
  unfold createKindCluster. unfold_go. cbn [trace record List.length kubeConfigPath fst snd].
  change (S (S (List.length (trace st)))) with (2 + List.length (trace st))%nat.
  destruct (on_KindRun W (2 + List.length (trace st)) _) as [e|].
  - split; [reflexivity |]. split; [| discriminate].
    intros e' E. injection E as <-. split; reflexivity.
  - cbn [trace record List.length kubeConfigPath fst snd].
    destruct (on_Setenv W _ "KUBECONFIG" (K8sClusterConfigFilePath W)) as [e|];
      (split; [reflexivity |]; split; [discriminate |]; intros _; split;
       [reflexivity | cbn; tauto]).
Qed.

Lemma createKindCluster_kubeconfig_witness :
  (fst (createKindCluster no_cluster "kind.yaml" initial)
     = Returned (Some (ErrExternal "failed to create cluster")) /\
   env_keys (trace (snd (createKindCluster no_cluster "kind.yaml" initial))) = []) /\
  (env_keys (trace (snd (createKindCluster calm "kind.yaml" initial))) = ["KUBECONFIG"] /\
   In (Do (Setenv "KUBECONFIG" "/tmp/e2e-k8s.config"))
      (trace (snd (createKindCluster calm "kind.yaml" initial)))).
Proof.
  split.
  - exact (proj1 (proj2 (createKindCluster_kubeconfig no_cluster "kind.yaml" initial))
             (ErrExternal "failed to create cluster") eq_refl).
  - exact (proj2 (proj2 (createKindCluster_kubeconfig calm "kind.yaml" initial)) eq_refl).
Defined.

Lemma importImages_loaded (W : World) image rest st :
  on_KindRun W (2 + List.length (trace st))
    ["load"; "docker-image"; on_ExpandEnv W (List.length (trace st)) image] = None ->
  importImages W (image :: rest) st = importImages W rest (after_load W image st).
Proof.
  intro L. cbn [importImages]. unfold_go. cbn [trace record List.length].
  change (S (S (List.length (trace st)))) with (2 + List.length (trace st))%nat.
  rewrite L. reflexivity.
Qed.

Lemma importImages_refused (W : World) image rest st e :
  on_KindRun W (2 + List.length (trace st))
    ["load"; "docker-image"; on_ExpandEnv W (List.length (trace st)) image] = Some e ->
  importImages W (image :: rest) st = (Returned (Some e), after_load W image st).
Proof.
  intro L. cbn [importImages]. unfold_go. cbn [trace record List.length].
  change (S (S (List.length (trace st)))) with (2 + List.length (trace st))%nat.
  rewrite L. reflexivity.
Qed.

Lemma after_load_facts (W : World) image st :
  List.length (trace (after_load W image st)) = (3 + List.length (trace st))%nat /\
  count is_kind_run (trace (after_load W image st)) = S (count is_kind_run (trace st)).
Proof. split; reflexivity. Qed.

(** X9.  Importing images stops at the first image that kind cannot
    load: the images before it have been loaded, one kind command
    each, that error is returned and no later image is touched; when
    every load succeeds, there is one kind command per image and the
    error is nil. *)
Theorem importImages_first_failure (W : World) (images : list string) (st : state) :
  (forall k e,
     (k < List.length images)%nat ->
     (forall j args, (j < k)%nat ->
        on_KindRun W (List.length (trace st) + 3 * j + 2) args = None) ->
     (forall args, on_KindRun W (List.length (trace st) + 3 * k + 2) args = Some e) ->
     fst (importImages W images st) = Returned (Some e) /\
     count is_kind_run (trace (snd (importImages W images st)))
       = (count is_kind_run (trace st) + S k)%nat) /\
  ((forall j args, (j < List.length images)%nat ->
      on_KindRun W (List.length (trace st) + 3 * j + 2) args = None) ->
   fst (importImages W images st) = Returned None /\
   count is_kind_run (trace (snd (importImages W images st)))
     = (count is_kind_run (trace st) + List.length images)%nat).
Proof.
  revert st. induction images as [|image rest IH]; intro st.
  - split; [intros k e K; cbn in K; lia |]. intros _. cbn. split; [reflexivity | lia].
  - destruct (after_load_facts W image st) as [F1 F2].
    destruct (IH (after_load W image st)) as [IHf IHs]. split.
    + intros [|k] e K B G.
      * rewrite (importImages_refused W image rest st e).
        -- cbn [fst snd]. rewrite F2. split; [reflexivity | lia].
        -- replace (2 + List.length (trace st))%nat
             with (List.length (trace st) + 3 * 0 + 2)%nat by lia. apply G.
      * rewrite (importImages_loaded W image rest st).
        -- destruct (IHf k e) as [R C].
           ++ cbn [List.length] in K. lia.
           ++ intros j args J. rewrite F1.
              replace (3 + List.length (trace st) + 3 * j + 2)%nat
                with (List.length (trace st) + 3 * S j + 2)%nat by lia.
              apply B. lia.
           ++ intros args. rewrite F1.
              replace (3 + List.length (trace st) + 3 * k + 2)%nat
                with (List.length (trace st) + 3 * S k + 2)%nat by lia.
              apply G.
           ++ rewrite R, C, F2. split; [reflexivity | lia].
        -- replace (2 + List.length (trace st))%nat
             with (List.length (trace st) + 3 * 0 + 2)%nat by lia.
           apply B. lia.
    + intro B. rewrite (importImages_loaded W image rest st).
      * destruct IHs as [R C].
        -- intros j args J. rewrite F1.
           replace (3 + List.length (trace st) + 3 * j + 2)%nat
             with (List.length (trace st) + 3 * S j + 2)%nat by lia.
           apply B. cbn [List.length]. lia.
        -- rewrite R, C, F2. cbn [List.length]. split; [reflexivity | lia].
      * replace (2 + List.length (trace st))%nat
          with (List.length (trace st) + 3 * 0 + 2)%nat by lia.
        apply B. cbn [List.length]. lia.
Qed.

Lemma importImages_first_failure_witness :
  (fst (importImages image_missing ["oap:latest"; "ui:latest"; "agent:latest"] initial)
     = Returned (Some (ErrExternal "image not present locally")) /\
   count is_kind_run
     (trace (snd (importImages image_missing ["oap:latest"; "ui:latest"; "agent:latest"]
                    initial))) = 2%nat) /\
  (fst (importImages calm ["oap:latest"; "ui:latest"] initial) = Returned None /\
   count is_kind_run (trace (snd (importImages calm ["oap:latest"; "ui:latest"] initial)))
     = 2%nat).
Proof.
  split.
  - apply (proj1 (importImages_first_failure image_missing
                    ["oap:latest"; "ui:latest"; "agent:latest"] initial) 1%nat).
    + cbn. lia.
    + intros j args J. destruct j as [|j]; [reflexivity | lia].
    + intros args. reflexivity.
  - apply (proj2 (importImages_first_failure calm ["oap:latest"; "ui:latest"] initial)).
    intros j args J. reflexivity.
Defined.

(** ** When the port-forward context is bound *)

Lemma quiet_get {A} (f : state -> A) : quiet (get f).
Proof. intro st. split; reflexivity. Qed.

Lemma quiet_set_kubeConfigPath v : quiet (set_kubeConfigPath v).
Proof. intro st. split; reflexivity. Qed.

Lemma quiet_set_kindConfigPath v : quiet (set_kindConfigPath v).
Proof. intro st. split; reflexivity. Qed.

Ltac quiet_steps :=
  repeat first [ apply quiet_ret | apply quiet_log | apply quiet_get
               | apply quiet_set_kubeConfigPath | apply quiet_set_kindConfigPath
               | apply quiet_call; intros ?; discriminate
               | apply quiet_bind; [| intros ?]
               | match goal with |- quiet (match ?x with _ => _ end) => destruct x end ].

Lemma quiet_createKindCluster (W : World) path : quiet (createKindCluster W path).
Proof. unfold createKindCluster. quiet_steps. Qed.

Lemma quiet_importImages (W : World) images : quiet (importImages W images).
Proof.
  induction images as [|image rest IH]; cbn [importImages]; [quiet_steps |].
  apply quiet_bind; [quiet_steps |]. intros a.
  apply quiet_bind; [quiet_steps |]. intros _.
  apply quiet_bind; [quiet_steps |]. intros [e|]; [quiet_steps | exact IH].
Qed.

Lemma binds_error c e : binds_on_success c (ret (Some e)).
Proof. intro st. reflexivity. Qed.

Lemma binds_after {A} c (m : M A) (k : A -> M (option error)) :
  (forall st, portForwardContext (snd (m st)) = portForwardContext st) ->
  (forall a, binds_on_success c (k a)) -> binds_on_success c (bind m k).
Proof.
  intros Hm Hk st. unfold bind.
  pose proof (Hm st) as C1.
  destruct (m st) as [[a | | msg] st1]; cbn [fst snd] in *; [| exact C1 | exact C1].
  specialize (Hk a st1).
  destruct (fst (k a st1)) as [[e|] | |]; congruence.
Qed.

Lemma binds_bind {A} c (m : M A) (k : A -> M (option error)) :
  quiet m -> (forall a, binds_on_success c (k a)) -> binds_on_success c (bind m k).
Proof. intros Hm. apply binds_after. intro st. apply Hm. Qed.

Lemma binds_logged c (m : M (option error)) l f :
  binds_on_success c m ->
  binds_on_success c
    (bind m (fun err => match err with
                        | Some e => bind (log l f) (fun _ => ret (Some e))
                        | None => ret None
                        end)).
Proof.
  intros H st. specialize (H st). unfold bind.
  destruct (m st) as [[[e|] | | msg] s1]; cbn [fst snd] in *; exact H.
Qed.

Lemma binds_exposeKindService (W : World) exports timeout kubeConfig :
  binds_on_success (context_for exports) (exposeKindService W exports timeout kubeConfig).
Proof.
  unfold exposeKindService.
  apply binds_bind; [quiet_steps |]. intros [yaml [e|]]; [apply binds_error |].
  apply binds_bind; [quiet_steps |]. intros [e|]; [apply binds_error |].
  apply binds_bind; [quiet_steps |]. intros [e|]; [apply binds_error |].
  apply binds_bind; [quiet_steps |]. intros [e|]; [apply binds_error |].
  apply binds_after; [intro st; apply spawns_exposeEach |].
  intros [e|]; [apply binds_error |]. intro st. reflexivity.
Qed.

(** X10.  When an exposure fails, [exposeKindService] leaves the
    port-forward context unbound although tunnel workers may have been
    started: [KindShouldWaitSignal] stays false, and a later
    [KindCleanNotify] returns without sending a stop signal and without
    waiting for any of them. *)
Theorem failed_exposure_is_not_drained (W : World) (exports : list KindExposePort)
  (timeout : Z) (kubeConfig : string) (st : state) (e : error) :
  portForwardContext st = None ->
  fst (exposeKindService W exports timeout kubeConfig st) = Returned (Some e) ->
  portForwardContext (snd (exposeKindService W exports timeout kubeConfig st)) = None /\
  KindShouldWaitSignal (snd (exposeKindService W exports timeout kubeConfig st)) = false /\
  forall schedule s,
    Teardown.run schedule
      (Teardown.launched exports st (snd (exposeKindService W exports timeout kubeConfig st)))
      = Some s ->
    Teardown.notify s = Teardown.Left ->
    Teardown.stopsSent s = 0%nat /\ Teardown.acksReceived s = 0%nat.
Proof.
  intros N R.
  pose proof (binds_exposeKindService W exports timeout kubeConfig st) as B.
  rewrite R in B. rewrite N in B.
  split; [exact B |]. split; [unfold KindShouldWaitSignal; rewrite B; reflexivity |].
  intros schedule s Run L.
  pose proof (run_invariant _ _ _ _ _
                (launched_invariant exports st
                   (snd (exposeKindService W exports timeout kubeConfig st))) Run)
    as (_ & _ & _ & I).
  rewrite L, B in I. destruct I as [I1 I2]. split; assumption.
Qed.

Lemma failed_exposure_is_not_drained_witness :
  fst (exposeKindService second_tunnel_fails two_exports 600 "/tmp/e2e-k8s.config" initial)
    = Returned (Some (Errorf "create forward error, %s : %v"
                        [ArgStr "unable to listen on port";
                         ArgErr (Some (ErrExternal "listen tcp: in use"))])) /\
  Teardown.run [Teardown.NotifyEnters]
    (Teardown.launched two_exports initial
       (snd (exposeKindService second_tunnel_fails two_exports 600 "/tmp/e2e-k8s.config"
               initial)))
    = Some {| Teardown.context := None; Teardown.finishedCap := 2;
              Teardown.workers := [Teardown.Forwarding; Teardown.Forwarding];
              Teardown.stopBuffered := 0; Teardown.finishedBuffered := 0;
              Teardown.notify := Teardown.Left;
              Teardown.stopsSent := 0; Teardown.acksReceived := 0 |} /\
  Teardown.stopsSent
    {| Teardown.context := None; Teardown.finishedCap := 2;
       Teardown.workers := [Teardown.Forwarding; Teardown.Forwarding];
       Teardown.stopBuffered := 0; Teardown.finishedBuffered := 0;
       Teardown.notify := Teardown.Left;
       Teardown.stopsSent := 0; Teardown.acksReceived := 0 |} = 0%nat.
Proof.
  assert (R : fst (exposeKindService second_tunnel_fails two_exports 600
                     "/tmp/e2e-k8s.config" initial)
              = Returned (Some (Errorf "create forward error, %s : %v"
                                  [ArgStr "unable to listen on port";
                                   ArgErr (Some (ErrExternal "listen tcp: in use"))])))
    by (vm_compute; reflexivity).
  split; [exact R |].
  assert (Run : Teardown.run [Teardown.NotifyEnters]
                  (Teardown.launched two_exports initial
                     (snd (exposeKindService second_tunnel_fails two_exports 600
                             "/tmp/e2e-k8s.config" initial)))
                = Some {| Teardown.context := None; Teardown.finishedCap := 2;
                          Teardown.workers := [Teardown.Forwarding; Teardown.Forwarding];
                          Teardown.stopBuffered := 0; Teardown.finishedBuffered := 0;
                          Teardown.notify := Teardown.Left;
                          Teardown.stopsSent := 0; Teardown.acksReceived := 0 |})
    by (vm_compute; reflexivity).
  split; [exact Run |].
  exact (proj1 (proj2 (proj2 (failed_exposure_is_not_drained second_tunnel_fails two_exports
                                600 "/tmp/e2e-k8s.config" initial _ eq_refl R))
                 [Teardown.NotifyEnters] _ Run eq_refl)).
Defined.

(** X11.  [KindSetup] binds the port-forward context exactly when it
    succeeds with steps: whenever it returns an error the context is
    as before; when it returns nil for a configuration with steps, the
    context is the one for the declared exposures, and
    [KindShouldWaitSignal] holds exactly when there is at least one
    exposure. *)
Theorem KindSetup_binds_context (W : World) (e2eConfig : E2EConfig) (st : state) :
  (forall e, fst (KindSetup W e2eConfig st) = Returned (Some e) ->
             portForwardContext (snd (KindSetup W e2eConfig st)) = portForwardContext st) /\
  (Steps (e2eSetup e2eConfig) <> None ->
   fst (KindSetup W e2eConfig st) = Returned None ->
   portForwardContext (snd (KindSetup W e2eConfig st))
     = Some (context_for (ExposePorts (Kind (e2eSetup e2eConfig)))) /\
   KindShouldWaitSignal (snd (KindSetup W e2eConfig st))
     = (0 <? List.length (ExposePorts (Kind (e2eSetup e2eConfig))))%nat).
Proof.
  destruct (Steps (e2eSetup e2eConfig)) as [steps|] eqn:S.
  - assert (B : binds_on_success (context_for (ExposePorts (Kind (e2eSetup e2eConfig))))
                  (KindSetup W e2eConfig)).
    { unfold KindSetup. rewrite S.
      apply binds_bind; [quiet_steps |]. intros _.
      apply binds_bind; [quiet_steps |]. intros path.
      destruct (String.eqb path ""); [apply binds_error |].
      apply binds_bind; [quiet_steps |]. intros _.
      apply binds_bind; [apply quiet_createKindCluster |]. intros [e|]; [apply binds_error |].
      apply binds_bind; [apply quiet_importImages |]. intros [e|]; [apply binds_error |].
      apply binds_bind; [quiet_steps |]. intros kube.
      apply binds_bind; [quiet_steps |]. intros [e|].
      { apply binds_bind; [quiet_steps |]. intros _. apply binds_error. }
      apply binds_bind; [quiet_steps |]. intros [e|].
      { apply binds_bind; [quiet_steps |]. intros _. apply binds_error. }
      apply binds_logged, binds_exposeKindService. }
    specialize (B st). split.
    + intros e R. rewrite R in B. exact B.
    + intros _ R. rewrite R in B. split; [exact B |].
      unfold KindShouldWaitSignal. rewrite B. reflexivity.
  - split; [| congruence].
    intros e R. unfold KindSetup in *. rewrite S in *. unfold_go. cbn in *.
    destruct (String.eqb (GetFile W (e2eSetup e2eConfig)) ""); cbn in *; [reflexivity |].
    discriminate.
Qed.

Lemma KindSetup_binds_context_witness :
  (fst (KindSetup no_cluster (config_of "kind.yaml" (Some []) 600 two_exports) initial)
     = Returned (Some (ErrExternal "failed to create cluster")) /\
   portForwardContext
     (snd (KindSetup no_cluster (config_of "kind.yaml" (Some []) 600 two_exports) initial))
     = None) /\
  (fst (KindSetup calm (config_of "kind.yaml" (Some []) 600 two_exports) initial)
     = Returned None /\
   portForwardContext
     (snd (KindSetup calm (config_of "kind.yaml" (Some []) 600 two_exports) initial))
     = Some {| stopChannel := 1; resourceCount := 2; resourceFinishedChannel := 2 |} /\
   KindShouldWaitSignal
     (snd (KindSetup calm (config_of "kind.yaml" (Some []) 600 two_exports) initial)) = true).
Proof.
  split.
  - assert (R : fst (KindSetup no_cluster (config_of "kind.yaml" (Some []) 600 two_exports)
                       initial)
                = Returned (Some (ErrExternal "failed to create cluster")))
      by (vm_compute; reflexivity).
    split; [exact R |].
    exact (proj1 (KindSetup_binds_context no_cluster
                    (config_of "kind.yaml" (Some []) 600 two_exports) initial) _ R).
  - assert (R : fst (KindSetup calm (config_of "kind.yaml" (Some []) 600 two_exports) initial)
                = Returned None) by (vm_compute; reflexivity).
    split; [exact R |].
    exact (proj2 (KindSetup_binds_context calm
                    (config_of "kind.yaml" (Some []) 600 two_exports) initial)
             ltac:(discriminate) R).
Defined.

(** ** One stop signal for all the tunnels *)

Section OneStop.

Import Teardown.

Lemma filter_set_nth (p : worker -> bool) w' l : forall i w,
  nth_error l i = Some w ->
  (List.length (filter p (set_nth i w' l)) + (if p w then 1 else 0)
   = List.length (filter p l) + (if p w' then 1 else 0))%nat.
Proof.
  induction l as [|h t IH]; intros [|i] w E; cbn in E; try discriminate.
  - injection E as ->. cbn [set_nth filter].
    destruct (p w), (p w'); cbn [List.length]; lia.
  - cbn [set_nth filter]. specialize (IH i w E).
    destruct (p h); cbn [List.length]; lia.
Qed.

Lemma exited_moved l :
  (List.length (filter exited l) <= List.length (filter moved l))%nat.
Proof.
  induction l as [|[| | |] t IH]; cbn [filter exited moved List.length]; lia.
Qed.

Lemma step_moved a s s' :
  only_stop a = true ->
  step a s = Some s' ->
  (List.length (filter moved (workers s)) + stopBuffered s = stopsSent s)%nat ->
  (List.length (filter moved (workers s')) + stopBuffered s' = stopsSent s')%nat.
Proof.
  intros O E I.
  destruct a as [i | i | i | i | i | | | |]; cbn [step only_stop] in *; try discriminate.
  - destruct (nth_error (workers s) i) as [[| | |]|] eqn:W; try discriminate.
    destruct (stopBuffered s) as [|k]; [discriminate |].
    injection E as <-. cbn.
    pose proof (filter_set_nth moved (Acknowledging false) _ _ _ W) as F. cbn in F. lia.
  - destruct (nth_error (workers s) i) as [[| | |]|] eqn:W; try discriminate.
    injection E as <-. cbn.
    pose proof (filter_set_nth moved (Acknowledging true) _ _ _ W) as F. cbn in F. lia.
  - destruct (nth_error (workers s) i) as [[| |failed|]|] eqn:W; try discriminate.
    destruct (finishedBuffered s <? finishedCap s)%nat; [| discriminate].
    injection E as <-. cbn.
    pose proof (filter_set_nth moved (Exited failed) _ _ _ W) as F. cbn in F. lia.
  - destruct (notify s); try discriminate.
    destruct (context s); injection E as <-; exact I.
  - destruct (notify s); try discriminate.
    destruct (context s) as [c|]; [| discriminate].
    destruct (stopBuffered s <? stopChannel c)%nat; [| discriminate].
    injection E as <-. cbn. lia.
  - destruct (notify s); try discriminate.
    destruct (context s) as [c|]; [| discriminate].
    destruct (finishedBuffered s); [discriminate |].
    destruct (_ <? resourceCount c)%nat; [| discriminate].
    injection E as <-. exact I.
  - destruct (notify s); try discriminate.
    destruct (context s) as [c|]; [| discriminate].
    destruct (_ <? resourceCount c)%nat; [discriminate |].
    injection E as <-. exact I.
Qed.

Lemma run_moved schedule : forall s s',
  forallb only_stop schedule = true ->
  run schedule s = Some s' ->
  (List.length (filter moved (workers s)) + stopBuffered s = stopsSent s)%nat ->
  (List.length (filter moved (workers s')) + stopBuffered s' = stopsSent s')%nat.
Proof.
  induction schedule as [|a rest IH]; intros s s' O R I; cbn [run forallb] in *.
  - injection R as <-. exact I.
  - apply andb_true_iff in O as [O1 O2].
    destruct (step a s) as [s1|] eqn:E; [| discriminate].
    eapply IH; [exact O2 | exact R | eapply step_moved; eassumption].
Qed.

Lemma filter_moved_repeat k : filter moved (repeat Forwarding k) = [].
Proof. induction k; cbn; auto. Qed.

Lemma stops_at_most_one ctx n s :
  drain_invariant ctx n s -> (stopsSent s <= 1)%nat.
Proof.
  intros (_ & _ & _ & N).
  destruct (notify s); [lia | lia | lia |]. destruct ctx; lia.
Qed.

End OneStop.

(** C1.  The barrier is not reached while the tunnels stay up.  The
    three exposures of the scenario are bound, [resourceCount] is 3
    and three workers forward.  [KindCleanNotify] sends one value on
    the stop channel that the three workers share; one worker takes it
    and acknowledges; the notifier receives that one acknowledgement
    and then waits in the loop under the comment "wait all stopped":
    in that state no step of any goroutine is enabled other than a
    tunnel ending on its own.  And however the steps interleave, as
    long as no tunnel ends on its own the call has not returned, one
    stop was sent at most and no second acknowledgement was
    received. *)
Theorem KindCleanNotify_waits_forever :
  fst (exposeKindService calm three_exports 600 "/tmp/e2e-k8s.config" initial)
    = Returned None /\
  Teardown.context three_launched
    = Some {| stopChannel := 1; resourceCount := 3; resourceFinishedChannel := 3 |} /\
  Teardown.workers three_launched
    = [Teardown.Forwarding; Teardown.Forwarding; Teardown.Forwarding] /\
  Teardown.run stop_and_wait three_launched = Some one_stopped /\
  (forall a, only_stop a = true -> Teardown.step a one_stopped = None) /\
  (forall schedule s,
     forallb only_stop schedule = true ->
     Teardown.run schedule three_launched = Some s ->
     Teardown.notify s <> Teardown.Left /\
     (Teardown.stopsSent s <= 1)%nat /\
     (Teardown.acksReceived s <= 1)%nat /\
     (Teardown.acksReceived s < List.length three_exports)%nat).
Proof.
  assert (E : exposeKindService calm three_exports 600 "/tmp/e2e-k8s.config" initial
              = (Returned None,
                 snd (exposeKindService calm three_exports 600 "/tmp/e2e-k8s.config" initial)))
    by (vm_compute; reflexivity).
  split; [rewrite E; reflexivity |].
  split; [vm_compute; reflexivity |].
  split; [vm_compute; reflexivity |].
  split; [vm_compute; reflexivity |].
  split.
  - intros a O.
    destruct a as [i | i | i | i | i | | | |]; cbn [only_stop] in O; try discriminate;
      try reflexivity;
      destruct i as [|[|[|[|i]]]]; reflexivity.
  - intros schedule s O R. unfold three_launched in R.
    destruct (exposeKindService_binds _ _ _ _ _ _ E) as [C S].
    pose proof (run_invariant _ _ _ _ _
                  (launched_invariant three_exports initial
                     (snd (exposeKindService calm three_exports 600 "/tmp/e2e-k8s.config"
                             initial))) R) as I.
    pose proof (stops_at_most_one _ _ _ I) as T.
    assert (M : (List.length (filter moved (Teardown.workers s)) + Teardown.stopBuffered s
                 = Teardown.stopsSent s)%nat).
    { apply (run_moved schedule _ _ O R). unfold Teardown.launched. cbn [Teardown.workers
        Teardown.stopBuffered Teardown.stopsSent].
      rewrite filter_moved_repeat. reflexivity. }
    pose proof (exited_moved (Teardown.workers s)) as X.
    destruct I as (_ & _ & Acks & N).
    assert (A : (Teardown.acksReceived s <= 1)%nat) by lia.
    split; [| split; [exact T | split; [exact A | cbn [three_exports List.length]; lia]]].
    intro L. rewrite L, C in N. cbn [resourceCount three_exports List.length] in N. lia.
Qed.

(** X12.  The stop signal is one value in a channel that all the
    tunnel workers read: as long as no tunnel ends on its own (by a
    lost connection or an error), at most one worker ever leaves
    [ForwardPorts], so with two or more exposures [KindCleanNotify]
    does not return. *)
Theorem one_stop_frees_one_worker (W : World) (exports : list KindExposePort) (timeout : Z)
  (kubeConfig : string) (st st' : state) (schedule : list Teardown.action)
  (s : Teardown.system) :
  exposeKindService W exports timeout kubeConfig st = (Returned None, st') ->
  forallb only_stop schedule = true ->
  Teardown.run schedule (Teardown.launched exports st st') = Some s ->
  (List.length (filter moved (Teardown.workers s)) <= 1)%nat /\
  ((2 <= List.length exports)%nat -> Teardown.notify s <> Teardown.Left).
Proof.
  intros E O R.
  destruct (exposeKindService_binds _ _ _ _ _ _ E) as [C S].
  pose proof (run_invariant _ _ _ _ _ (launched_invariant exports st st') R) as I.
  pose proof (stops_at_most_one _ _ _ I) as T.
  assert (M : (List.length (filter moved (Teardown.workers s)) + Teardown.stopBuffered s
               = Teardown.stopsSent s)%nat).
  { apply (run_moved schedule _ _ O R). unfold Teardown.launched. cbn.
    rewrite filter_moved_repeat. reflexivity. }
  split; [lia |].
  intros N L. destruct I as (_ & _ & X & I). rewrite L, C in I. cbn [resourceCount] in I.
  pose proof (exited_moved (Teardown.workers s)). lia.
Qed.

Lemma one_stop_frees_one_worker_witness :
  Teardown.run stop_and_wait
    (Teardown.launched three_exports initial
       (snd (exposeKindService calm three_exports 600 "/tmp/e2e-k8s.config" initial)))
  = Some {| Teardown.context := Some {| stopChannel := 1; resourceCount := 3;
                                        resourceFinishedChannel := 3 |};
            Teardown.finishedCap := 3;
            Teardown.workers := [Teardown.Exited false; Teardown.Forwarding;
                                 Teardown.Forwarding];
            Teardown.stopBuffered := 0; Teardown.finishedBuffered := 0;
            Teardown.notify := Teardown.AtLoop 1;
            Teardown.stopsSent := 1; Teardown.acksReceived := 1 |} /\
  (List.length (filter moved [Teardown.Exited false; Teardown.Forwarding;
                              Teardown.Forwarding]) <= 1)%nat /\
  Teardown.AtLoop 1 <> Teardown.Left.
Proof.
  assert (E : exposeKindService calm three_exports 600 "/tmp/e2e-k8s.config" initial
              = (Returned None,
                 snd (exposeKindService calm three_exports 600 "/tmp/e2e-k8s.config" initial)))
    by (vm_compute; reflexivity).
  assert (R : Teardown.run stop_and_wait
                (Teardown.launched three_exports initial
                   (snd (exposeKindService calm three_exports 600 "/tmp/e2e-k8s.config"
                           initial)))
              = Some {| Teardown.context := Some {| stopChannel := 1; resourceCount := 3;
                                                    resourceFinishedChannel := 3 |};
                        Teardown.finishedCap := 3;
                        Teardown.workers := [Teardown.Exited false; Teardown.Forwarding;
                                             Teardown.Forwarding];
                        Teardown.stopBuffered := 0; Teardown.finishedBuffered := 0;
                        Teardown.notify := Teardown.AtLoop 1;
                        Teardown.stopsSent := 1; Teardown.acksReceived := 1 |})
    by (vm_compute; reflexivity).
  split; [exact R |].
  destruct (one_stop_frees_one_worker calm three_exports 600 "/tmp/e2e-k8s.config" initial _
              stop_and_wait _ E eq_refl R) as [H1 H2].
  split; [exact H1 | exact (H2 ltac:(cbn; lia))].
Defined.

(** ** Running a command in the container *)

Lemma pollExec_running (W : World) k execID st resp :
  on_ContainerExecInspect W (List.length (trace st)) execID = (resp, None) ->
  Running resp = true ->
  pollExec W (S k) execID st = pollExec W k execID (after_poll execID st).
Proof.
  intros I R. cbn [pollExec]. unfold_go. rewrite I, R. reflexivity.
Qed.

Lemma pollExec_ended (W : World) k execID st resp :
  on_ContainerExecInspect W (List.length (trace st)) execID = (resp, None) ->
  Running resp = false ->
  pollExec W (S k) execID st
  = (Returned (ExitCode resp, None), record (Do (ContainerExecInspect execID)) st).
Proof.
  intros I R. cbn [pollExec]. unfold_go. rewrite I, R. reflexivity.
Qed.

Lemma pollExec_after (W : World) execID (k : nat) : forall fuel st exitCode,
  (forall j, (j < k)%nat ->
     exists resp, on_ContainerExecInspect W (List.length (trace st) + 2 * j) execID
                  = (resp, None) /\ Running resp = true) ->
  on_ContainerExecInspect W (List.length (trace st) + 2 * k) execID
    = ({| Running := false; ExitCode := exitCode |}, None) ->
  (k < fuel)%nat ->
  fst (pollExec W fuel execID st) = Returned (exitCode, None) /\
  slept (trace (snd (pollExec W fuel execID st))) = (slept (trace st) + 100 * Z.of_nat k)%Z.
Proof.
  induction k as [|k IH]; intros fuel st exitCode B G L;
    (destruct fuel as [|fuel]; [lia |]).
  - replace (List.length (trace st) + 2 * 0)%nat with (List.length (trace st)) in G by lia.
    rewrite (pollExec_ended W fuel execID st _ G eq_refl). cbn [fst snd trace record].
    split; [reflexivity |]. rewrite slept_cons. lia.
  - destruct (B 0%nat ltac:(lia)) as (resp & I & R).
    replace (List.length (trace st) + 2 * 0)%nat with (List.length (trace st)) in I by lia.
    rewrite (pollExec_running W fuel execID st resp I R).
    destruct (IH fuel (after_poll execID st) exitCode) as [H1 H2].
    + intros j J. cbn [after_poll trace record List.length].
      replace (S (S (List.length (trace st))) + 2 * j)%nat
        with (List.length (trace st) + 2 * S j)%nat by lia.
      apply B. lia.
    + cbn [after_poll trace record List.length].
      replace (S (S (List.length (trace st))) + 2 * k)%nat
        with (List.length (trace st) + 2 * S k)%nat by lia.
      exact G.
    + lia.
    + rewrite H1, H2. split; [reflexivity |].
      cbn [after_poll trace record]. rewrite !slept_cons. lia.
Qed.

Lemma pollExec_error_code (W : World) fuel : forall execID st exitCode e,
  fst (pollExec W fuel execID st) = Returned (exitCode, Some e) -> exitCode = 0%Z.
Proof.
  induction fuel as [|k IH]; intros execID st exitCode e; cbn [pollExec]; [discriminate |].
  unfold_go.
  destruct (on_ContainerExecInspect W _ execID) as [resp [e'|]]; cbn.
  - intro H. congruence.
  - destruct (Running resp); cbn; [apply IH | discriminate].
Qed.

(** X13.  [Exec] polls the exec every 100 milliseconds until it is no
    longer running and returns the exit code it then has, with a nil
    error; and whenever it returns an error, the exit code with it is
    0. *)
Theorem Exec_polls_until_ended (W : World) (fuel : nat) (c : Container) (cmd : list string)
  (st : state) :
  (forall execID k exitCode,
     on_ContainerExecCreate W (List.length (trace st)) (ID c) cmd = (execID, None) ->
     on_ContainerExecStart W (S (List.length (trace st))) execID = None ->
     (forall j, (j < k)%nat ->
        exists resp, on_ContainerExecInspect W (List.length (trace st) + 2 + 2 * j) execID
                     = (resp, None) /\ Running resp = true) ->
     on_ContainerExecInspect W (List.length (trace st) + 2 + 2 * k) execID
       = ({| Running := false; ExitCode := exitCode |}, None) ->
     (k < fuel)%nat ->
     fst (Exec W fuel c cmd st) = Returned (exitCode, None) /\
     slept (trace (snd (Exec W fuel c cmd st))) = (slept (trace st) + 100 * Z.of_nat k)%Z) /\
  (forall exitCode e, fst (Exec W fuel c cmd st) = Returned (exitCode, Some e) ->
                      exitCode = 0%Z).
Proof.
  split.
  - intros execID k exitCode C St B G L.
    unfold Exec. unfold_go. rewrite C. cbn [trace record List.length]. rewrite St.
    match goal with |- context [pollExec W fuel execID ?s] =>
      destruct (pollExec_after W execID k fuel s exitCode) as [H1 H2] end.
    + intros j J. cbn [trace record List.length].
      replace (S (S (List.length (trace st))) + 2 * j)%nat
        with (List.length (trace st) + 2 + 2 * j)%nat by lia.
      apply B, J.
    + cbn [trace record List.length].
      replace (S (S (List.length (trace st))) + 2 * k)%nat
        with (List.length (trace st) + 2 + 2 * k)%nat by lia.
      exact G.
    + exact L.
    + rewrite H1, H2. split; [reflexivity |]. cbn [trace record]. rewrite !slept_cons. lia.
  - intros exitCode e. unfold Exec. unfold_go.
    destruct (on_ContainerExecCreate W _ (ID c) cmd) as [execID [e'|]]; cbn.
    + intro H. congruence.
    + destruct (on_ContainerExecStart W _ execID) as [e'|]; cbn.
      * intro H. congruence.
      * apply pollExec_error_code.
Qed.

Lemma Exec_polls_until_ended_witness :
  fst (Exec slow_exec 5 es_container ["/bin/sh"; "-c"; "probe"] initial)
    = Returned (7%Z, None) /\
  slept (trace (snd (Exec slow_exec 5 es_container ["/bin/sh"; "-c"; "probe"] initial)))
    = 200%Z.
Proof.
  apply (proj1 (Exec_polls_until_ended slow_exec 5 es_container ["/bin/sh"; "-c"; "probe"]
                  initial) "exec-1" 2%nat 7%Z).
  - reflexivity.
  - reflexivity.
  - intros j J. destruct j as [|[|j]]; [| | lia]; eexists; split; reflexivity.
  - reflexivity.
  - lia.
Defined.

(** ** Resolving a published port *)

Lemma SplitProtoPort_tcp n :
  (0 <= n)%Z -> SplitProtoPort (Itoa n ++ "/tcp") = ("tcp", Itoa n).
Proof.
  intro P. unfold SplitProtoPort.
  change (Itoa n ++ "/tcp") with (Itoa n ++ String "/" "tcp").
  rewrite (Split_cons "/" (Itoa n) "tcp" (Itoa_free "/" n eq_refl P)).
  rewrite (Split_free "/" "tcp" eq_refl).
  pose proof (Itoa_nonempty n P) as NE.
  destruct (Itoa n) as [|c s]; [congruence |]. reflexivity.
Qed.

(** X14.  [MappedPort]: a failed inspection is returned with empty
    port and mode; a container on the network of the host keeps the
    port it was asked for, and the port map is not read; otherwise,
    when the port map begins with the tcp port number that
    [ComposeSetup] asks for and that entry has a binding, the port is
    resolved to the host port of its first binding. *)
Theorem MappedPort_resolves (W : World) (container : Container) (st : state) :
  (forall port i e,
     on_ContainerInspect W (List.length (trace st)) (ID container) = (i, Some e) ->
     MappedPort W container port st
     = (Returned ("", "", Some e), record (Do (ContainerInspect (ID container))) st)) /\
  (forall port i,
     on_ContainerInspect W (List.length (trace st)) (ID container) = (i, None) ->
     NetworkMode i = "host" ->
     MappedPort W container port st
     = (Returned (port, "host", None), record (Do (ContainerInspect (ID container))) st)) /\
  (forall n i1 i2 b bs rest,
     (0 <= n)%Z ->
     on_ContainerInspect W (List.length (trace st)) (ID container) = (i1, None) ->
     NetworkMode i1 <> "host" ->
     on_ContainerInspect W (S (List.length (trace st))) (ID container) = (i2, None) ->
     NetworkSettingsPorts i2 = (Itoa n ++ "/tcp", b :: bs) :: rest ->
     fst (MappedPort W container (Itoa n ++ "/tcp") st)
     = Returned (fst (NewPort W "tcp" (HostPort b)), NetworkMode i1,
                 snd (NewPort W "tcp" (HostPort b)))).
Proof.
  split; [| split].
  - intros port i e I. unfold MappedPort, inspectContainer. unfold_go. rewrite I. reflexivity.
  - intros port i I H. unfold MappedPort, inspectContainer. unfold_go. rewrite I, H.
    reflexivity.
  - intros n i1 i2 b bs rest P I1 M I2 N.
    unfold MappedPort, PortsOf, inspectContainer. unfold_go. cbn [trace record List.length].
    rewrite I1. apply String.eqb_neq in M. rewrite M.
    cbn [trace record List.length]. rewrite I2, N.
    cbn [findMapped]. unfold PortOf, Proto. rewrite (SplitProtoPort_tcp n P).
    cbn [fst snd]. rewrite String.eqb_refl. cbn.
    destruct (NewPort W "tcp" (HostPort b)). reflexivity.
Qed.

Lemma MappedPort_resolves_witness :
  MappedPort host_network es_container "9200/tcp" initial
    = (Returned ("9200/tcp", "host", None), record (Do (ContainerInspect "c0ffee")) initial) /\
  fst (MappedPort calm es_container (Itoa 9200 ++ "/tcp") initial)
    = Returned ("32001/tcp", "default", None).
Proof.
  split.
  - exact (proj1 (proj2 (MappedPort_resolves host_network es_container initial))
             "9200/tcp" _ eq_refl eq_refl).
  - exact (proj2 (proj2 (MappedPort_resolves calm es_container initial))
             9200%Z _ _ _ _ _ ltac:(lia) eq_refl ltac:(discriminate) eq_refl eq_refl).
Defined.

(** X15.  In the loop over the port table of the container the first
    entry with the expected private port decides: the entries before
    it are passed over, and no entry after it is looked at, whatever
    the probes of the first one give. *)
Theorem resolvePort_first_match (W : World) (fuel : nat) (ip service : string)
  (container : Container) (expect : hostPortCachedStrategy)
  (pre rest : list DockerPort) (p : DockerPort) (st : state) :
  (forall q, In q pre -> PrivatePort q <> expectPort expect) ->
  PrivatePort p = expectPort expect ->
  resolvePort W fuel ip service container expect (pre ++ p :: rest) st
  = resolvePort W fuel ip service container expect [p] st.
Proof.
  intros N E. induction pre as [|q pre IH]; cbn [app].
  - cbn [resolvePort]. rewrite E, Z.eqb_refl. reflexivity.
  - cbn [resolvePort].
    destruct (Z.eqb_spec (PrivatePort q) (expectPort expect)) as [Q|_].
    + elim (N q (or_introl eq_refl) Q).
    + cbn [negb]. apply IH. intros r R. apply N. right. exact R.
Qed.

Lemma resolvePort_first_match_witness :
  resolvePort calm 3 "172.17.0.1" "es" es_container
    {| expectPort := 9200; startupTimeout := 600 * Second |}
    ([{| PrivatePort := 9300; PublicPort := 32002 |}]
     ++ {| PrivatePort := 9200; PublicPort := 32001 |}
     :: [{| PrivatePort := 9200; PublicPort := 40000 |}]) initial
  = resolvePort calm 3 "172.17.0.1" "es" es_container
      {| expectPort := 9200; startupTimeout := 600 * Second |}
      [{| PrivatePort := 9200; PublicPort := 32001 |}] initial.
Proof.
  apply (resolvePort_first_match calm 3 "172.17.0.1" "es" es_container
           {| expectPort := 9200; startupTimeout := 600 * Second |}
           [{| PrivatePort := 9300; PublicPort := 32002 |}]
           [{| PrivatePort := 9200; PublicPort := 40000 |}]
           {| PrivatePort := 9200; PublicPort := 32001 |} initial).
  - intros q [<- | []]. discriminate.
  - reflexivity.
Defined.

(** ** The environment keys of a compose stack *)

Lemma adds_weaken (P Q : string -> Prop) {A} (m : M A) :
  (forall k, P k -> Q k) -> adds_keys P m -> adds_keys Q m.
Proof.
  intros I H st. destruct (H st) as (evs & T & F).
  exists evs. split; [exact T |]. eapply Forall_impl; eassumption.
Qed.

Ltac adds_steps :=
  repeat first [ apply adds_ret | apply adds_log
               | apply adds_call; intros ? ? ?; discriminate
               | apply adds_bind; [| intros ?]
               | match goal with
                 | |- adds_keys _ (match ?x with _ => _ end) => destruct x
                 | |- adds_keys _ (if ?x then _ else _) => destruct x
                 end ].

Definition no_key (k : string) : Prop := False.

Lemma adds_unfinished (P : string -> Prop) {A} : adds_keys P (@unfinished A).
Proof. intro st. exists []. split; [reflexivity | constructor]. Qed.

Lemma adds_findContainer (W : World) name : adds_keys no_key (findContainer W name).
Proof. unfold findContainer. adds_steps. Qed.

Lemma adds_inspectContainer (W : World) c : adds_keys no_key (inspectContainer W c).
Proof. unfold inspectContainer. adds_steps. Qed.

Lemma adds_PortsOf (W : World) c : adds_keys no_key (PortsOf W c).
Proof.
  unfold PortsOf. apply adds_bind; [apply adds_inspectContainer |]. intros a. adds_steps.
Qed.

Lemma adds_MappedPort (W : World) c port : adds_keys no_key (MappedPort W c port).
Proof.
  unfold MappedPort. apply adds_bind; [apply adds_inspectContainer |].
  intros [[i|] [e|]]; try (apply adds_ret).
  destruct (String.eqb (NetworkMode i) "host"); [apply adds_ret |].
  apply adds_bind; [apply adds_PortsOf |]. intros a. adds_steps.
Qed.

Lemma adds_pollExec (W : World) fuel : forall execID, adds_keys no_key (pollExec W fuel execID).
Proof.
  induction fuel as [|k IH]; intro execID; cbn [pollExec]; [apply adds_unfinished |].
  apply adds_bind; [adds_steps |]. intros [resp [e|]]; [apply adds_ret |].
  destruct (negb (Running resp)); [apply adds_ret |].
  apply adds_bind; [adds_steps | intros _; apply IH].
Qed.

Lemma adds_Exec (W : World) fuel c cmd : adds_keys no_key (Exec W fuel c cmd).
Proof.
  unfold Exec. apply adds_bind; [adds_steps |]. intros [id [e|]]; [apply adds_ret |].
  apply adds_bind; [adds_steps |]. intros [e|]; [apply adds_ret | apply adds_pollExec].
Qed.

Lemma adds_externalCheck (W : World) fuel : forall address,
  adds_keys no_key (externalCheck W fuel address).
Proof.
  induction fuel as [|k IH]; intro address; cbn [externalCheck]; [apply adds_unfinished |].
  apply adds_bind; [adds_steps |]. intros _.
  apply adds_bind; [adds_steps |]. intros [e|].
  - apply adds_bind; [adds_steps |]. intros _.
    apply adds_bind; [adds_steps |]. intros _. apply IH.
  - adds_steps.
Qed.

Lemma adds_internalCheck (W : World) pollFuel c command : forall fuel,
  adds_keys no_key (internalCheck W fuel pollFuel c command).
Proof.
  induction fuel as [|k IH]; cbn [internalCheck]; [apply adds_unfinished |].
  apply adds_bind; [apply adds_Exec |]. intros [exitCode [e|]]; [apply adds_ret |].
  destruct (exitCode =? 0)%Z; [apply adds_ret |].
  destruct (exitCode =? 126)%Z; [apply adds_ret | exact IH].
Qed.

Lemma adds_logBindings bindings : adds_keys no_key (logBindings bindings).
Proof. induction bindings as [|b rest IH]; cbn [logBindings]; adds_steps. exact IH. Qed.

Lemma adds_logPorts ports : adds_keys no_key (logPorts ports).
Proof.
  induction ports as [|[k b] rest IH]; cbn [logPorts]; [adds_steps |].
  apply adds_bind; [adds_steps |]. intros _.
  apply adds_bind; [apply adds_logBindings |]. intros _. exact IH.
Qed.

Lemma adds_exportComposeEnv (W : World) (P : string -> Prop) key value service :
  P key -> adds_keys P (exportComposeEnv W key value service).
Proof.
  intro K. unfold exportComposeEnv. apply adds_bind.
  - apply adds_call. intros k v E. injection E as <- _. exact K.
  - intros [e|]; adds_steps.
Qed.

Lemma no_key_any (P : string -> Prop) k : no_key k -> P k.
Proof. intros []. Qed.

Lemma adds_resolvePort (W : World) fuel ip service c expect containerPorts :
  adds_keys (fun k => prefix (service ++ "_") k = true)
            (resolvePort W fuel ip service c expect containerPorts).
Proof.
  induction containerPorts as [|p rest IH]; cbn [resolvePort]; [apply adds_ret |].
  destruct (negb (PrivatePort p =? expectPort expect)%Z); [exact IH |].
  apply adds_bind;
    [eapply adds_weaken; [apply no_key_any | apply adds_MappedPort] |]. intros _.
  apply adds_bind; [adds_steps |]. intros _.
  apply adds_bind;
    [eapply adds_weaken; [apply no_key_any | apply adds_externalCheck] |]. intros _.
  apply adds_bind;
    [eapply adds_weaken; [apply no_key_any | apply adds_internalCheck] |].
  intros [e|]; [apply adds_ret |].
  apply adds_bind; [adds_steps |]. intros _.
  apply adds_bind; [apply adds_exportComposeEnv, prefix_underscore |].
  intros [e|]; apply adds_ret.
Qed.

Lemma adds_resolvePorts (W : World) fuel ip service c portList :
  adds_keys (fun k => prefix (service ++ "_") k = true)
            (resolvePorts W fuel ip service c portList).
Proof.
  induction portList as [|expect rest IH]; cbn [resolvePorts]; [apply adds_ret |].
  apply adds_bind; [apply adds_resolvePort |]. intros [e|]; [apply adds_ret | exact IH].
Qed.

(** X16.  Every environment variable that the loop over the services
    sets is named after a service that has at least one declared port:
    its key starts with the name of such a service and an underscore.
    A service with an empty port list sets none. *)
Theorem resolveServices_env_keys (W : World) (fuel : nat) (ip identifier : string)
  (serviceWithPorts : list (string * list hostPortCachedStrategy)) (st : state) :
  exists evs,
    trace (snd (resolveServices W fuel ip identifier serviceWithPorts st))
      = (evs ++ trace st)%list /\
    Forall (key_of_some (map fst (filter with_ports serviceWithPorts))) (env_keys evs).
Proof.
  revert st. change (adds_keys (key_of_some (map fst (filter with_ports serviceWithPorts)))
                       (resolveServices W fuel ip identifier serviceWithPorts)).
  induction serviceWithPorts as [|[service portList] rest IH]; cbn [resolveServices];
    [apply adds_ret |].
  assert (R : adds_keys (key_of_some (map fst (filter with_ports ((service, portList) :: rest))))
                (resolveServices W fuel ip identifier rest)).
  { eapply adds_weaken; [| exact IH].
    intros k (s & I & Pk). exists s. split; [| exact Pk].
    cbn [filter]. destruct (with_ports (service, portList)); [right |]; exact I. }
  apply adds_bind;
    [eapply adds_weaken; [apply no_key_any | apply adds_findContainer] |].
  intros [[c|] [e|]]; try apply adds_ret.
  destruct portList as [|expect more]; [exact R |].
  assert (Here : forall k, prefix (service ++ "_") k = true ->
                   key_of_some (map fst (filter with_ports ((service, expect :: more) :: rest)))
                     k).
  { intros k Pk. exists service. split; [left; reflexivity | exact Pk]. }
  apply adds_bind; [apply adds_exportComposeEnv, Here, (prefix_underscore _ "host") |].
  intros [e|]; [apply adds_ret |].
  apply adds_bind;
    [eapply adds_weaken; [apply no_key_any | apply adds_PortsOf] |]. intros [ports e].
  apply adds_bind;
    [eapply adds_weaken; [apply no_key_any | apply adds_logPorts] |]. intros _.
  apply adds_bind; [eapply adds_weaken; [exact Here | apply adds_resolvePorts] |].
  intros [e'|]; [apply adds_ret | exact R].
Qed.

(** ** The two sides of an exposed port *)

Lemma colon_cases (s : string) :
  (Contains s ":" = false /\ free_of ":" s = true) \/
  (Contains s ":" = true /\
   exists h rest, s = h ++ String ":" rest /\ free_of ":" h = true).
Proof.
  induction s as [|c s IH]; [left; split; reflexivity |].
  cbn [Contains]. rewrite prefix_byte.
  destruct (Ascii.eqb_spec c ":") as [->|N].
  - right. split; [reflexivity |]. exists "", s. split; reflexivity.
  - destruct IH as [[C F] | [C (h & rest & -> & F)]].
    + left. split; [exact C |]. cbn [free_of]. rewrite F.
      apply Ascii.eqb_neq in N. rewrite N. reflexivity.
    + right. split; [exact C |]. exists (String c h), rest. split; [reflexivity |].
      cbn [free_of]. rewrite F. apply Ascii.eqb_neq in N. rewrite N. reflexivity.
Qed.

Lemma Itoa_negative n : (n < 0)%Z -> Itoa n = String "-" (Itoa (- n)).
Proof.
  intro H. unfold Itoa.
  destruct (Z.ltb_spec n 0); [| lia]. destruct (Z.ltb_spec (- n) 0); [lia |]. reflexivity.
Qed.

Lemma Itoa_free_colon n : free_of ":" (Itoa n) = true.
Proof.
  destruct (Z.ltb_spec n 0) as [H|H].
  - rewrite (Itoa_negative _ H). cbn [free_of].
    rewrite (Itoa_free ":" (- n) eq_refl ltac:(lia)). reflexivity.
  - apply Itoa_free; [reflexivity | exact H].
Qed.

Lemma Split_two h t :
  free_of ":" h = true -> free_of ":" t = true -> Split (h ++ String ":" t) ":" = [h; t].
Proof. intros Fh Ft. rewrite (Split_cons _ _ _ Fh), (Split_free _ _ Ft). reflexivity. Qed.

Lemma Split_no_local t : free_of ":" t = true -> Split (String ":" t) ":" = [""; t].
Proof. intro F. exact (Split_two "" t eq_refl F). Qed.

Lemma remote_token_colon h rest :
  free_of ":" h = true ->
  remote_token (h ++ String ":" rest) = nth 0 (Split rest ":") "" /\
  local_token (h ++ String ":" rest) = h.
Proof.
  intro F. unfold remote_token, local_token.
  destruct (colon_cases (h ++ String ":" rest)) as [[C F'] | [C _]].
  - exfalso. clear C. induction h as [|c h IH]; cbn [append free_of] in *.
    + discriminate.
    + apply andb_true_iff in F as [_ F]. apply andb_true_iff in F' as [_ F']. auto.
  - rewrite C, (Split_cons _ _ _ F). split; reflexivity.
Qed.

(** X17.  For a Service, a port that [buildKindPort] resolves is
    forwarded to the resolved container port: the tunnel request
    [waitExpose] has the local side that was typed (empty when none was)
    and, after the colon, the decimal numeral of [realPort], whether the
    remote side was typed as that number, as another number or as a port
    name; [inputPort] keeps the remote side as typed. *)
Theorem buildKindPort_service_tunnel (W : World) (port service : string) (pod : Pod)
  (kp : kindPort) :
  buildKindPort W port (ObjService service) pod = (Some kp, None) ->
  inputPort kp = remote_token port /\
  nth 0 (Split (waitExpose kp) ":") "" = local_token port /\
  nth 1 (Split (waitExpose kp) ":") "" = Itoa (realPort kp).
Proof.
  unfold buildKindPort.
  destruct (colon_cases port) as [[C F] | [C (h & rest & E & F)]].
  - rewrite C. unfold remote_token, local_token. rewrite C.
    destruct (ParseInt10 "ParseInt" port 32) as [n [e|]].
    + destruct (LookupServicePortNumberByName W service port) as [m [e1|]];
        [discriminate |].
      destruct (LookupContainerPortNumberByServicePort W service pod m) as [cp [e2|]];
        [discriminate |].
      intro H. injection H as <-. cbn [inputPort waitExpose realPort].
      split; [reflexivity |].
      destruct (String.eqb_spec (Itoa cp) port) as [<-|_].
      * cbn [append]. rewrite (Split_no_local _ (Itoa_free_colon cp)). split; reflexivity.
      * cbn [append]. rewrite (Split_no_local _ (Itoa_free_colon cp)). split; reflexivity.
    + destruct (LookupContainerPortNumberByServicePort W service pod n) as [cp [e2|]];
        [discriminate |].
      intro H. injection H as <-. cbn [inputPort waitExpose realPort].
      split; [reflexivity |].
      destruct (String.eqb_spec (Itoa cp) port) as [<-|_].
      * cbn [append]. rewrite (Split_no_local _ (Itoa_free_colon cp)). split; reflexivity.
      * cbn [append]. rewrite (Split_no_local _ (Itoa_free_colon cp)). split; reflexivity.
  - rewrite C. destruct (remote_token_colon h rest F) as [R L].
    rewrite E, R, L. rewrite <- E.
    assert (S1 : Split port ":" = h :: Split rest ":") by (rewrite E; apply Split_cons, F).
    rewrite S1. cbn [nth].
    destruct (Split rest ":") as [|r rs] eqn:SR; [exfalso; exact (Split_nonempty _ _ SR) |].
    cbn [nth].
    assert (Fin : forall (cp : Z),
              inputPort {| inputPort := r; realPort := cp;
                           waitExpose := if String.eqb (Itoa cp) r then port
                                         else h ++ ":" ++ Itoa cp |} = r /\
              nth 0 (Split (if String.eqb (Itoa cp) r then port
                            else h ++ ":" ++ Itoa cp) ":") "" = h /\
              nth 1 (Split (if String.eqb (Itoa cp) r then port
                            else h ++ ":" ++ Itoa cp) ":") "" = Itoa cp).
    { intro cp. split; [reflexivity |].
      destruct (String.eqb_spec (Itoa cp) r) as [->|_].
      - rewrite S1. split; reflexivity.
      - cbn [append]. rewrite (Split_two h (Itoa cp) F (Itoa_free_colon cp)). split; reflexivity. }
    destruct (ParseInt10 "ParseInt" r 32) as [n [e|]].
    + destruct (LookupServicePortNumberByName W service r) as [m [e1|]];
        [discriminate |].
      destruct (LookupContainerPortNumberByServicePort W service pod m) as [cp [e2|]];
        [discriminate |].
      intro H. injection H as <-. apply Fin.
    + destruct (LookupContainerPortNumberByServicePort W service pod n) as [cp [e2|]];
        [discriminate |].
      intro H. injection H as <-. apply Fin.
Qed.

Lemma buildKindPort_service_tunnel_witness :
  buildKindPort named_port "9090:http" (ObjService "web")
    {| podNamespace := "default"; podName := "web-0" |}
  = (Some {| inputPort := "http"; realPort := 8080; waitExpose := "9090:8080" |}, None) /\
  inputPort {| inputPort := "http"; realPort := 8080; waitExpose := "9090:8080" |}
  = remote_token "9090:http" /\
  nth 0 (Split (waitExpose {| inputPort := "http"; realPort := 8080;
                              waitExpose := "9090:8080" |}) ":") ""
  = local_token "9090:http" /\
  nth 1 (Split (waitExpose {| inputPort := "http"; realPort := 8080;
                              waitExpose := "9090:8080" |}) ":") ""
  = Itoa (realPort {| inputPort := "http"; realPort := 8080; waitExpose := "9090:8080" |}).
Proof.
  split; [reflexivity |].
  apply (buildKindPort_service_tunnel named_port "9090:http" "web"
           {| podNamespace := "default"; podName := "web-0" |}).
  reflexivity.
Defined.

(** ** The keys of one exposure *)

Lemma buildKindPort_inputPort (W : World) port ro pod kp e :
  buildKindPort W port ro pod = (Some kp, e) -> inputPort kp = remote_token port.
Proof.
  unfold buildKindPort, remote_token.
  destruct (Contains port ":");
    (destruct ro as [service | kind name];
     [ destruct (ParseInt10 _ _ _) as [n [e0|]];
       [ destruct (LookupServicePortNumberByName _ _ _) as [m [e1|]]; [discriminate |] |];
       destruct (LookupContainerPortNumberByServicePort _ _ _ _) as [cp [e2|]];
       try discriminate; intro H; injection H as <- _; reflexivity
     | destruct (Atoi _) as [n [e0|]];
       [ destruct (LookupContainerPortNumberByName _ _ _) as [cp [e1|]]; [discriminate |] |];
       intro H; injection H as <- _; reflexivity ]).
Qed.

Lemma buildKindPorts_inputPort (W : World) ro pod : forall ports kps e,
  buildKindPorts W ports ro pod = (kps, e) ->
  Forall (fun kp => exists p, In p ports /\ inputPort kp = remote_token p) kps.
Proof.
  induction ports as [|p rest IH]; intros kps e H; cbn [buildKindPorts] in H.
  - injection H as <- _. constructor.
  - destruct (buildKindPort W p ro pod) as [[kp|] [e0|]] eqn:B;
      try (injection H as <- _; constructor).
    destruct (buildKindPorts W rest ro pod) as [kps' e'] eqn:R.
    injection H as <- _. constructor.
    + exists p. split; [left; reflexivity | exact (buildKindPort_inputPort _ _ _ _ _ _ B)].
    + eapply Forall_impl; [| exact (IH _ _ eq_refl)].
      intros k (q & I & E). exists q. split; [right; exact I | exact E].
Qed.

Lemma adds_exportMatching_tokens (W : World) (P : string -> Prop) rn res p convertedPorts :
  Forall (fun kp => P (rn ++ "_" ++ inputPort kp)) convertedPorts ->
  adds_keys P (exportMatching W rn res p convertedPorts).
Proof.
  induction 1 as [|kp rest K _ IH]; cbn [exportMatching]; [apply adds_ret |].
  destruct (Remote p =? realPort kp)%Z; [| exact IH].
  apply adds_bind; [apply adds_exportKindEnv, K |].
  intros [e|]; [apply adds_ret | exact IH].
Qed.

Lemma adds_exportForwarded_tokens (W : World) (P : string -> Prop) rn res exportedPorts
  convertedPorts :
  Forall (fun kp => P (rn ++ "_" ++ inputPort kp)) convertedPorts ->
  adds_keys P (exportForwarded W rn res exportedPorts convertedPorts).
Proof.
  intro K. induction exportedPorts as [|p rest IH]; cbn [exportForwarded]; [apply adds_ret |].
  apply adds_bind; [apply adds_exportMatching_tokens, K |].
  intros [e|]; [apply adds_ret | exact IH].
Qed.

(** X18.  The environment variables of one exposure: every key that
    [exposePerKindService] sets is [<name>_host] or [<name>_<remote>],
    where [<name>] is the sanitized resource name and [<remote>] is the
    remote side, as typed, of one of the comma-separated entries of
    [Port]: a port given by name is exported under its name, not under
    the number it resolves to. *)
Theorem exposePerKindService_env_keys (W : World) (port : KindExposePort) (timeout : Z)
  (forward : kindPortForwardContext) (st : state) :
  exists evs,
    trace (snd (exposePerKindService W port timeout forward st)) = (evs ++ trace st)%list /\
    Forall (kind_key port) (env_keys evs).
Proof.
  revert st. change (adds_keys (kind_key port) (exposePerKindService W port timeout forward)).
  unfold exposePerKindService.
  apply adds_bind; [adds_steps |]. intros [obj [e|]]; [apply adds_ret |].
  apply adds_bind; [adds_steps |]. intros [pod [e|]]; [apply adds_ret |].
  destruct (buildKindPorts W _ obj pod) as [convertedPorts [e|]] eqn:B; [apply adds_ret |].
  apply adds_bind; [adds_steps |]. intros [e|]; [apply adds_ret |].
  apply adds_bind; [adds_steps |]. intros _.
  apply adds_bind; [adds_steps |]. intros [stderr [e|]]; [apply adds_ret |].
  apply adds_bind; [adds_steps |]. intros [exportedPorts [e|]]; [apply adds_ret |].
  apply adds_bind; [apply adds_exportKindEnv; left; reflexivity |].
  intros [e|]; [apply adds_ret |].
  apply adds_bind.
  - apply adds_exportForwarded_tokens.
    eapply Forall_impl; [| exact (buildKindPorts_inputPort _ _ _ _ _ _ B)].
    intros kp (p & I & E). right. exists p. split; [exact I | rewrite E; reflexivity].
  - intros [e|]; apply adds_ret.
Qed.

(** ** The flags of a wait *)

(** X19.  When [getWaitOptions] returns options, the resource is not
    empty, the flags carry the default timeout of a single wait and the
    condition of the wait block, and the label selector and the [All]
    flag are never set together: the selector is set exactly when the
    wait block has one, [All] exactly when it has none and the resource
    is a bare kind without a ['/']; a [kind/name] resource gets
    neither. *)
Theorem getWaitOptions_flags (W : World) (yaml : string) (wait : Wait) (st st' : state)
  (flags : WaitFlags) :
  getWaitOptions W yaml wait st = (Returned (Some flags, None), st') ->
  wResource wait <> "" /\
  flagTimeout flags = SingleDefaultWaitTimeout W /\
  flagForCondition flags = wFor wait /\
  (flagLabelSelector flags = None \/ flagAll flags = None) /\
  (wLabelSelector wait <> "" -> flagLabelSelector flags = Some (wLabelSelector wait)) /\
  (wLabelSelector wait = "" -> flagLabelSelector flags = None) /\
  (flagAll flags = Some true <->
     wLabelSelector wait = "" /\ Contains (wResource wait) "/" = false) /\
  (flagAll flags = None \/ flagAll flags = Some true) /\
  (Contains (wResource wait) "/" = true ->
     flagLabelSelector flags = None /\ flagAll flags = None).
Proof.
  unfold getWaitOptions.
  destruct (Contains (wResource wait) "/") eqn:C;
    destruct (String.eqb_spec (wLabelSelector wait) "") as [L|L];
    cbn [andb negb]; unfold_go; try discriminate;
    (destruct (String.eqb_spec (wResource wait) "") as [R|R]; cbn [negb];
     [discriminate |]);
    destruct (on_WaitFlagsToOptions W _ _) as [e|]; try discriminate;
    intro H; injection H as <- _; cbn;
    repeat split; auto; try discriminate; try congruence;
    try (intros [? ?]; congruence); try (intro; discriminate).
Qed.

Lemma getWaitOptions_flags_witness :
  getWaitOptions calm "apiVersion: v1"
    {| wNamespace := "default"; wResource := "pod"; wFor := "condition=Ready";
       wLabelSelector := "" |} initial
  = (Returned (Some {| flagTimeout := SingleDefaultWaitTimeout calm;
                       flagForCondition := "condition=Ready";
                       flagLabelSelector := None; flagAll := Some true |}, None),
     record (Do (WaitFlagsToOptions ["pod"])) (record (Do OpenDevNull) initial)) /\
  (flagAll {| flagTimeout := SingleDefaultWaitTimeout calm;
              flagForCondition := "condition=Ready";
              flagLabelSelector := None; flagAll := Some true |} = Some true <->
   "" = "" /\ Contains "pod" "/" = false).
Proof.
  split; [reflexivity |].
  apply (getWaitOptions_flags calm "apiVersion: v1"
           {| wNamespace := "default"; wResource := "pod"; wFor := "condition=Ready";
              wLabelSelector := "" |} initial
           (record (Do (WaitFlagsToOptions ["pod"])) (record (Do OpenDevNull) initial))
           {| flagTimeout := SingleDefaultWaitTimeout calm;
              flagForCondition := "condition=Ready";
              flagLabelSelector := None; flagAll := Some true |}).
  reflexivity.
Defined.

(** ** The order of [ComposeSetup] *)

Lemma emits_ret Q {A} (a : A) : emits Q (ret a).
Proof. intro st. exists []. split; reflexivity. Qed.

Lemma emits_unfinished Q {A} : emits Q (@unfinished A).
Proof. intro st. exists []. split; reflexivity. Qed.

Lemma emits_panic Q {A} msg : emits Q (@panic A msg).
Proof. intro st. exists []. split; reflexivity. Qed.

Lemma emits_log Q l f : Q (Log l f) = true -> emits Q (log l f).
Proof. intros H st. exists [Log l f]. split; [reflexivity |]. cbn. rewrite H. reflexivity. Qed.

Lemma emits_call Q {A} (o : op) (answer : nat -> A) :
  Q (Do o) = true -> emits Q (call o answer).
Proof. intros H st. exists [Do o]. split; [reflexivity |]. cbn. rewrite H. reflexivity. Qed.

Lemma emits_bind Q {A B} (m : M A) (k : A -> M B) :
  emits Q m -> (forall a, emits Q (k a)) -> emits Q (bind m k).
Proof.
  intros Hm Hk st. unfold bind.
  destruct (Hm st) as (e1 & T1 & F1).
  destruct (m st) as [[a | | msg] st1]; cbn [snd] in *.
  - destruct (Hk a st1) as (e2 & T2 & F2).
    exists (e2 ++ e1)%list. rewrite T2, T1, app_assoc. split; [reflexivity |].
    rewrite forallb_app, F1, F2. reflexivity.
  - exists e1. auto.
  - exists e1. auto.
Qed.

Ltac emits_steps :=
  repeat first [ assumption
               | apply emits_ret | apply emits_unfinished | apply emits_panic
               | apply emits_log; reflexivity
               | apply emits_call; reflexivity
               | match goal with
                 | |- emits _ (bind _ _) => apply emits_bind; [| intros ?]
                 | |- emits _ (match ?x with _ => _ end) => destruct x
                 | |- emits _ (if ?x then _ else _) => destruct x
                 end ].

Lemma emits_inAContainer (W : World) : emits preparation (inAContainer W).
Proof. unfold inAContainer. emits_steps. Qed.

Lemma emits_getDefaultNetwork (W : World) : emits preparation (getDefaultNetwork W).
Proof. unfold getDefaultNetwork. emits_steps. Qed.

Lemma emits_getGatewayIP (W : World) : emits preparation (getGatewayIP W).
Proof.
  unfold getGatewayIP, GetNetwork.
  apply emits_bind; [apply emits_getDefaultNetwork |]. intros [network e]. emits_steps.
Qed.

Lemma emits_bindServices waitTimeout : forall services,
  emits preparation (bindServices services waitTimeout).
Proof.
  induction services as [|[service content] rest IH]; cbn [bindServices]; emits_steps.
Qed.

Lemma emits_findContainer (W : World) name : emits no_compose (findContainer W name).
Proof. unfold findContainer. emits_steps. Qed.

Lemma emits_inspectContainer (W : World) c : emits no_compose (inspectContainer W c).
Proof. unfold inspectContainer. emits_steps. Qed.

Lemma emits_PortsOf (W : World) c : emits no_compose (PortsOf W c).
Proof.
  unfold PortsOf. apply emits_bind; [apply emits_inspectContainer |]. intros a. emits_steps.
Qed.

Lemma emits_MappedPort (W : World) c port : emits no_compose (MappedPort W c port).
Proof.
  unfold MappedPort. apply emits_bind; [apply emits_inspectContainer |].
  intros [[i|] [e|]]; try (apply emits_ret).
  destruct (String.eqb (NetworkMode i) "host"); [apply emits_ret |].
  apply emits_bind; [apply emits_PortsOf |]. intros a. emits_steps.
Qed.

Lemma emits_pollExec (W : World) fuel : forall execID, emits no_compose (pollExec W fuel execID).
Proof.
  induction fuel as [|k IH]; intro execID; cbn [pollExec]; emits_steps. apply IH.
Qed.

Lemma emits_Exec (W : World) fuel c cmd : emits no_compose (Exec W fuel c cmd).
Proof. unfold Exec. emits_steps. apply emits_pollExec. Qed.

Lemma emits_externalCheck (W : World) fuel : forall address,
  emits no_compose (externalCheck W fuel address).
Proof.
  induction fuel as [|k IH]; intro address; cbn [externalCheck]; emits_steps. apply IH.
Qed.

Lemma emits_internalCheck (W : World) pollFuel c command : forall fuel,
  emits no_compose (internalCheck W fuel pollFuel c command).
Proof.
  induction fuel as [|k IH]; cbn [internalCheck]; [apply emits_unfinished |].
  apply emits_bind; [apply emits_Exec |]. intros a. emits_steps.
Qed.

Lemma emits_logBindings bindings : emits no_compose (logBindings bindings).
Proof. induction bindings as [|b rest IH]; cbn [logBindings]; emits_steps. Qed.

Lemma emits_logPorts ports : emits no_compose (logPorts ports).
Proof.
  induction ports as [|[k b] rest IH]; cbn [logPorts]; [apply emits_ret |].
  apply emits_bind; [emits_steps |]. intros _.
  apply emits_bind; [apply emits_logBindings |]. intros _. exact IH.
Qed.

Lemma emits_exportComposeEnv (W : World) key value service :
  emits no_compose (exportComposeEnv W key value service).
Proof. unfold exportComposeEnv. emits_steps. Qed.

Lemma emits_resolvePort (W : World) fuel ip service c expect containerPorts :
  emits no_compose (resolvePort W fuel ip service c expect containerPorts).
Proof.
  induction containerPorts as [|p rest IH]; cbn [resolvePort]; [apply emits_ret |].
  destruct (negb (PrivatePort p =? expectPort expect)%Z); [exact IH |].
  apply emits_bind; [apply emits_MappedPort |]. intros _.
  apply emits_bind; [emits_steps |]. intros _.
  apply emits_bind; [apply emits_externalCheck |]. intros _.
  apply emits_bind; [apply emits_internalCheck |]. intros [e|]; [apply emits_ret |].
  apply emits_bind; [emits_steps |]. intros _.
  apply emits_bind; [apply emits_exportComposeEnv |]. intros [e|]; apply emits_ret.
Qed.

Lemma emits_resolvePorts (W : World) fuel ip service c portList :
  emits no_compose (resolvePorts W fuel ip service c portList).
Proof.
  induction portList as [|expect rest IH]; cbn [resolvePorts]; [apply emits_ret |].
  apply emits_bind; [apply emits_resolvePort |]. intros [e|]; [apply emits_ret | exact IH].
Qed.

Lemma emits_resolveServices (W : World) fuel ip identifier serviceWithPorts :
  emits no_compose (resolveServices W fuel ip identifier serviceWithPorts).
Proof.
  induction serviceWithPorts as [|[service portList] rest IH]; cbn [resolveServices];
    [apply emits_ret |].
  apply emits_bind; [apply emits_findContainer |].
  intros [[c|] [e|]]; try apply emits_ret.
  destruct portList as [|expect more]; [exact IH |].
  apply emits_bind; [apply emits_exportComposeEnv |]. intros [e|]; [apply emits_ret |].
  apply emits_bind; [apply emits_PortsOf |]. intros [ports e].
  apply emits_bind; [apply emits_logPorts |]. intros _.
  apply emits_bind; [apply emits_resolvePorts |]. intros [e'|]; [apply emits_ret | exact IH].
Qed.

Lemma staged_preparation {A} (m : M A) : emits preparation m -> staged m.
Proof.
  intros H st. destruct (H st) as (evs & T & F).
  exists evs, []. split; [exact T |]. split; [exact F | left; reflexivity].
Qed.

Lemma staged_bind {A B} (m : M A) (k : A -> M B) :
  emits preparation m -> (forall a, staged (k a)) -> staged (bind m k).
Proof.
  intros Hm Hk st. unfold bind.
  destruct (Hm st) as (e1 & T1 & F1).
  destruct (m st) as [[a | | msg] st1]; cbn [snd] in *.
  - destruct (Hk a st1) as (pre & post & T2 & F2 & P).
    exists (pre ++ e1)%list, post. rewrite T2, T1, <- app_assoc.
    split; [reflexivity |]. rewrite forallb_app, F1, F2. split; [reflexivity | exact P].
  - exists e1, []. split; [exact T1 |]. split; [exact F1 | left; reflexivity].
  - exists e1, []. split; [exact T1 |]. split; [exact F1 | left; reflexivity].
Qed.

Lemma count_no_compose evs : forallb no_compose evs = true -> count is_compose_up evs = 0%nat.
Proof.
  induction evs as [|e evs IH]; [reflexivity |].
  cbn [forallb]. intro H. apply andb_true_iff in H as [N H].
  rewrite count_cons, (IH H). unfold no_compose in N.
  destruct (is_compose_up e); [discriminate | reflexivity].
Qed.

Lemma staged_up {A B} (answer : nat -> A) (k : A -> M B) :
  (forall a, emits no_compose (k a)) ->
  staged (bind (call (ComposeInvoke ["up"; "-d"]) answer) k).
Proof.
  intros Hk st. unfold bind, call.
  destruct (Hk (answer (List.length (trace st))) (record (Do (ComposeInvoke ["up"; "-d"])) st))
    as (evs & T & F).
  exists [], (evs ++ [Do (ComposeInvoke ["up"; "-d"])])%list.
  rewrite T. cbn [record trace app]. rewrite <- app_assoc.
  split; [reflexivity |]. split; [reflexivity |].
  right. exists evs. split; [reflexivity | exact (count_no_compose _ F)].
Qed.

(** X20.  [ComposeSetup] starts the stack at most once, and nothing
    touches the stack or the environment before that: the events it
    adds are, oldest first, a preparation (the docker client, the
    networks, the compose file and its port plan) in which no compose
    command runs, no container is listed, inspected or run in, no
    address is dialled, no variable is set and no step runs, and then
    either nothing, or [up -d] followed by events among which there is
    no other compose command. *)
Theorem ComposeSetup_starts_stack_once (W : World) (fuel : nat) (e2eConfig : E2EConfig)
  (st : state) :
  exists pre post,
    trace (snd (ComposeSetup W fuel e2eConfig st)) = (post ++ pre ++ trace st)%list /\
    forallb preparation pre = true /\
    (post = [] \/
     exists later, post = (later ++ [Do (ComposeInvoke ["up"; "-d"])])%list /\
                   count is_compose_up later = 0%nat).
Proof.
  revert st. change (staged (ComposeSetup W fuel e2eConfig)).
  unfold ComposeSetup.
  destruct (String.eqb (GetFile W (e2eSetup e2eConfig)) "");
    [apply staged_preparation, emits_ret |].
  apply staged_bind; [emits_steps |].
  intros [e|]; [apply staged_preparation, emits_ret |].
  apply staged_bind; [emits_steps |]. intros _.
  apply staged_bind; [apply emits_inAContainer |]. intros _.
  apply staged_bind; [emits_steps |]. intros _.
  apply staged_bind; [apply emits_getDefaultNetwork |]. intros [network e].
  apply staged_bind; [emits_steps |]. intros _.
  apply staged_bind; [apply emits_getGatewayIP |]. intros [ip e'].
  apply staged_bind; [emits_steps |]. intros _.
  apply staged_bind; [emits_steps |]. intros services.
  apply staged_bind; [apply emits_bindServices |].
  intros [serviceWithPorts [e1|]]; [apply staged_preparation, emits_ret |].
  apply staged_up. intros [e2|]; [apply emits_ret |].
  apply emits_bind; [apply emits_resolveServices |].
  intros [e3|]; [apply emits_ret |]. emits_steps.
Qed.

(** ** [createByManifest] *)

Lemma operated_app (a b : list Manifests.action) :
  Manifests.operated (a ++ b) = (Manifests.operated b ++ Manifests.operated a)%list.
Proof.
  induction a as [|x a IH]; [cbn; rewrite app_nil_r; reflexivity |].
  destruct x; cbn [app Manifests.operated]; rewrite ?IH, ?app_assoc; reflexivity.
Qed.

Lemma createEach_spec (on_OperateManifest : list string -> string -> option error) :
  forall files created tr,
  exists evs n,
    snd (Manifests.createEach on_OperateManifest files created tr) = (evs ++ tr)%list /\
    Manifests.operated evs = firstn n files /\
    (forall i, (i < n - 1)%nat ->
       on_OperateManifest (created ++ firstn i files)%list (nth i files "") = None) /\
    match fst (Manifests.createEach on_OperateManifest files created tr) with
    | None =>
        n = List.length files /\
        (forall i, (i < n)%nat ->
           on_OperateManifest (created ++ firstn i files)%list (nth i files "") = None)
    | Some e =>
        (0 < n <= List.length files)%nat /\
        on_OperateManifest (created ++ firstn (n - 1) files)%list (nth (n - 1) files "") = Some e
    end.
Proof.
  induction files as [|f rest IH]; intros created tr; cbn [Manifests.createEach].
  - exists [], 0%nat. cbn. repeat split; intros; lia.
  - destruct (on_OperateManifest created f) as [e|] eqn:O.
    + exists [Manifests.Logged LError "create manifest %s failed"; Manifests.OperateManifest f;
              Manifests.Logged Info "creating manifest %s"], 1%nat.
      cbn. repeat split; try lia. rewrite app_nil_r. exact O.
    + destruct (IH (created ++ [f])%list
                  (Manifests.OperateManifest f :: Manifests.Logged Info "creating manifest %s" :: tr))
        as (evs & n & T & Op & Before & Last).
      exists (evs ++ [Manifests.OperateManifest f; Manifests.Logged Info "creating manifest %s"])%list,
             (S n).
      assert (Shift : forall i, on_OperateManifest ((created ++ [f]) ++ firstn i rest)%list (nth i rest "")
                                = on_OperateManifest (created ++ firstn (S i) (f :: rest))%list
                                    (nth (S i) (f :: rest) "")).
      { intro i. cbn [firstn nth]. rewrite <- app_assoc. reflexivity. }
      assert (All : forall m,
                (forall i, (i < m)%nat ->
                   on_OperateManifest ((created ++ [f]) ++ firstn i rest)%list (nth i rest "") = None) ->
                forall i, (i < S m)%nat ->
                   on_OperateManifest (created ++ firstn i (f :: rest))%list (nth i (f :: rest) "")
                   = None).
      { intros m H [|i] Hi; [cbn; rewrite app_nil_r; exact O |].
        rewrite <- Shift. apply H. lia. }
      split; [rewrite T, <- app_assoc; reflexivity |].
      split; [rewrite operated_app, Op; reflexivity |].
      destruct (fst (Manifests.createEach on_OperateManifest rest (created ++ [f])%list _))
        as [e|].
      * destruct Last as [[Pos Le] Fail].
        split; [| split; [cbn [List.length]; lia |]].
        -- intros i Hi. apply (All (n - 1)%nat); [exact Before | lia].
        -- replace (S n - 1)%nat with (S (n - 1)) by lia. rewrite <- Shift. exact Fail.
      * destruct Last as [-> Ok].
        split; [| split; [reflexivity |]].
        -- intros i Hi. apply (All (List.length rest)); [exact Ok | lia].
        -- apply (All (List.length rest)). exact Ok.
Qed.

(** X21.  [createByManifest] creates the files of the manifest in
    order and stops at the first one that cannot be created: when the
    files cannot be listed nothing is operated on and the error of the
    listing is returned; otherwise the files operated on are the first
    [n] of the list, each of them but the last was created, and either
    the error is nil, [n] is the whole list and the last was created
    too, or the error is that of the [n]-th file and no later file is
    touched. *)
Theorem createByManifest_first_failure
  (on_GetManifests : string -> list string * option error)
  (on_OperateManifest : list string -> string -> option error)
  (manifest : Manifests.Manifest) (tr : list Manifests.action)
  (files : list string) (err : option error) :
  on_GetManifests (Manifests.manifestPath manifest) = (files, err) ->
  exists evs n,
    snd (Manifests.createByManifest on_GetManifests on_OperateManifest manifest tr)
      = (evs ++ tr)%list /\
    Manifests.operated evs = firstn n files /\
    (forall i, (i < n - 1)%nat -> on_OperateManifest (firstn i files) (nth i files "") = None) /\
    match err with
    | Some e =>
        fst (Manifests.createByManifest on_GetManifests on_OperateManifest manifest tr)
          = Some e /\ n = 0%nat
    | None =>
        match fst (Manifests.createByManifest on_GetManifests on_OperateManifest manifest tr)
        with
        | None =>
            n = List.length files /\
            (forall i, (i < n)%nat ->
               on_OperateManifest (firstn i files) (nth i files "") = None)
        | Some e =>
            (0 < n <= List.length files)%nat /\
            on_OperateManifest (firstn (n - 1) files) (nth (n - 1) files "") = Some e
        end
    end.
Proof.
  intro G. unfold Manifests.createByManifest. rewrite G.
  destruct err as [e|].
  - exists [Manifests.Logged LError "get manifests failed";
            Manifests.GetManifests (Manifests.manifestPath manifest)], 0%nat.
    cbn. repeat split; intros; lia.
  - destruct (createEach_spec on_OperateManifest files []
                (Manifests.GetManifests (Manifests.manifestPath manifest) :: tr))
      as (evs & n & T & Op & Before & Last).
    exists (evs ++ [Manifests.GetManifests (Manifests.manifestPath manifest)])%list, n.
    split; [rewrite T, <- app_assoc; reflexivity |].
    split; [rewrite operated_app; exact Op |].
    split; [exact Before | exact Last].
Qed.

Lemma createByManifest_first_failure_witness :
  Manifests.createByManifest Manifests.three_files Manifests.needs_namespace
    {| Manifests.manifestPath := "test/manifests" |} []
  = (Some (ErrExternal "namespaces not found"),
     [Manifests.Logged LError "create manifest %s failed";
      Manifests.OperateManifest "app.yaml";
      Manifests.Logged Info "creating manifest %s";
      Manifests.OperateManifest "crd.yaml";
      Manifests.Logged Info "creating manifest %s";
      Manifests.GetManifests "test/manifests"]) /\
  exists evs n,
    snd (Manifests.createByManifest Manifests.three_files Manifests.needs_namespace
           {| Manifests.manifestPath := "test/manifests" |} [])
      = (evs ++ [])%list /\
    Manifests.operated evs = firstn n ["crd.yaml"; "app.yaml"; "svc.yaml"] /\
    (forall i, (i < n - 1)%nat ->
       Manifests.needs_namespace (firstn i ["crd.yaml"; "app.yaml"; "svc.yaml"])
         (nth i ["crd.yaml"; "app.yaml"; "svc.yaml"] "") = None) /\
    match fst (Manifests.createByManifest Manifests.three_files Manifests.needs_namespace
                 {| Manifests.manifestPath := "test/manifests" |} [])
    with
    | None =>
        n = List.length ["crd.yaml"; "app.yaml"; "svc.yaml"] /\
        (forall i, (i < n)%nat ->
           Manifests.needs_namespace (firstn i ["crd.yaml"; "app.yaml"; "svc.yaml"])
             (nth i ["crd.yaml"; "app.yaml"; "svc.yaml"] "") = None)
    | Some e =>
        (0 < n <= List.length ["crd.yaml"; "app.yaml"; "svc.yaml"])%nat /\
        Manifests.needs_namespace (firstn (n - 1) ["crd.yaml"; "app.yaml"; "svc.yaml"])
          (nth (n - 1) ["crd.yaml"; "app.yaml"; "svc.yaml"] "") = Some e
    end.
Proof.
  split; [reflexivity |].
  exact (createByManifest_first_failure Manifests.three_files Manifests.needs_namespace
           {| Manifests.manifestPath := "test/manifests" |} []
           ["crd.yaml"; "app.yaml"; "svc.yaml"] None eq_refl).
Defined.
